(** * Daily forecast resolution (utils/daily.ts): model and properties

    A shallow embedding of the resolution engine of [utils/daily.ts]:
    label and hemisphere normalisation, day anchors, the localStorage
    cache, the three staged lookups of [getDailyForecast] and the wrapper
    [getAccessibleHoroscope]. *)

From Stdlib Require Import ZArith NArith Ascii String Lia.
From stdpp Require Import gmap list.

Set Warnings "-clear-no-such-hyp".

Local Open Scope N_scope.

(** ** JavaScript strings

    A JS string is a sequence of UTF-16 code units. *)

Abbreviation str := (list N).

Module JS.

Definition lit (s : string) : str := map N_of_ascii (list_ascii_of_string s).

Definition hyphen : N := 45.
Definition space : N := 32.
Definition enDash : N := 8211.
Definition emDash : N := 8212.

(** [\s] of a regular expression, also the set stripped by [trim()]:
    WhiteSpace and LineTerminator code units. *)
Definition isSpace (c : N) : bool :=
  ((9 <=? c) && (c <=? 13)) || (c =? 32) || (c =? 160) || (c =? 5760)
  || ((8192 <=? c) && (c <=? 8202)) || (c =? 8232) || (c =? 8233)
  || (c =? 8239) || (c =? 8287) || (c =? 12288) || (c =? 65279).

(** [\w] of a regular expression. *)
Definition isWord (c : N) : bool :=
  ((48 <=? c) && (c <=? 57)) || ((65 <=? c) && (c <=? 90))
  || (c =? 95) || ((97 <=? c) && (c <=? 122)).

(** The ASCII letters: the whole of the case folding that a regular
    expression with the [i] flag (and without [u]) applies to the letters
    of an ASCII pattern, and the part of the case mappings below U+0080. *)
Definition lowerChar (c : N) : N :=
  if (65 <=? c) && (c <=? 90) then c + 32 else c.
Definition upperChar (c : N) : N :=
  if (97 <=? c) && (c <=? 122) then c - 32 else c.

(** ** Letter case

    [toLowerCase] and [toUpperCase] read the string as code points (a
    surrogate pair is one code point, a surrogate without its partner
    stands for itself), map every code point with the case mappings of
    the Unicode Character Database, and write the result back as code
    units.  The tables are those of Unicode 14.0: the simple mappings of
    UnicodeData.txt, the unconditional mappings of SpecialCasing.txt and
    its one context rule that does not depend on the language,
    Final_Sigma. *)

Definition isHighSurrogate (c : N) : bool := (55296 <=? c) && (c <=? 56319).
Definition isLowSurrogate (c : N) : bool := (56320 <=? c) && (c <=? 57343).

(** StringToCodePoints; [lead] is a leading surrogate read just before. *)
Fixpoint codePointsFrom (lead : option N) (s : str) : list N :=
  match s with
  | [] => match lead with Some h => [h] | None => [] end
  | c :: s' =>
      match lead with
      | Some h =>
          if isLowSurrogate c
          then (65536 + (h - 55296) * 1024 + (c - 56320)) :: codePointsFrom None s'
          else h :: (if isHighSurrogate c then codePointsFrom (Some c) s'
                     else c :: codePointsFrom None s')
      | None =>
          if isHighSurrogate c then codePointsFrom (Some c) s'
          else c :: codePointsFrom None s'
      end
  end.

Definition codePoints (s : str) : list N := codePointsFrom None s.

(** The UTF-16 encoding of a code point. *)
Definition codeUnits (cp : N) : str :=
  if cp <? 65536 then [cp]
  else [55296 + (cp - 65536) / 1024; 56320 + (cp - 65536) mod 1024].

Definition fromCodePoints (cps : list N) : str := cps ≫= codeUnits.

Fixpoint assoc {A} (c : N) (t : list (N * A)) : option A :=
  match t with
  | [] => None
  | (k, v) :: t' => if c =? k then Some v else assoc c t'
  end.

Fixpoint inRanges (c : N) (t : list (N * N)) : bool :=
  match t with
  | [] => false
  | (lo, hi) :: t' => ((lo <=? c) && (c <=? hi)) || inRanges c t'
  end.

(** Simple lower-case mappings of the code points above U+007F
    (UnicodeData.txt). *)
Definition lowerPairs : list (N * N) :=
  [
    (192, 224); (193, 225); (194, 226); (195, 227); (196, 228); (197, 229);
    (198, 230); (199, 231); (200, 232); (201, 233); (202, 234); (203, 235);
    (204, 236); (205, 237); (206, 238); (207, 239); (208, 240); (209, 241);
    (210, 242); (211, 243); (212, 244); (213, 245); (214, 246); (216, 248);
    (217, 249); (218, 250); (219, 251); (220, 252); (221, 253); (222, 254);
    (256, 257); (258, 259); (260, 261); (262, 263); (264, 265); (266, 267);
    (268, 269); (270, 271); (272, 273); (274, 275); (276, 277); (278, 279);
    (280, 281); (282, 283); (284, 285); (286, 287); (288, 289); (290, 291);
    (292, 293); (294, 295); (296, 297); (298, 299); (300, 301); (302, 303);
    (306, 307); (308, 309); (310, 311); (313, 314); (315, 316); (317, 318);
    (319, 320); (321, 322); (323, 324); (325, 326); (327, 328); (330, 331);
    (332, 333); (334, 335); (336, 337); (338, 339); (340, 341); (342, 343);
    (344, 345); (346, 347); (348, 349); (350, 351); (352, 353); (354, 355);
    (356, 357); (358, 359); (360, 361); (362, 363); (364, 365); (366, 367);
    (368, 369); (370, 371); (372, 373); (374, 375); (376, 255); (377, 378);
    (379, 380); (381, 382); (385, 595); (386, 387); (388, 389); (390, 596);
    (391, 392); (393, 598); (394, 599); (395, 396); (398, 477); (399, 601);
    (400, 603); (401, 402); (403, 608); (404, 611); (406, 617); (407, 616);
    (408, 409); (412, 623); (413, 626); (415, 629); (416, 417); (418, 419);
    (420, 421); (422, 640); (423, 424); (425, 643); (428, 429); (430, 648);
    (431, 432); (433, 650); (434, 651); (435, 436); (437, 438); (439, 658);
    (440, 441); (444, 445); (452, 454); (453, 454); (455, 457); (456, 457);
    (458, 460); (459, 460); (461, 462); (463, 464); (465, 466); (467, 468);
    (469, 470); (471, 472); (473, 474); (475, 476); (478, 479); (480, 481);
    (482, 483); (484, 485); (486, 487); (488, 489); (490, 491); (492, 493);
    (494, 495); (497, 499); (498, 499); (500, 501); (502, 405); (503, 447);
    (504, 505); (506, 507); (508, 509); (510, 511); (512, 513); (514, 515);
    (516, 517); (518, 519); (520, 521); (522, 523); (524, 525); (526, 527);
    (528, 529); (530, 531); (532, 533); (534, 535); (536, 537); (538, 539);
    (540, 541); (542, 543); (544, 414); (546, 547); (548, 549); (550, 551);
    (552, 553); (554, 555); (556, 557); (558, 559); (560, 561); (562, 563);
    (570, 11365); (571, 572); (573, 410); (574, 11366); (577, 578);
    (579, 384); (580, 649); (581, 652); (582, 583); (584, 585); (586, 587);
    (588, 589); (590, 591); (880, 881); (882, 883); (886, 887); (895, 1011);
    (902, 940); (904, 941); (905, 942); (906, 943); (908, 972); (910, 973);
    (911, 974); (913, 945); (914, 946); (915, 947); (916, 948); (917, 949);
    (918, 950); (919, 951); (920, 952); (921, 953); (922, 954); (923, 955);
    (924, 956); (925, 957); (926, 958); (927, 959); (928, 960); (929, 961);
    (931, 963); (932, 964); (933, 965); (934, 966); (935, 967); (936, 968);
    (937, 969); (938, 970); (939, 971); (975, 983); (984, 985); (986, 987);
    (988, 989); (990, 991); (992, 993); (994, 995); (996, 997); (998, 999);
    (1000, 1001); (1002, 1003); (1004, 1005); (1006, 1007); (1012, 952);
    (1015, 1016); (1017, 1010); (1018, 1019); (1021, 891); (1022, 892);
    (1023, 893); (1024, 1104); (1025, 1105); (1026, 1106); (1027, 1107);
    (1028, 1108); (1029, 1109); (1030, 1110); (1031, 1111); (1032, 1112);
    (1033, 1113); (1034, 1114); (1035, 1115); (1036, 1116); (1037, 1117);
    (1038, 1118); (1039, 1119); (1040, 1072); (1041, 1073); (1042, 1074);
    (1043, 1075); (1044, 1076); (1045, 1077); (1046, 1078); (1047, 1079);
    (1048, 1080); (1049, 1081); (1050, 1082); (1051, 1083); (1052, 1084);
    (1053, 1085); (1054, 1086); (1055, 1087); (1056, 1088); (1057, 1089);
    (1058, 1090); (1059, 1091); (1060, 1092); (1061, 1093); (1062, 1094);
    (1063, 1095); (1064, 1096); (1065, 1097); (1066, 1098); (1067, 1099);
    (1068, 1100); (1069, 1101); (1070, 1102); (1071, 1103); (1120, 1121);
    (1122, 1123); (1124, 1125); (1126, 1127); (1128, 1129); (1130, 1131);
    (1132, 1133); (1134, 1135); (1136, 1137); (1138, 1139); (1140, 1141);
    (1142, 1143); (1144, 1145); (1146, 1147); (1148, 1149); (1150, 1151);
    (1152, 1153); (1162, 1163); (1164, 1165); (1166, 1167); (1168, 1169);
    (1170, 1171); (1172, 1173); (1174, 1175); (1176, 1177); (1178, 1179);
    (1180, 1181); (1182, 1183); (1184, 1185); (1186, 1187); (1188, 1189);
    (1190, 1191); (1192, 1193); (1194, 1195); (1196, 1197); (1198, 1199);
    (1200, 1201); (1202, 1203); (1204, 1205); (1206, 1207); (1208, 1209);
    (1210, 1211); (1212, 1213); (1214, 1215); (1216, 1231); (1217, 1218);
    (1219, 1220); (1221, 1222); (1223, 1224); (1225, 1226); (1227, 1228);
    (1229, 1230); (1232, 1233); (1234, 1235); (1236, 1237); (1238, 1239);
    (1240, 1241); (1242, 1243); (1244, 1245); (1246, 1247); (1248, 1249);
    (1250, 1251); (1252, 1253); (1254, 1255); (1256, 1257); (1258, 1259);
    (1260, 1261); (1262, 1263); (1264, 1265); (1266, 1267); (1268, 1269);
    (1270, 1271); (1272, 1273); (1274, 1275); (1276, 1277); (1278, 1279);
    (1280, 1281); (1282, 1283); (1284, 1285); (1286, 1287); (1288, 1289);
    (1290, 1291); (1292, 1293); (1294, 1295); (1296, 1297); (1298, 1299);
    (1300, 1301); (1302, 1303); (1304, 1305); (1306, 1307); (1308, 1309);
    (1310, 1311); (1312, 1313); (1314, 1315); (1316, 1317); (1318, 1319);
    (1320, 1321); (1322, 1323); (1324, 1325); (1326, 1327); (1329, 1377);
    (1330, 1378); (1331, 1379); (1332, 1380); (1333, 1381); (1334, 1382);
    (1335, 1383); (1336, 1384); (1337, 1385); (1338, 1386); (1339, 1387);
    (1340, 1388); (1341, 1389); (1342, 1390); (1343, 1391); (1344, 1392);
    (1345, 1393); (1346, 1394); (1347, 1395); (1348, 1396); (1349, 1397);
    (1350, 1398); (1351, 1399); (1352, 1400); (1353, 1401); (1354, 1402);
    (1355, 1403); (1356, 1404); (1357, 1405); (1358, 1406); (1359, 1407);
    (1360, 1408); (1361, 1409); (1362, 1410); (1363, 1411); (1364, 1412);
    (1365, 1413); (1366, 1414); (4256, 11520); (4257, 11521); (4258, 11522);
    (4259, 11523); (4260, 11524); (4261, 11525); (4262, 11526);
    (4263, 11527); (4264, 11528); (4265, 11529); (4266, 11530);
    (4267, 11531); (4268, 11532); (4269, 11533); (4270, 11534);
    (4271, 11535); (4272, 11536); (4273, 11537); (4274, 11538);
    (4275, 11539); (4276, 11540); (4277, 11541); (4278, 11542);
    (4279, 11543); (4280, 11544); (4281, 11545); (4282, 11546);
    (4283, 11547); (4284, 11548); (4285, 11549); (4286, 11550);
    (4287, 11551); (4288, 11552); (4289, 11553); (4290, 11554);
    (4291, 11555); (4292, 11556); (4293, 11557); (4295, 11559);
    (4301, 11565); (5024, 43888); (5025, 43889); (5026, 43890);
    (5027, 43891); (5028, 43892); (5029, 43893); (5030, 43894);
    (5031, 43895); (5032, 43896); (5033, 43897); (5034, 43898);
    (5035, 43899); (5036, 43900); (5037, 43901); (5038, 43902);
    (5039, 43903); (5040, 43904); (5041, 43905); (5042, 43906);
    (5043, 43907); (5044, 43908); (5045, 43909); (5046, 43910);
    (5047, 43911); (5048, 43912); (5049, 43913); (5050, 43914);
    (5051, 43915); (5052, 43916); (5053, 43917); (5054, 43918);
    (5055, 43919); (5056, 43920); (5057, 43921); (5058, 43922);
    (5059, 43923); (5060, 43924); (5061, 43925); (5062, 43926);
    (5063, 43927); (5064, 43928); (5065, 43929); (5066, 43930);
    (5067, 43931); (5068, 43932); (5069, 43933); (5070, 43934);
    (5071, 43935); (5072, 43936); (5073, 43937); (5074, 43938);
    (5075, 43939); (5076, 43940); (5077, 43941); (5078, 43942);
    (5079, 43943); (5080, 43944); (5081, 43945); (5082, 43946);
    (5083, 43947); (5084, 43948); (5085, 43949); (5086, 43950);
    (5087, 43951); (5088, 43952); (5089, 43953); (5090, 43954);
    (5091, 43955); (5092, 43956); (5093, 43957); (5094, 43958);
    (5095, 43959); (5096, 43960); (5097, 43961); (5098, 43962);
    (5099, 43963); (5100, 43964); (5101, 43965); (5102, 43966);
    (5103, 43967); (5104, 5112); (5105, 5113); (5106, 5114); (5107, 5115);
    (5108, 5116); (5109, 5117); (7312, 4304); (7313, 4305); (7314, 4306);
    (7315, 4307); (7316, 4308); (7317, 4309); (7318, 4310); (7319, 4311);
    (7320, 4312); (7321, 4313); (7322, 4314); (7323, 4315); (7324, 4316);
    (7325, 4317); (7326, 4318); (7327, 4319); (7328, 4320); (7329, 4321);
    (7330, 4322); (7331, 4323); (7332, 4324); (7333, 4325); (7334, 4326);
    (7335, 4327); (7336, 4328); (7337, 4329); (7338, 4330); (7339, 4331);
    (7340, 4332); (7341, 4333); (7342, 4334); (7343, 4335); (7344, 4336);
    (7345, 4337); (7346, 4338); (7347, 4339); (7348, 4340); (7349, 4341);
    (7350, 4342); (7351, 4343); (7352, 4344); (7353, 4345); (7354, 4346);
    (7357, 4349); (7358, 4350); (7359, 4351); (7680, 7681); (7682, 7683);
    (7684, 7685); (7686, 7687); (7688, 7689); (7690, 7691); (7692, 7693);
    (7694, 7695); (7696, 7697); (7698, 7699); (7700, 7701); (7702, 7703);
    (7704, 7705); (7706, 7707); (7708, 7709); (7710, 7711); (7712, 7713);
    (7714, 7715); (7716, 7717); (7718, 7719); (7720, 7721); (7722, 7723);
    (7724, 7725); (7726, 7727); (7728, 7729); (7730, 7731); (7732, 7733);
    (7734, 7735); (7736, 7737); (7738, 7739); (7740, 7741); (7742, 7743);
    (7744, 7745); (7746, 7747); (7748, 7749); (7750, 7751); (7752, 7753);
    (7754, 7755); (7756, 7757); (7758, 7759); (7760, 7761); (7762, 7763);
    (7764, 7765); (7766, 7767); (7768, 7769); (7770, 7771); (7772, 7773);
    (7774, 7775); (7776, 7777); (7778, 7779); (7780, 7781); (7782, 7783);
    (7784, 7785); (7786, 7787); (7788, 7789); (7790, 7791); (7792, 7793);
    (7794, 7795); (7796, 7797); (7798, 7799); (7800, 7801); (7802, 7803);
    (7804, 7805); (7806, 7807); (7808, 7809); (7810, 7811); (7812, 7813);
    (7814, 7815); (7816, 7817); (7818, 7819); (7820, 7821); (7822, 7823);
    (7824, 7825); (7826, 7827); (7828, 7829); (7838, 223); (7840, 7841);
    (7842, 7843); (7844, 7845); (7846, 7847); (7848, 7849); (7850, 7851);
    (7852, 7853); (7854, 7855); (7856, 7857); (7858, 7859); (7860, 7861);
    (7862, 7863); (7864, 7865); (7866, 7867); (7868, 7869); (7870, 7871);
    (7872, 7873); (7874, 7875); (7876, 7877); (7878, 7879); (7880, 7881);
    (7882, 7883); (7884, 7885); (7886, 7887); (7888, 7889); (7890, 7891);
    (7892, 7893); (7894, 7895); (7896, 7897); (7898, 7899); (7900, 7901);
    (7902, 7903); (7904, 7905); (7906, 7907); (7908, 7909); (7910, 7911);
    (7912, 7913); (7914, 7915); (7916, 7917); (7918, 7919); (7920, 7921);
    (7922, 7923); (7924, 7925); (7926, 7927); (7928, 7929); (7930, 7931);
    (7932, 7933); (7934, 7935); (7944, 7936); (7945, 7937); (7946, 7938);
    (7947, 7939); (7948, 7940); (7949, 7941); (7950, 7942); (7951, 7943);
    (7960, 7952); (7961, 7953); (7962, 7954); (7963, 7955); (7964, 7956);
    (7965, 7957); (7976, 7968); (7977, 7969); (7978, 7970); (7979, 7971);
    (7980, 7972); (7981, 7973); (7982, 7974); (7983, 7975); (7992, 7984);
    (7993, 7985); (7994, 7986); (7995, 7987); (7996, 7988); (7997, 7989);
    (7998, 7990); (7999, 7991); (8008, 8000); (8009, 8001); (8010, 8002);
    (8011, 8003); (8012, 8004); (8013, 8005); (8025, 8017); (8027, 8019);
    (8029, 8021); (8031, 8023); (8040, 8032); (8041, 8033); (8042, 8034);
    (8043, 8035); (8044, 8036); (8045, 8037); (8046, 8038); (8047, 8039);
    (8072, 8064); (8073, 8065); (8074, 8066); (8075, 8067); (8076, 8068);
    (8077, 8069); (8078, 8070); (8079, 8071); (8088, 8080); (8089, 8081);
    (8090, 8082); (8091, 8083); (8092, 8084); (8093, 8085); (8094, 8086);
    (8095, 8087); (8104, 8096); (8105, 8097); (8106, 8098); (8107, 8099);
    (8108, 8100); (8109, 8101); (8110, 8102); (8111, 8103); (8120, 8112);
    (8121, 8113); (8122, 8048); (8123, 8049); (8124, 8115); (8136, 8050);
    (8137, 8051); (8138, 8052); (8139, 8053); (8140, 8131); (8152, 8144);
    (8153, 8145); (8154, 8054); (8155, 8055); (8168, 8160); (8169, 8161);
    (8170, 8058); (8171, 8059); (8172, 8165); (8184, 8056); (8185, 8057);
    (8186, 8060); (8187, 8061); (8188, 8179); (8486, 969); (8490, 107);
    (8491, 229); (8498, 8526); (8544, 8560); (8545, 8561); (8546, 8562);
    (8547, 8563); (8548, 8564); (8549, 8565); (8550, 8566); (8551, 8567);
    (8552, 8568); (8553, 8569); (8554, 8570); (8555, 8571); (8556, 8572);
    (8557, 8573); (8558, 8574); (8559, 8575); (8579, 8580); (9398, 9424);
    (9399, 9425); (9400, 9426); (9401, 9427); (9402, 9428); (9403, 9429);
    (9404, 9430); (9405, 9431); (9406, 9432); (9407, 9433); (9408, 9434);
    (9409, 9435); (9410, 9436); (9411, 9437); (9412, 9438); (9413, 9439);
    (9414, 9440); (9415, 9441); (9416, 9442); (9417, 9443); (9418, 9444);
    (9419, 9445); (9420, 9446); (9421, 9447); (9422, 9448); (9423, 9449);
    (11264, 11312); (11265, 11313); (11266, 11314); (11267, 11315);
    (11268, 11316); (11269, 11317); (11270, 11318); (11271, 11319);
    (11272, 11320); (11273, 11321); (11274, 11322); (11275, 11323);
    (11276, 11324); (11277, 11325); (11278, 11326); (11279, 11327);
    (11280, 11328); (11281, 11329); (11282, 11330); (11283, 11331);
    (11284, 11332); (11285, 11333); (11286, 11334); (11287, 11335);
    (11288, 11336); (11289, 11337); (11290, 11338); (11291, 11339);
    (11292, 11340); (11293, 11341); (11294, 11342); (11295, 11343);
    (11296, 11344); (11297, 11345); (11298, 11346); (11299, 11347);
    (11300, 11348); (11301, 11349); (11302, 11350); (11303, 11351);
    (11304, 11352); (11305, 11353); (11306, 11354); (11307, 11355);
    (11308, 11356); (11309, 11357); (11310, 11358); (11311, 11359);
    (11360, 11361); (11362, 619); (11363, 7549); (11364, 637);
    (11367, 11368); (11369, 11370); (11371, 11372); (11373, 593);
    (11374, 625); (11375, 592); (11376, 594); (11378, 11379);
    (11381, 11382); (11390, 575); (11391, 576); (11392, 11393);
    (11394, 11395); (11396, 11397); (11398, 11399); (11400, 11401);
    (11402, 11403); (11404, 11405); (11406, 11407); (11408, 11409);
    (11410, 11411); (11412, 11413); (11414, 11415); (11416, 11417);
    (11418, 11419); (11420, 11421); (11422, 11423); (11424, 11425);
    (11426, 11427); (11428, 11429); (11430, 11431); (11432, 11433);
    (11434, 11435); (11436, 11437); (11438, 11439); (11440, 11441);
    (11442, 11443); (11444, 11445); (11446, 11447); (11448, 11449);
    (11450, 11451); (11452, 11453); (11454, 11455); (11456, 11457);
    (11458, 11459); (11460, 11461); (11462, 11463); (11464, 11465);
    (11466, 11467); (11468, 11469); (11470, 11471); (11472, 11473);
    (11474, 11475); (11476, 11477); (11478, 11479); (11480, 11481);
    (11482, 11483); (11484, 11485); (11486, 11487); (11488, 11489);
    (11490, 11491); (11499, 11500); (11501, 11502); (11506, 11507);
    (42560, 42561); (42562, 42563); (42564, 42565); (42566, 42567);
    (42568, 42569); (42570, 42571); (42572, 42573); (42574, 42575);
    (42576, 42577); (42578, 42579); (42580, 42581); (42582, 42583);
    (42584, 42585); (42586, 42587); (42588, 42589); (42590, 42591);
    (42592, 42593); (42594, 42595); (42596, 42597); (42598, 42599);
    (42600, 42601); (42602, 42603); (42604, 42605); (42624, 42625);
    (42626, 42627); (42628, 42629); (42630, 42631); (42632, 42633);
    (42634, 42635); (42636, 42637); (42638, 42639); (42640, 42641);
    (42642, 42643); (42644, 42645); (42646, 42647); (42648, 42649);
    (42650, 42651); (42786, 42787); (42788, 42789); (42790, 42791);
    (42792, 42793); (42794, 42795); (42796, 42797); (42798, 42799);
    (42802, 42803); (42804, 42805); (42806, 42807); (42808, 42809);
    (42810, 42811); (42812, 42813); (42814, 42815); (42816, 42817);
    (42818, 42819); (42820, 42821); (42822, 42823); (42824, 42825);
    (42826, 42827); (42828, 42829); (42830, 42831); (42832, 42833);
    (42834, 42835); (42836, 42837); (42838, 42839); (42840, 42841);
    (42842, 42843); (42844, 42845); (42846, 42847); (42848, 42849);
    (42850, 42851); (42852, 42853); (42854, 42855); (42856, 42857);
    (42858, 42859); (42860, 42861); (42862, 42863); (42873, 42874);
    (42875, 42876); (42877, 7545); (42878, 42879); (42880, 42881);
    (42882, 42883); (42884, 42885); (42886, 42887); (42891, 42892);
    (42893, 613); (42896, 42897); (42898, 42899); (42902, 42903);
    (42904, 42905); (42906, 42907); (42908, 42909); (42910, 42911);
    (42912, 42913); (42914, 42915); (42916, 42917); (42918, 42919);
    (42920, 42921); (42922, 614); (42923, 604); (42924, 609); (42925, 620);
    (42926, 618); (42928, 670); (42929, 647); (42930, 669); (42931, 43859);
    (42932, 42933); (42934, 42935); (42936, 42937); (42938, 42939);
    (42940, 42941); (42942, 42943); (42944, 42945); (42946, 42947);
    (42948, 42900); (42949, 642); (42950, 7566); (42951, 42952);
    (42953, 42954); (42960, 42961); (42966, 42967); (42968, 42969);
    (42997, 42998); (65313, 65345); (65314, 65346); (65315, 65347);
    (65316, 65348); (65317, 65349); (65318, 65350); (65319, 65351);
    (65320, 65352); (65321, 65353); (65322, 65354); (65323, 65355);
    (65324, 65356); (65325, 65357); (65326, 65358); (65327, 65359);
    (65328, 65360); (65329, 65361); (65330, 65362); (65331, 65363);
    (65332, 65364); (65333, 65365); (65334, 65366); (65335, 65367);
    (65336, 65368); (65337, 65369); (65338, 65370); (66560, 66600);
    (66561, 66601); (66562, 66602); (66563, 66603); (66564, 66604);
    (66565, 66605); (66566, 66606); (66567, 66607); (66568, 66608);
    (66569, 66609); (66570, 66610); (66571, 66611); (66572, 66612);
    (66573, 66613); (66574, 66614); (66575, 66615); (66576, 66616);
    (66577, 66617); (66578, 66618); (66579, 66619); (66580, 66620);
    (66581, 66621); (66582, 66622); (66583, 66623); (66584, 66624);
    (66585, 66625); (66586, 66626); (66587, 66627); (66588, 66628);
    (66589, 66629); (66590, 66630); (66591, 66631); (66592, 66632);
    (66593, 66633); (66594, 66634); (66595, 66635); (66596, 66636);
    (66597, 66637); (66598, 66638); (66599, 66639); (66736, 66776);
    (66737, 66777); (66738, 66778); (66739, 66779); (66740, 66780);
    (66741, 66781); (66742, 66782); (66743, 66783); (66744, 66784);
    (66745, 66785); (66746, 66786); (66747, 66787); (66748, 66788);
    (66749, 66789); (66750, 66790); (66751, 66791); (66752, 66792);
    (66753, 66793); (66754, 66794); (66755, 66795); (66756, 66796);
    (66757, 66797); (66758, 66798); (66759, 66799); (66760, 66800);
    (66761, 66801); (66762, 66802); (66763, 66803); (66764, 66804);
    (66765, 66805); (66766, 66806); (66767, 66807); (66768, 66808);
    (66769, 66809); (66770, 66810); (66771, 66811); (66928, 66967);
    (66929, 66968); (66930, 66969); (66931, 66970); (66932, 66971);
    (66933, 66972); (66934, 66973); (66935, 66974); (66936, 66975);
    (66937, 66976); (66938, 66977); (66940, 66979); (66941, 66980);
    (66942, 66981); (66943, 66982); (66944, 66983); (66945, 66984);
    (66946, 66985); (66947, 66986); (66948, 66987); (66949, 66988);
    (66950, 66989); (66951, 66990); (66952, 66991); (66953, 66992);
    (66954, 66993); (66956, 66995); (66957, 66996); (66958, 66997);
    (66959, 66998); (66960, 66999); (66961, 67000); (66962, 67001);
    (66964, 67003); (66965, 67004); (68736, 68800); (68737, 68801);
    (68738, 68802); (68739, 68803); (68740, 68804); (68741, 68805);
    (68742, 68806); (68743, 68807); (68744, 68808); (68745, 68809);
    (68746, 68810); (68747, 68811); (68748, 68812); (68749, 68813);
    (68750, 68814); (68751, 68815); (68752, 68816); (68753, 68817);
    (68754, 68818); (68755, 68819); (68756, 68820); (68757, 68821);
    (68758, 68822); (68759, 68823); (68760, 68824); (68761, 68825);
    (68762, 68826); (68763, 68827); (68764, 68828); (68765, 68829);
    (68766, 68830); (68767, 68831); (68768, 68832); (68769, 68833);
    (68770, 68834); (68771, 68835); (68772, 68836); (68773, 68837);
    (68774, 68838); (68775, 68839); (68776, 68840); (68777, 68841);
    (68778, 68842); (68779, 68843); (68780, 68844); (68781, 68845);
    (68782, 68846); (68783, 68847); (68784, 68848); (68785, 68849);
    (68786, 68850); (71840, 71872); (71841, 71873); (71842, 71874);
    (71843, 71875); (71844, 71876); (71845, 71877); (71846, 71878);
    (71847, 71879); (71848, 71880); (71849, 71881); (71850, 71882);
    (71851, 71883); (71852, 71884); (71853, 71885); (71854, 71886);
    (71855, 71887); (71856, 71888); (71857, 71889); (71858, 71890);
    (71859, 71891); (71860, 71892); (71861, 71893); (71862, 71894);
    (71863, 71895); (71864, 71896); (71865, 71897); (71866, 71898);
    (71867, 71899); (71868, 71900); (71869, 71901); (71870, 71902);
    (71871, 71903); (93760, 93792); (93761, 93793); (93762, 93794);
    (93763, 93795); (93764, 93796); (93765, 93797); (93766, 93798);
    (93767, 93799); (93768, 93800); (93769, 93801); (93770, 93802);
    (93771, 93803); (93772, 93804); (93773, 93805); (93774, 93806);
    (93775, 93807); (93776, 93808); (93777, 93809); (93778, 93810);
    (93779, 93811); (93780, 93812); (93781, 93813); (93782, 93814);
    (93783, 93815); (93784, 93816); (93785, 93817); (93786, 93818);
    (93787, 93819); (93788, 93820); (93789, 93821); (93790, 93822);
    (93791, 93823); (125184, 125218); (125185, 125219); (125186, 125220);
    (125187, 125221); (125188, 125222); (125189, 125223); (125190, 125224);
    (125191, 125225); (125192, 125226); (125193, 125227); (125194, 125228);
    (125195, 125229); (125196, 125230); (125197, 125231); (125198, 125232);
    (125199, 125233); (125200, 125234); (125201, 125235); (125202, 125236);
    (125203, 125237); (125204, 125238); (125205, 125239); (125206, 125240);
    (125207, 125241); (125208, 125242); (125209, 125243); (125210, 125244);
    (125211, 125245); (125212, 125246); (125213, 125247); (125214, 125248);
    (125215, 125249); (125216, 125250); (125217, 125251)
  ].

(** Simple upper-case mappings of the code points above U+007F
    (UnicodeData.txt). *)
Definition upperPairs : list (N * N) :=
  [
    (181, 924); (224, 192); (225, 193); (226, 194); (227, 195); (228, 196);
    (229, 197); (230, 198); (231, 199); (232, 200); (233, 201); (234, 202);
    (235, 203); (236, 204); (237, 205); (238, 206); (239, 207); (240, 208);
    (241, 209); (242, 210); (243, 211); (244, 212); (245, 213); (246, 214);
    (248, 216); (249, 217); (250, 218); (251, 219); (252, 220); (253, 221);
    (254, 222); (255, 376); (257, 256); (259, 258); (261, 260); (263, 262);
    (265, 264); (267, 266); (269, 268); (271, 270); (273, 272); (275, 274);
    (277, 276); (279, 278); (281, 280); (283, 282); (285, 284); (287, 286);
    (289, 288); (291, 290); (293, 292); (295, 294); (297, 296); (299, 298);
    (301, 300); (303, 302); (305, 73); (307, 306); (309, 308); (311, 310);
    (314, 313); (316, 315); (318, 317); (320, 319); (322, 321); (324, 323);
    (326, 325); (328, 327); (331, 330); (333, 332); (335, 334); (337, 336);
    (339, 338); (341, 340); (343, 342); (345, 344); (347, 346); (349, 348);
    (351, 350); (353, 352); (355, 354); (357, 356); (359, 358); (361, 360);
    (363, 362); (365, 364); (367, 366); (369, 368); (371, 370); (373, 372);
    (375, 374); (378, 377); (380, 379); (382, 381); (383, 83); (384, 579);
    (387, 386); (389, 388); (392, 391); (396, 395); (402, 401); (405, 502);
    (409, 408); (410, 573); (414, 544); (417, 416); (419, 418); (421, 420);
    (424, 423); (429, 428); (432, 431); (436, 435); (438, 437); (441, 440);
    (445, 444); (447, 503); (453, 452); (454, 452); (456, 455); (457, 455);
    (459, 458); (460, 458); (462, 461); (464, 463); (466, 465); (468, 467);
    (470, 469); (472, 471); (474, 473); (476, 475); (477, 398); (479, 478);
    (481, 480); (483, 482); (485, 484); (487, 486); (489, 488); (491, 490);
    (493, 492); (495, 494); (498, 497); (499, 497); (501, 500); (505, 504);
    (507, 506); (509, 508); (511, 510); (513, 512); (515, 514); (517, 516);
    (519, 518); (521, 520); (523, 522); (525, 524); (527, 526); (529, 528);
    (531, 530); (533, 532); (535, 534); (537, 536); (539, 538); (541, 540);
    (543, 542); (547, 546); (549, 548); (551, 550); (553, 552); (555, 554);
    (557, 556); (559, 558); (561, 560); (563, 562); (572, 571);
    (575, 11390); (576, 11391); (578, 577); (583, 582); (585, 584);
    (587, 586); (589, 588); (591, 590); (592, 11375); (593, 11373);
    (594, 11376); (595, 385); (596, 390); (598, 393); (599, 394);
    (601, 399); (603, 400); (604, 42923); (608, 403); (609, 42924);
    (611, 404); (613, 42893); (614, 42922); (616, 407); (617, 406);
    (618, 42926); (619, 11362); (620, 42925); (623, 412); (625, 11374);
    (626, 413); (629, 415); (637, 11364); (640, 422); (642, 42949);
    (643, 425); (647, 42929); (648, 430); (649, 580); (650, 433);
    (651, 434); (652, 581); (658, 439); (669, 42930); (670, 42928);
    (837, 921); (881, 880); (883, 882); (887, 886); (891, 1021);
    (892, 1022); (893, 1023); (940, 902); (941, 904); (942, 905);
    (943, 906); (945, 913); (946, 914); (947, 915); (948, 916); (949, 917);
    (950, 918); (951, 919); (952, 920); (953, 921); (954, 922); (955, 923);
    (956, 924); (957, 925); (958, 926); (959, 927); (960, 928); (961, 929);
    (962, 931); (963, 931); (964, 932); (965, 933); (966, 934); (967, 935);
    (968, 936); (969, 937); (970, 938); (971, 939); (972, 908); (973, 910);
    (974, 911); (976, 914); (977, 920); (981, 934); (982, 928); (983, 975);
    (985, 984); (987, 986); (989, 988); (991, 990); (993, 992); (995, 994);
    (997, 996); (999, 998); (1001, 1000); (1003, 1002); (1005, 1004);
    (1007, 1006); (1008, 922); (1009, 929); (1010, 1017); (1011, 895);
    (1013, 917); (1016, 1015); (1019, 1018); (1072, 1040); (1073, 1041);
    (1074, 1042); (1075, 1043); (1076, 1044); (1077, 1045); (1078, 1046);
    (1079, 1047); (1080, 1048); (1081, 1049); (1082, 1050); (1083, 1051);
    (1084, 1052); (1085, 1053); (1086, 1054); (1087, 1055); (1088, 1056);
    (1089, 1057); (1090, 1058); (1091, 1059); (1092, 1060); (1093, 1061);
    (1094, 1062); (1095, 1063); (1096, 1064); (1097, 1065); (1098, 1066);
    (1099, 1067); (1100, 1068); (1101, 1069); (1102, 1070); (1103, 1071);
    (1104, 1024); (1105, 1025); (1106, 1026); (1107, 1027); (1108, 1028);
    (1109, 1029); (1110, 1030); (1111, 1031); (1112, 1032); (1113, 1033);
    (1114, 1034); (1115, 1035); (1116, 1036); (1117, 1037); (1118, 1038);
    (1119, 1039); (1121, 1120); (1123, 1122); (1125, 1124); (1127, 1126);
    (1129, 1128); (1131, 1130); (1133, 1132); (1135, 1134); (1137, 1136);
    (1139, 1138); (1141, 1140); (1143, 1142); (1145, 1144); (1147, 1146);
    (1149, 1148); (1151, 1150); (1153, 1152); (1163, 1162); (1165, 1164);
    (1167, 1166); (1169, 1168); (1171, 1170); (1173, 1172); (1175, 1174);
    (1177, 1176); (1179, 1178); (1181, 1180); (1183, 1182); (1185, 1184);
    (1187, 1186); (1189, 1188); (1191, 1190); (1193, 1192); (1195, 1194);
    (1197, 1196); (1199, 1198); (1201, 1200); (1203, 1202); (1205, 1204);
    (1207, 1206); (1209, 1208); (1211, 1210); (1213, 1212); (1215, 1214);
    (1218, 1217); (1220, 1219); (1222, 1221); (1224, 1223); (1226, 1225);
    (1228, 1227); (1230, 1229); (1231, 1216); (1233, 1232); (1235, 1234);
    (1237, 1236); (1239, 1238); (1241, 1240); (1243, 1242); (1245, 1244);
    (1247, 1246); (1249, 1248); (1251, 1250); (1253, 1252); (1255, 1254);
    (1257, 1256); (1259, 1258); (1261, 1260); (1263, 1262); (1265, 1264);
    (1267, 1266); (1269, 1268); (1271, 1270); (1273, 1272); (1275, 1274);
    (1277, 1276); (1279, 1278); (1281, 1280); (1283, 1282); (1285, 1284);
    (1287, 1286); (1289, 1288); (1291, 1290); (1293, 1292); (1295, 1294);
    (1297, 1296); (1299, 1298); (1301, 1300); (1303, 1302); (1305, 1304);
    (1307, 1306); (1309, 1308); (1311, 1310); (1313, 1312); (1315, 1314);
    (1317, 1316); (1319, 1318); (1321, 1320); (1323, 1322); (1325, 1324);
    (1327, 1326); (1377, 1329); (1378, 1330); (1379, 1331); (1380, 1332);
    (1381, 1333); (1382, 1334); (1383, 1335); (1384, 1336); (1385, 1337);
    (1386, 1338); (1387, 1339); (1388, 1340); (1389, 1341); (1390, 1342);
    (1391, 1343); (1392, 1344); (1393, 1345); (1394, 1346); (1395, 1347);
    (1396, 1348); (1397, 1349); (1398, 1350); (1399, 1351); (1400, 1352);
    (1401, 1353); (1402, 1354); (1403, 1355); (1404, 1356); (1405, 1357);
    (1406, 1358); (1407, 1359); (1408, 1360); (1409, 1361); (1410, 1362);
    (1411, 1363); (1412, 1364); (1413, 1365); (1414, 1366); (4304, 7312);
    (4305, 7313); (4306, 7314); (4307, 7315); (4308, 7316); (4309, 7317);
    (4310, 7318); (4311, 7319); (4312, 7320); (4313, 7321); (4314, 7322);
    (4315, 7323); (4316, 7324); (4317, 7325); (4318, 7326); (4319, 7327);
    (4320, 7328); (4321, 7329); (4322, 7330); (4323, 7331); (4324, 7332);
    (4325, 7333); (4326, 7334); (4327, 7335); (4328, 7336); (4329, 7337);
    (4330, 7338); (4331, 7339); (4332, 7340); (4333, 7341); (4334, 7342);
    (4335, 7343); (4336, 7344); (4337, 7345); (4338, 7346); (4339, 7347);
    (4340, 7348); (4341, 7349); (4342, 7350); (4343, 7351); (4344, 7352);
    (4345, 7353); (4346, 7354); (4349, 7357); (4350, 7358); (4351, 7359);
    (5112, 5104); (5113, 5105); (5114, 5106); (5115, 5107); (5116, 5108);
    (5117, 5109); (7296, 1042); (7297, 1044); (7298, 1054); (7299, 1057);
    (7300, 1058); (7301, 1058); (7302, 1066); (7303, 1122); (7304, 42570);
    (7545, 42877); (7549, 11363); (7566, 42950); (7681, 7680); (7683, 7682);
    (7685, 7684); (7687, 7686); (7689, 7688); (7691, 7690); (7693, 7692);
    (7695, 7694); (7697, 7696); (7699, 7698); (7701, 7700); (7703, 7702);
    (7705, 7704); (7707, 7706); (7709, 7708); (7711, 7710); (7713, 7712);
    (7715, 7714); (7717, 7716); (7719, 7718); (7721, 7720); (7723, 7722);
    (7725, 7724); (7727, 7726); (7729, 7728); (7731, 7730); (7733, 7732);
    (7735, 7734); (7737, 7736); (7739, 7738); (7741, 7740); (7743, 7742);
    (7745, 7744); (7747, 7746); (7749, 7748); (7751, 7750); (7753, 7752);
    (7755, 7754); (7757, 7756); (7759, 7758); (7761, 7760); (7763, 7762);
    (7765, 7764); (7767, 7766); (7769, 7768); (7771, 7770); (7773, 7772);
    (7775, 7774); (7777, 7776); (7779, 7778); (7781, 7780); (7783, 7782);
    (7785, 7784); (7787, 7786); (7789, 7788); (7791, 7790); (7793, 7792);
    (7795, 7794); (7797, 7796); (7799, 7798); (7801, 7800); (7803, 7802);
    (7805, 7804); (7807, 7806); (7809, 7808); (7811, 7810); (7813, 7812);
    (7815, 7814); (7817, 7816); (7819, 7818); (7821, 7820); (7823, 7822);
    (7825, 7824); (7827, 7826); (7829, 7828); (7835, 7776); (7841, 7840);
    (7843, 7842); (7845, 7844); (7847, 7846); (7849, 7848); (7851, 7850);
    (7853, 7852); (7855, 7854); (7857, 7856); (7859, 7858); (7861, 7860);
    (7863, 7862); (7865, 7864); (7867, 7866); (7869, 7868); (7871, 7870);
    (7873, 7872); (7875, 7874); (7877, 7876); (7879, 7878); (7881, 7880);
    (7883, 7882); (7885, 7884); (7887, 7886); (7889, 7888); (7891, 7890);
    (7893, 7892); (7895, 7894); (7897, 7896); (7899, 7898); (7901, 7900);
    (7903, 7902); (7905, 7904); (7907, 7906); (7909, 7908); (7911, 7910);
    (7913, 7912); (7915, 7914); (7917, 7916); (7919, 7918); (7921, 7920);
    (7923, 7922); (7925, 7924); (7927, 7926); (7929, 7928); (7931, 7930);
    (7933, 7932); (7935, 7934); (7936, 7944); (7937, 7945); (7938, 7946);
    (7939, 7947); (7940, 7948); (7941, 7949); (7942, 7950); (7943, 7951);
    (7952, 7960); (7953, 7961); (7954, 7962); (7955, 7963); (7956, 7964);
    (7957, 7965); (7968, 7976); (7969, 7977); (7970, 7978); (7971, 7979);
    (7972, 7980); (7973, 7981); (7974, 7982); (7975, 7983); (7984, 7992);
    (7985, 7993); (7986, 7994); (7987, 7995); (7988, 7996); (7989, 7997);
    (7990, 7998); (7991, 7999); (8000, 8008); (8001, 8009); (8002, 8010);
    (8003, 8011); (8004, 8012); (8005, 8013); (8017, 8025); (8019, 8027);
    (8021, 8029); (8023, 8031); (8032, 8040); (8033, 8041); (8034, 8042);
    (8035, 8043); (8036, 8044); (8037, 8045); (8038, 8046); (8039, 8047);
    (8048, 8122); (8049, 8123); (8050, 8136); (8051, 8137); (8052, 8138);
    (8053, 8139); (8054, 8154); (8055, 8155); (8056, 8184); (8057, 8185);
    (8058, 8170); (8059, 8171); (8060, 8186); (8061, 8187); (8112, 8120);
    (8113, 8121); (8126, 921); (8144, 8152); (8145, 8153); (8160, 8168);
    (8161, 8169); (8165, 8172); (8526, 8498); (8560, 8544); (8561, 8545);
    (8562, 8546); (8563, 8547); (8564, 8548); (8565, 8549); (8566, 8550);
    (8567, 8551); (8568, 8552); (8569, 8553); (8570, 8554); (8571, 8555);
    (8572, 8556); (8573, 8557); (8574, 8558); (8575, 8559); (8580, 8579);
    (9424, 9398); (9425, 9399); (9426, 9400); (9427, 9401); (9428, 9402);
    (9429, 9403); (9430, 9404); (9431, 9405); (9432, 9406); (9433, 9407);
    (9434, 9408); (9435, 9409); (9436, 9410); (9437, 9411); (9438, 9412);
    (9439, 9413); (9440, 9414); (9441, 9415); (9442, 9416); (9443, 9417);
    (9444, 9418); (9445, 9419); (9446, 9420); (9447, 9421); (9448, 9422);
    (9449, 9423); (11312, 11264); (11313, 11265); (11314, 11266);
    (11315, 11267); (11316, 11268); (11317, 11269); (11318, 11270);
    (11319, 11271); (11320, 11272); (11321, 11273); (11322, 11274);
    (11323, 11275); (11324, 11276); (11325, 11277); (11326, 11278);
    (11327, 11279); (11328, 11280); (11329, 11281); (11330, 11282);
    (11331, 11283); (11332, 11284); (11333, 11285); (11334, 11286);
    (11335, 11287); (11336, 11288); (11337, 11289); (11338, 11290);
    (11339, 11291); (11340, 11292); (11341, 11293); (11342, 11294);
    (11343, 11295); (11344, 11296); (11345, 11297); (11346, 11298);
    (11347, 11299); (11348, 11300); (11349, 11301); (11350, 11302);
    (11351, 11303); (11352, 11304); (11353, 11305); (11354, 11306);
    (11355, 11307); (11356, 11308); (11357, 11309); (11358, 11310);
    (11359, 11311); (11361, 11360); (11365, 570); (11366, 574);
    (11368, 11367); (11370, 11369); (11372, 11371); (11379, 11378);
    (11382, 11381); (11393, 11392); (11395, 11394); (11397, 11396);
    (11399, 11398); (11401, 11400); (11403, 11402); (11405, 11404);
    (11407, 11406); (11409, 11408); (11411, 11410); (11413, 11412);
    (11415, 11414); (11417, 11416); (11419, 11418); (11421, 11420);
    (11423, 11422); (11425, 11424); (11427, 11426); (11429, 11428);
    (11431, 11430); (11433, 11432); (11435, 11434); (11437, 11436);
    (11439, 11438); (11441, 11440); (11443, 11442); (11445, 11444);
    (11447, 11446); (11449, 11448); (11451, 11450); (11453, 11452);
    (11455, 11454); (11457, 11456); (11459, 11458); (11461, 11460);
    (11463, 11462); (11465, 11464); (11467, 11466); (11469, 11468);
    (11471, 11470); (11473, 11472); (11475, 11474); (11477, 11476);
    (11479, 11478); (11481, 11480); (11483, 11482); (11485, 11484);
    (11487, 11486); (11489, 11488); (11491, 11490); (11500, 11499);
    (11502, 11501); (11507, 11506); (11520, 4256); (11521, 4257);
    (11522, 4258); (11523, 4259); (11524, 4260); (11525, 4261);
    (11526, 4262); (11527, 4263); (11528, 4264); (11529, 4265);
    (11530, 4266); (11531, 4267); (11532, 4268); (11533, 4269);
    (11534, 4270); (11535, 4271); (11536, 4272); (11537, 4273);
    (11538, 4274); (11539, 4275); (11540, 4276); (11541, 4277);
    (11542, 4278); (11543, 4279); (11544, 4280); (11545, 4281);
    (11546, 4282); (11547, 4283); (11548, 4284); (11549, 4285);
    (11550, 4286); (11551, 4287); (11552, 4288); (11553, 4289);
    (11554, 4290); (11555, 4291); (11556, 4292); (11557, 4293);
    (11559, 4295); (11565, 4301); (42561, 42560); (42563, 42562);
    (42565, 42564); (42567, 42566); (42569, 42568); (42571, 42570);
    (42573, 42572); (42575, 42574); (42577, 42576); (42579, 42578);
    (42581, 42580); (42583, 42582); (42585, 42584); (42587, 42586);
    (42589, 42588); (42591, 42590); (42593, 42592); (42595, 42594);
    (42597, 42596); (42599, 42598); (42601, 42600); (42603, 42602);
    (42605, 42604); (42625, 42624); (42627, 42626); (42629, 42628);
    (42631, 42630); (42633, 42632); (42635, 42634); (42637, 42636);
    (42639, 42638); (42641, 42640); (42643, 42642); (42645, 42644);
    (42647, 42646); (42649, 42648); (42651, 42650); (42787, 42786);
    (42789, 42788); (42791, 42790); (42793, 42792); (42795, 42794);
    (42797, 42796); (42799, 42798); (42803, 42802); (42805, 42804);
    (42807, 42806); (42809, 42808); (42811, 42810); (42813, 42812);
    (42815, 42814); (42817, 42816); (42819, 42818); (42821, 42820);
    (42823, 42822); (42825, 42824); (42827, 42826); (42829, 42828);
    (42831, 42830); (42833, 42832); (42835, 42834); (42837, 42836);
    (42839, 42838); (42841, 42840); (42843, 42842); (42845, 42844);
    (42847, 42846); (42849, 42848); (42851, 42850); (42853, 42852);
    (42855, 42854); (42857, 42856); (42859, 42858); (42861, 42860);
    (42863, 42862); (42874, 42873); (42876, 42875); (42879, 42878);
    (42881, 42880); (42883, 42882); (42885, 42884); (42887, 42886);
    (42892, 42891); (42897, 42896); (42899, 42898); (42900, 42948);
    (42903, 42902); (42905, 42904); (42907, 42906); (42909, 42908);
    (42911, 42910); (42913, 42912); (42915, 42914); (42917, 42916);
    (42919, 42918); (42921, 42920); (42933, 42932); (42935, 42934);
    (42937, 42936); (42939, 42938); (42941, 42940); (42943, 42942);
    (42945, 42944); (42947, 42946); (42952, 42951); (42954, 42953);
    (42961, 42960); (42967, 42966); (42969, 42968); (42998, 42997);
    (43859, 42931); (43888, 5024); (43889, 5025); (43890, 5026);
    (43891, 5027); (43892, 5028); (43893, 5029); (43894, 5030);
    (43895, 5031); (43896, 5032); (43897, 5033); (43898, 5034);
    (43899, 5035); (43900, 5036); (43901, 5037); (43902, 5038);
    (43903, 5039); (43904, 5040); (43905, 5041); (43906, 5042);
    (43907, 5043); (43908, 5044); (43909, 5045); (43910, 5046);
    (43911, 5047); (43912, 5048); (43913, 5049); (43914, 5050);
    (43915, 5051); (43916, 5052); (43917, 5053); (43918, 5054);
    (43919, 5055); (43920, 5056); (43921, 5057); (43922, 5058);
    (43923, 5059); (43924, 5060); (43925, 5061); (43926, 5062);
    (43927, 5063); (43928, 5064); (43929, 5065); (43930, 5066);
    (43931, 5067); (43932, 5068); (43933, 5069); (43934, 5070);
    (43935, 5071); (43936, 5072); (43937, 5073); (43938, 5074);
    (43939, 5075); (43940, 5076); (43941, 5077); (43942, 5078);
    (43943, 5079); (43944, 5080); (43945, 5081); (43946, 5082);
    (43947, 5083); (43948, 5084); (43949, 5085); (43950, 5086);
    (43951, 5087); (43952, 5088); (43953, 5089); (43954, 5090);
    (43955, 5091); (43956, 5092); (43957, 5093); (43958, 5094);
    (43959, 5095); (43960, 5096); (43961, 5097); (43962, 5098);
    (43963, 5099); (43964, 5100); (43965, 5101); (43966, 5102);
    (43967, 5103); (65345, 65313); (65346, 65314); (65347, 65315);
    (65348, 65316); (65349, 65317); (65350, 65318); (65351, 65319);
    (65352, 65320); (65353, 65321); (65354, 65322); (65355, 65323);
    (65356, 65324); (65357, 65325); (65358, 65326); (65359, 65327);
    (65360, 65328); (65361, 65329); (65362, 65330); (65363, 65331);
    (65364, 65332); (65365, 65333); (65366, 65334); (65367, 65335);
    (65368, 65336); (65369, 65337); (65370, 65338); (66600, 66560);
    (66601, 66561); (66602, 66562); (66603, 66563); (66604, 66564);
    (66605, 66565); (66606, 66566); (66607, 66567); (66608, 66568);
    (66609, 66569); (66610, 66570); (66611, 66571); (66612, 66572);
    (66613, 66573); (66614, 66574); (66615, 66575); (66616, 66576);
    (66617, 66577); (66618, 66578); (66619, 66579); (66620, 66580);
    (66621, 66581); (66622, 66582); (66623, 66583); (66624, 66584);
    (66625, 66585); (66626, 66586); (66627, 66587); (66628, 66588);
    (66629, 66589); (66630, 66590); (66631, 66591); (66632, 66592);
    (66633, 66593); (66634, 66594); (66635, 66595); (66636, 66596);
    (66637, 66597); (66638, 66598); (66639, 66599); (66776, 66736);
    (66777, 66737); (66778, 66738); (66779, 66739); (66780, 66740);
    (66781, 66741); (66782, 66742); (66783, 66743); (66784, 66744);
    (66785, 66745); (66786, 66746); (66787, 66747); (66788, 66748);
    (66789, 66749); (66790, 66750); (66791, 66751); (66792, 66752);
    (66793, 66753); (66794, 66754); (66795, 66755); (66796, 66756);
    (66797, 66757); (66798, 66758); (66799, 66759); (66800, 66760);
    (66801, 66761); (66802, 66762); (66803, 66763); (66804, 66764);
    (66805, 66765); (66806, 66766); (66807, 66767); (66808, 66768);
    (66809, 66769); (66810, 66770); (66811, 66771); (66967, 66928);
    (66968, 66929); (66969, 66930); (66970, 66931); (66971, 66932);
    (66972, 66933); (66973, 66934); (66974, 66935); (66975, 66936);
    (66976, 66937); (66977, 66938); (66979, 66940); (66980, 66941);
    (66981, 66942); (66982, 66943); (66983, 66944); (66984, 66945);
    (66985, 66946); (66986, 66947); (66987, 66948); (66988, 66949);
    (66989, 66950); (66990, 66951); (66991, 66952); (66992, 66953);
    (66993, 66954); (66995, 66956); (66996, 66957); (66997, 66958);
    (66998, 66959); (66999, 66960); (67000, 66961); (67001, 66962);
    (67003, 66964); (67004, 66965); (68800, 68736); (68801, 68737);
    (68802, 68738); (68803, 68739); (68804, 68740); (68805, 68741);
    (68806, 68742); (68807, 68743); (68808, 68744); (68809, 68745);
    (68810, 68746); (68811, 68747); (68812, 68748); (68813, 68749);
    (68814, 68750); (68815, 68751); (68816, 68752); (68817, 68753);
    (68818, 68754); (68819, 68755); (68820, 68756); (68821, 68757);
    (68822, 68758); (68823, 68759); (68824, 68760); (68825, 68761);
    (68826, 68762); (68827, 68763); (68828, 68764); (68829, 68765);
    (68830, 68766); (68831, 68767); (68832, 68768); (68833, 68769);
    (68834, 68770); (68835, 68771); (68836, 68772); (68837, 68773);
    (68838, 68774); (68839, 68775); (68840, 68776); (68841, 68777);
    (68842, 68778); (68843, 68779); (68844, 68780); (68845, 68781);
    (68846, 68782); (68847, 68783); (68848, 68784); (68849, 68785);
    (68850, 68786); (71872, 71840); (71873, 71841); (71874, 71842);
    (71875, 71843); (71876, 71844); (71877, 71845); (71878, 71846);
    (71879, 71847); (71880, 71848); (71881, 71849); (71882, 71850);
    (71883, 71851); (71884, 71852); (71885, 71853); (71886, 71854);
    (71887, 71855); (71888, 71856); (71889, 71857); (71890, 71858);
    (71891, 71859); (71892, 71860); (71893, 71861); (71894, 71862);
    (71895, 71863); (71896, 71864); (71897, 71865); (71898, 71866);
    (71899, 71867); (71900, 71868); (71901, 71869); (71902, 71870);
    (71903, 71871); (93792, 93760); (93793, 93761); (93794, 93762);
    (93795, 93763); (93796, 93764); (93797, 93765); (93798, 93766);
    (93799, 93767); (93800, 93768); (93801, 93769); (93802, 93770);
    (93803, 93771); (93804, 93772); (93805, 93773); (93806, 93774);
    (93807, 93775); (93808, 93776); (93809, 93777); (93810, 93778);
    (93811, 93779); (93812, 93780); (93813, 93781); (93814, 93782);
    (93815, 93783); (93816, 93784); (93817, 93785); (93818, 93786);
    (93819, 93787); (93820, 93788); (93821, 93789); (93822, 93790);
    (93823, 93791); (125218, 125184); (125219, 125185); (125220, 125186);
    (125221, 125187); (125222, 125188); (125223, 125189); (125224, 125190);
    (125225, 125191); (125226, 125192); (125227, 125193); (125228, 125194);
    (125229, 125195); (125230, 125196); (125231, 125197); (125232, 125198);
    (125233, 125199); (125234, 125200); (125235, 125201); (125236, 125202);
    (125237, 125203); (125238, 125204); (125239, 125205); (125240, 125206);
    (125241, 125207); (125242, 125208); (125243, 125209); (125244, 125210);
    (125245, 125211); (125246, 125212); (125247, 125213); (125248, 125214);
    (125249, 125215); (125250, 125216); (125251, 125217)
  ].

(** Upper-case mappings to more than one code point (SpecialCasing.txt,
    unconditional mappings). *)
Definition upperSpecial : list (N * list N) :=
  [
    (223, [83; 83]); (329, [700; 78]); (496, [74; 780]);
    (912, [921; 776; 769]); (944, [933; 776; 769]); (1415, [1333; 1362]);
    (7830, [72; 817]); (7831, [84; 776]); (7832, [87; 778]);
    (7833, [89; 778]); (7834, [65; 702]); (8016, [933; 787]);
    (8018, [933; 787; 768]); (8020, [933; 787; 769]);
    (8022, [933; 787; 834]); (8064, [7944; 921]); (8065, [7945; 921]);
    (8066, [7946; 921]); (8067, [7947; 921]); (8068, [7948; 921]);
    (8069, [7949; 921]); (8070, [7950; 921]); (8071, [7951; 921]);
    (8072, [7944; 921]); (8073, [7945; 921]); (8074, [7946; 921]);
    (8075, [7947; 921]); (8076, [7948; 921]); (8077, [7949; 921]);
    (8078, [7950; 921]); (8079, [7951; 921]); (8080, [7976; 921]);
    (8081, [7977; 921]); (8082, [7978; 921]); (8083, [7979; 921]);
    (8084, [7980; 921]); (8085, [7981; 921]); (8086, [7982; 921]);
    (8087, [7983; 921]); (8088, [7976; 921]); (8089, [7977; 921]);
    (8090, [7978; 921]); (8091, [7979; 921]); (8092, [7980; 921]);
    (8093, [7981; 921]); (8094, [7982; 921]); (8095, [7983; 921]);
    (8096, [8040; 921]); (8097, [8041; 921]); (8098, [8042; 921]);
    (8099, [8043; 921]); (8100, [8044; 921]); (8101, [8045; 921]);
    (8102, [8046; 921]); (8103, [8047; 921]); (8104, [8040; 921]);
    (8105, [8041; 921]); (8106, [8042; 921]); (8107, [8043; 921]);
    (8108, [8044; 921]); (8109, [8045; 921]); (8110, [8046; 921]);
    (8111, [8047; 921]); (8114, [8122; 921]); (8115, [913; 921]);
    (8116, [902; 921]); (8118, [913; 834]); (8119, [913; 834; 921]);
    (8124, [913; 921]); (8130, [8138; 921]); (8131, [919; 921]);
    (8132, [905; 921]); (8134, [919; 834]); (8135, [919; 834; 921]);
    (8140, [919; 921]); (8146, [921; 776; 768]); (8147, [921; 776; 769]);
    (8150, [921; 834]); (8151, [921; 776; 834]); (8162, [933; 776; 768]);
    (8163, [933; 776; 769]); (8164, [929; 787]); (8166, [933; 834]);
    (8167, [933; 776; 834]); (8178, [8186; 921]); (8179, [937; 921]);
    (8180, [911; 921]); (8182, [937; 834]); (8183, [937; 834; 921]);
    (8188, [937; 921]); (64256, [70; 70]); (64257, [70; 73]);
    (64258, [70; 76]); (64259, [70; 70; 73]); (64260, [70; 70; 76]);
    (64261, [83; 84]); (64262, [83; 84]); (64275, [1348; 1350]);
    (64276, [1348; 1333]); (64277, [1348; 1339]); (64278, [1358; 1350]);
    (64279, [1348; 1341])
  ].

(** Case_Ignorable code points, as closed ranges. *)
Definition ignorableRanges : list (N * N) :=
  [
    (39, 39); (46, 46); (58, 58); (94, 94); (96, 96); (168, 168);
    (173, 173); (175, 175); (180, 180); (183, 184); (688, 879); (884, 885);
    (890, 890); (900, 901); (903, 903); (1155, 1161); (1369, 1369);
    (1375, 1375); (1425, 1469); (1471, 1471); (1473, 1474); (1476, 1477);
    (1479, 1479); (1524, 1524); (1536, 1541); (1552, 1562); (1564, 1564);
    (1600, 1600); (1611, 1631); (1648, 1648); (1750, 1757); (1759, 1768);
    (1770, 1773); (1807, 1807); (1809, 1809); (1840, 1866); (1958, 1968);
    (2027, 2037); (2042, 2042); (2045, 2045); (2070, 2093); (2137, 2139);
    (2184, 2184); (2192, 2193); (2200, 2207); (2249, 2306); (2362, 2362);
    (2364, 2364); (2369, 2376); (2381, 2381); (2385, 2391); (2402, 2403);
    (2417, 2417); (2433, 2433); (2492, 2492); (2497, 2500); (2509, 2509);
    (2530, 2531); (2558, 2558); (2561, 2562); (2620, 2620); (2625, 2626);
    (2631, 2632); (2635, 2637); (2641, 2641); (2672, 2673); (2677, 2677);
    (2689, 2690); (2748, 2748); (2753, 2757); (2759, 2760); (2765, 2765);
    (2786, 2787); (2810, 2815); (2817, 2817); (2876, 2876); (2879, 2879);
    (2881, 2884); (2893, 2893); (2901, 2902); (2914, 2915); (2946, 2946);
    (3008, 3008); (3021, 3021); (3072, 3072); (3076, 3076); (3132, 3132);
    (3134, 3136); (3142, 3144); (3146, 3149); (3157, 3158); (3170, 3171);
    (3201, 3201); (3260, 3260); (3263, 3263); (3270, 3270); (3276, 3277);
    (3298, 3299); (3328, 3329); (3387, 3388); (3393, 3396); (3405, 3405);
    (3426, 3427); (3457, 3457); (3530, 3530); (3538, 3540); (3542, 3542);
    (3633, 3633); (3636, 3642); (3654, 3662); (3761, 3761); (3764, 3772);
    (3782, 3782); (3784, 3789); (3864, 3865); (3893, 3893); (3895, 3895);
    (3897, 3897); (3953, 3966); (3968, 3972); (3974, 3975); (3981, 3991);
    (3993, 4028); (4038, 4038); (4141, 4144); (4146, 4151); (4153, 4154);
    (4157, 4158); (4184, 4185); (4190, 4192); (4209, 4212); (4226, 4226);
    (4229, 4230); (4237, 4237); (4253, 4253); (4348, 4348); (4957, 4959);
    (5906, 5908); (5938, 5939); (5970, 5971); (6002, 6003); (6068, 6069);
    (6071, 6077); (6086, 6086); (6089, 6099); (6103, 6103); (6109, 6109);
    (6155, 6159); (6211, 6211); (6277, 6278); (6313, 6313); (6432, 6434);
    (6439, 6440); (6450, 6450); (6457, 6459); (6679, 6680); (6683, 6683);
    (6742, 6742); (6744, 6750); (6752, 6752); (6754, 6754); (6757, 6764);
    (6771, 6780); (6783, 6783); (6823, 6823); (6832, 6862); (6912, 6915);
    (6964, 6964); (6966, 6970); (6972, 6972); (6978, 6978); (7019, 7027);
    (7040, 7041); (7074, 7077); (7080, 7081); (7083, 7085); (7142, 7142);
    (7144, 7145); (7149, 7149); (7151, 7153); (7212, 7219); (7222, 7223);
    (7288, 7293); (7376, 7378); (7380, 7392); (7394, 7400); (7405, 7405);
    (7412, 7412); (7416, 7417); (7468, 7530); (7544, 7544); (7579, 7679);
    (8125, 8125); (8127, 8129); (8141, 8143); (8157, 8159); (8173, 8175);
    (8189, 8190); (8203, 8207); (8216, 8217); (8228, 8228); (8231, 8231);
    (8234, 8238); (8288, 8292); (8294, 8303); (8305, 8305); (8319, 8319);
    (8336, 8348); (8400, 8432); (11388, 11389); (11503, 11505);
    (11631, 11631); (11647, 11647); (11744, 11775); (11823, 11823);
    (12293, 12293); (12330, 12333); (12337, 12341); (12347, 12347);
    (12441, 12446); (12540, 12542); (40981, 40981); (42232, 42237);
    (42508, 42508); (42607, 42610); (42612, 42621); (42623, 42623);
    (42652, 42655); (42736, 42737); (42752, 42785); (42864, 42864);
    (42888, 42890); (42994, 42996); (43000, 43001); (43010, 43010);
    (43014, 43014); (43019, 43019); (43045, 43046); (43052, 43052);
    (43204, 43205); (43232, 43249); (43263, 43263); (43302, 43309);
    (43335, 43345); (43392, 43394); (43443, 43443); (43446, 43449);
    (43452, 43453); (43471, 43471); (43493, 43494); (43561, 43566);
    (43569, 43570); (43573, 43574); (43587, 43587); (43596, 43596);
    (43632, 43632); (43644, 43644); (43696, 43696); (43698, 43700);
    (43703, 43704); (43710, 43711); (43713, 43713); (43741, 43741);
    (43756, 43757); (43763, 43764); (43766, 43766); (43867, 43871);
    (43881, 43883); (44005, 44005); (44008, 44008); (44013, 44013);
    (64286, 64286); (64434, 64450); (65024, 65039); (65043, 65043);
    (65056, 65071); (65106, 65106); (65109, 65109); (65279, 65279);
    (65287, 65287); (65294, 65294); (65306, 65306); (65342, 65342);
    (65344, 65344); (65392, 65392); (65438, 65439); (65507, 65507);
    (65529, 65531); (66045, 66045); (66272, 66272); (66422, 66426);
    (67456, 67461); (67463, 67504); (67506, 67514); (68097, 68099);
    (68101, 68102); (68108, 68111); (68152, 68154); (68159, 68159);
    (68325, 68326); (68900, 68903); (69291, 69292); (69446, 69456);
    (69506, 69509); (69633, 69633); (69688, 69702); (69744, 69744);
    (69747, 69748); (69759, 69761); (69811, 69814); (69817, 69818);
    (69821, 69821); (69826, 69826); (69837, 69837); (69888, 69890);
    (69927, 69931); (69933, 69940); (70003, 70003); (70016, 70017);
    (70070, 70078); (70089, 70092); (70095, 70095); (70191, 70193);
    (70196, 70196); (70198, 70199); (70206, 70206); (70367, 70367);
    (70371, 70378); (70400, 70401); (70459, 70460); (70464, 70464);
    (70502, 70508); (70512, 70516); (70712, 70719); (70722, 70724);
    (70726, 70726); (70750, 70750); (70835, 70840); (70842, 70842);
    (70847, 70848); (70850, 70851); (71090, 71093); (71100, 71101);
    (71103, 71104); (71132, 71133); (71219, 71226); (71229, 71229);
    (71231, 71232); (71339, 71339); (71341, 71341); (71344, 71349);
    (71351, 71351); (71453, 71455); (71458, 71461); (71463, 71467);
    (71727, 71735); (71737, 71738); (71995, 71996); (71998, 71998);
    (72003, 72003); (72148, 72151); (72154, 72155); (72160, 72160);
    (72193, 72202); (72243, 72248); (72251, 72254); (72263, 72263);
    (72273, 72278); (72281, 72283); (72330, 72342); (72344, 72345);
    (72752, 72758); (72760, 72765); (72767, 72767); (72850, 72871);
    (72874, 72880); (72882, 72883); (72885, 72886); (73009, 73014);
    (73018, 73018); (73020, 73021); (73023, 73029); (73031, 73031);
    (73104, 73105); (73109, 73109); (73111, 73111); (73459, 73460);
    (78896, 78904); (92912, 92916); (92976, 92982); (92992, 92995);
    (94031, 94031); (94095, 94111); (94176, 94177); (94179, 94180);
    (110576, 110579); (110581, 110587); (110589, 110590); (113821, 113822);
    (113824, 113827); (118528, 118573); (118576, 118598); (119143, 119145);
    (119155, 119170); (119173, 119179); (119210, 119213); (119362, 119364);
    (121344, 121398); (121403, 121452); (121461, 121461); (121476, 121476);
    (121499, 121503); (121505, 121519); (122880, 122886); (122888, 122904);
    (122907, 122913); (122915, 122916); (122918, 122922); (123184, 123197);
    (123566, 123566); (123628, 123631); (125136, 125142); (125252, 125259);
    (127995, 127999); (917505, 917505); (917536, 917631); (917760, 917999)
  ].

(** Cased code points that are not Case_Ignorable, as closed ranges. *)
Definition casedRanges : list (N * N) :=
  [
    (65, 90); (97, 122); (170, 170); (181, 181); (186, 186); (192, 214);
    (216, 246); (248, 442); (444, 447); (452, 659); (661, 687); (880, 883);
    (886, 887); (891, 893); (895, 895); (902, 902); (904, 906); (908, 908);
    (910, 929); (931, 1013); (1015, 1153); (1162, 1327); (1329, 1366);
    (1376, 1416); (4256, 4293); (4295, 4295); (4301, 4301); (4304, 4346);
    (4349, 4351); (5024, 5109); (5112, 5117); (7296, 7304); (7312, 7354);
    (7357, 7359); (7424, 7467); (7531, 7543); (7545, 7578); (7680, 7957);
    (7960, 7965); (7968, 8005); (8008, 8013); (8016, 8023); (8025, 8025);
    (8027, 8027); (8029, 8029); (8031, 8061); (8064, 8116); (8118, 8124);
    (8126, 8126); (8130, 8132); (8134, 8140); (8144, 8147); (8150, 8155);
    (8160, 8172); (8178, 8180); (8182, 8188); (8450, 8450); (8455, 8455);
    (8458, 8467); (8469, 8469); (8473, 8477); (8484, 8484); (8486, 8486);
    (8488, 8488); (8490, 8493); (8495, 8500); (8505, 8505); (8508, 8511);
    (8517, 8521); (8526, 8526); (8544, 8575); (8579, 8580); (9398, 9449);
    (11264, 11387); (11390, 11492); (11499, 11502); (11506, 11507);
    (11520, 11557); (11559, 11559); (11565, 11565); (42560, 42605);
    (42624, 42651); (42786, 42863); (42865, 42887); (42891, 42894);
    (42896, 42954); (42960, 42961); (42963, 42963); (42965, 42969);
    (42997, 42998); (43002, 43002); (43824, 43866); (43872, 43880);
    (43888, 43967); (64256, 64262); (64275, 64279); (65313, 65338);
    (65345, 65370); (66560, 66639); (66736, 66771); (66776, 66811);
    (66928, 66938); (66940, 66954); (66956, 66962); (66964, 66965);
    (66967, 66977); (66979, 66993); (66995, 67001); (67003, 67004);
    (68736, 68786); (68800, 68850); (71840, 71903); (93760, 93823);
    (119808, 119892); (119894, 119964); (119966, 119967); (119970, 119970);
    (119973, 119974); (119977, 119980); (119982, 119993); (119995, 119995);
    (119997, 120003); (120005, 120069); (120071, 120074); (120077, 120084);
    (120086, 120092); (120094, 120121); (120123, 120126); (120128, 120132);
    (120134, 120134); (120138, 120144); (120146, 120485); (120488, 120512);
    (120514, 120538); (120540, 120570); (120572, 120596); (120598, 120628);
    (120630, 120654); (120656, 120686); (120688, 120712); (120714, 120744);
    (120746, 120770); (120772, 120779); (122624, 122633); (122635, 122654);
    (125184, 125251); (127280, 127305); (127312, 127337); (127344, 127369)
  ].

(** The lower-case mapping of a code point out of context; U+0130 is the
    one code point whose lower case has two. *)
Definition lowerCp (c : N) : list N :=
  if c <? 128 then [lowerChar c]
  else if c =? 304 then [105; 775]
  else match assoc c lowerPairs with Some x => [x] | None => [c] end.

Definition upperCp (c : N) : list N :=
  if c <? 128 then [upperChar c]
  else match assoc c upperSpecial with
       | Some l => l
       | None => match assoc c upperPairs with Some x => [x] | None => [c] end
       end.

Definition isCaseIgnorable (c : N) : bool := inRanges c ignorableRanges.
Definition isCasedLetter (c : N) : bool := inRanges c casedRanges.

Definition capitalSigma : N := 931.
Definition smallSigma : N := 963.
Definition finalSigma : N := 962.

(** The second half of Final_Sigma: a cased letter follows, case-ignorable
    code points apart. *)
Fixpoint followedByCased (cps : list N) : bool :=
  match cps with
  | [] => false
  | c :: r => if isCaseIgnorable c then followedByCased r else isCasedLetter c
  end.

(** [afterCased]: a cased letter precedes, case-ignorable code points
    apart.  A capital sigma becomes the final sigma when it closes a word,
    the small sigma otherwise. *)
Fixpoint lowerFrom (afterCased : bool) (cps : list N) : list N :=
  match cps with
  | [] => []
  | c :: r =>
      (if c =? capitalSigma
       then [if afterCased && negb (followedByCased r)
             then finalSigma else smallSigma]
       else lowerCp c)
      ++ lowerFrom (if isCaseIgnorable c then afterCased else isCasedLetter c) r
  end.

Definition toLowerCase (s : str) : str :=
  fromCodePoints (lowerFrom false (codePoints s)).
Definition toUpperCase (s : str) : str :=
  fromCodePoints (codePoints s ≫= upperCp).

(** Truthiness of a string: non-empty. *)
Definition truthy (s : str) : bool :=
  match s with [] => false | _ :: _ => true end.

Fixpoint trimStart (s : str) : str :=
  match s with
  | [] => []
  | c :: s' => if isSpace c then trimStart s' else s
  end.

Fixpoint trimEnd (s : str) : str :=
  match s with
  | [] => []
  | c :: s' =>
      match trimEnd s' with
      | [] => if isSpace c then [] else [c]
      | t => c :: t
      end
  end.

Definition trim (s : str) : str := trimStart (trimEnd s).

(** [s.replace(/\s+/g, ' ')]: every maximal run of whitespace becomes one
    space.  [inRun] records that the previous code unit was whitespace. *)
Fixpoint collapseFrom (inRun : bool) (s : str) : str :=
  match s with
  | [] => []
  | c :: s' =>
      if isSpace c
      then (if inRun then collapseFrom true s' else space :: collapseFrom true s')
      else c :: collapseFrom false s'
  end.
Definition collapseSpaces (s : str) : str := collapseFrom false s.

(** [s.replace(/[–—]/g, '-')]. *)
Definition dashChar (c : N) : N :=
  if (c =? enDash) || (c =? emDash) then hyphen else c.
Definition dashesToHyphen (s : str) : str := map dashChar s.

(** [s.replace(/–/g, '-')]. *)
Definition enDashToHyphen (s : str) : str :=
  map (fun c => if c =? enDash then hyphen else c) s.

(** The four code units matched by [/cusp/i] at the head of [s]. *)
Definition cuspAt (s : str) : option str :=
  match s with
  | c :: u :: s1 :: p :: rest =>
      if (lowerChar c =? 99) && (lowerChar u =? 117)
         && (lowerChar s1 =? 115) && (lowerChar p =? 112)
      then Some rest else None
  | _ => None
  end.

(** [/\s*cusp\s*$/i] matches the whole of [s]. *)
Definition cuspTail (s : str) : bool :=
  match cuspAt (trimStart s) with
  | Some rest => forallb isSpace rest
  | None => false
  end.

(** [s.replace(/\s*cusp\s*$/i, '')]: the leftmost position from which the
    pattern matches up to the end of the string is cut off. *)
Fixpoint stripCusp (s : str) : str :=
  if cuspTail s then []
  else match s with
       | [] => []
       | c :: s' => c :: stripCusp s'
       end.

(** [/\bcusp\b/i.test(s)].  [prev] tells whether the code unit before the
    current position is a word character. *)
Fixpoint cuspWordFrom (prev : bool) (s : str) : bool :=
  (negb prev &&
   match cuspAt s with
   | Some [] => true
   | Some (c :: _) => negb (isWord c)
   | None => false
   end)
  || match s with
     | [] => false
     | c :: s' => cuspWordFrom (isWord c) s'
     end.
Definition hasCuspWord (s : str) : bool := cuspWordFrom false s.

(** [s.split(sep)] for a one-unit separator. *)
Fixpoint split (sep : N) (s : str) : list str :=
  match s with
  | [] => [[]]
  | c :: s' =>
      if c =? sep then [] :: split sep s'
      else match split sep s' with
           | [] => [[c]]
           | w :: ws => (c :: w) :: ws
           end
  end.

(** [parts.join(sep)]. *)
Fixpoint join (sep : str) (parts : list str) : str :=
  match parts with
  | [] => []
  | [p] => p
  | p :: ps => p ++ sep ++ join sep ps
  end.

(** [[...new Set(l)]]: duplicates removed, first occurrence kept. *)
Fixpoint uniq (l : list str) : list str :=
  match l with
  | [] => []
  | x :: l' => x :: filter (fun y => y ≠ x) (uniq l')
  end.

(** [l.filter(Boolean)] on strings. *)
Definition filterTruthy (l : list str) : list str :=
  filter (fun s => truthy s = true) l.

(** [a || ''] for a possibly missing string. *)
Definition orEmpty (o : option str) : str :=
  match o with Some s => s | None => [] end.

(** Truthiness of a possibly missing string. *)
Definition present (o : option str) : bool :=
  match o with Some s => truthy s | None => false end.

End JS.
Import JS.

(** ** String helpers of the module *)

Definition toTitleCaseWord (w : str) : str :=
  match w with
  | [] => []
  | c :: w' => toUpperCase [c] ++ toLowerCase w'
  end.

Record NormalizedSign := {
  primaryWithCusp : option str;
  primaryNoCusp : str;
  parts : list str;
  isCusp : bool
}.

Definition normalizeSignForDaily (input : str) : NormalizedSign :=
  if truthy input then
    let s := trim (collapseSpaces (trim input)) in
    let isCusp := hasCuspWord s in
    let hyphenBase := dashesToHyphen s in
    let noCusp := trim (stripCusp hyphenBase) in
    let parts :=
      filterTruthy
        (map (fun part => join [space] (map toTitleCaseWord (split space (trim part))))
             (split hyphen noCusp)) in
    let baseEnDash := join [enDash] parts in
    {| primaryWithCusp := if isCusp then Some (baseEnDash ++ lit " Cusp") else None;
       primaryNoCusp := baseEnDash;
       parts := parts;
       isCusp := isCusp |}
  else
    {| primaryWithCusp := None; primaryNoCusp := []; parts := []; isCusp := false |}.

(** The normalisation applied to both sides by [rowMatchesSign]. *)
Definition norm (s : str) : str :=
  toLowerCase (stripCusp (dashesToHyphen (collapseSpaces (trim s)))).

Definition rowMatchesSign (dbSign attempt : option str) : bool :=
  if negb (present dbSign) || negb (present attempt) then false
  else bool_decide (norm (orEmpty dbSign) = norm (orEmpty attempt)).

(** ** Hemisphere helpers *)

Inductive Hemi := Northern | Southern.

Definition hemiName (h : Hemi) : str :=
  match h with Northern => lit "Northern" | Southern => lit "Southern" end.

Definition buildHemisphereVariants (hemi : Hemi) : list str :=
  uniq [ hemiName hemi;
         toUpperCase (hemiName hemi);
         toLowerCase (hemiName hemi);
         match hemi with Southern => lit "SH" | Northern => lit "NH" end ].

Definition hemiToDB (hemi : option str) : Hemi :=
  let v := toLowerCase (if present hemi then orEmpty hemi else lit "Southern") in
  if bool_decide (v = lit "northern") || bool_decide (v = lit "nh")
  then Northern else Southern.

(** Build sign attempts in strict cusp-first order. *)
Definition buildSignAttemptsForDaily (inputLabel : str) (allowTrueSignFallback : bool)
  : list str :=
  let n := normalizeSignForDaily inputLabel in
  let withCusp :=
    match primaryWithCusp n with
    | Some p => if truthy p then [p; enDashToHyphen p] else []
    | None => []
    end in
  let noCusp :=
    if truthy (primaryNoCusp n)
    then [primaryNoCusp n; enDashToHyphen (primaryNoCusp n)] else [] in
  let comps :=
    if negb (isCusp n) || allowTrueSignFallback
    then filterTruthy (parts n) else [] in
  filterTruthy (uniq (withCusp ++ noCusp ++ comps)).

(** ** Date helpers

    A [Date] is its time value, milliseconds since the epoch.  A time zone
    is the UTC offset (in milliseconds) it has at each instant; the calendar
    fields read through [Intl.DateTimeFormat], [getFullYear] and
    [getUTCFullYear] are those of the proleptic Gregorian calendar. *)

Local Open Scope Z_scope.

Definition msPerDay : Z := 24 * 60 * 60 * 1000.

Abbreviation TimeZone := (Z → Z).
Definition utc : TimeZone := fun _ => 0.

(** Year, month (1-12) and day of month of a day number (days since
    1970-01-01). *)
Definition civilFromDays (z0 : Z) : Z * Z * Z :=
  let z := z0 + 719468 in
  let era := z / 146097 in
  let doe := z - era * 146097 in
  let yoe := (doe - doe / 1460 + doe / 36524 - doe / 146096) / 365 in
  let doy := doe - (365 * yoe + yoe / 4 - yoe / 100) in
  let mp := (5 * doy + 2) / 153 in
  let d := doy - (153 * mp + 2) / 5 + 1 in
  let m := if mp <? 10 then mp + 3 else mp - 9 in
  let y := yoe + era * 400 in
  (if m <=? 2 then y + 1 else y, m, d).

Fixpoint digitsFrom (fuel : nat) (n : N) (acc : str) : str :=
  let acc' := (48 + n mod 10)%N :: acc in
  match fuel with
  | O => acc'
  | S f => if (n / 10 =? 0)%N then acc' else digitsFrom f (n / 10)%N acc'
  end.

(** [`${n}`] for an integer. *)
Definition decimal (n : Z) : str :=
  let a := Z.to_N (Z.abs n) in
  let ds := digitsFrom (N.to_nat (N.log2 a)) a [] in
  if n <? 0 then hyphen :: ds else ds.

Definition pad2 (n : Z) : str :=
  let s := decimal n in
  match s with
  | [_] => 48%N :: s
  | [] => [48%N; 48%N]
  | _ => s
  end.

(** [YYYY-MM-DD] of the calendar day that contains local time [t]. *)
Definition ymdOfLocal (t : Z) : str :=
  let '(y, m, d) := civilFromDays (t / msPerDay) in
  decimal y ++ [hyphen] ++ pad2 m ++ [hyphen] ++ pad2 d.

Definition ymdInTZ (d : Z) (timeZone : TimeZone) : str :=
  ymdOfLocal (d + timeZone d).

(** The clock and time-zone environment of a call. *)
Record Clock := {
  now : Z;                          (* [new Date()] *)
  intlTimeZone : option TimeZone;   (* resolved zone; [None]: unknown or throwing *)
  deviceTimeZone : TimeZone         (* zone behind [getFullYear()] and the like *)
}.

Definition getUserTimeZone (clk : Clock) : TimeZone :=
  match intlTimeZone clk with Some tz => tz | None => utc end.

Definition anchorLocal (clk : Clock) (d : Z) : str :=
  ymdOfLocal (d + deviceTimeZone clk d).
Definition anchorUTC (d : Z) : str := ymdOfLocal d.

Definition anchorCandidates (clk : Clock) (d : Z) : list str :=
  let userTZ := getUserTimeZone clk in
  let todayUser := ymdInTZ d userTZ in
  let yesterdayUser := ymdInTZ (d - 24 * 60 * 60 * 1000) userTZ in
  let tomorrowUser := ymdInTZ (d + 24 * 60 * 60 * 1000) userTZ in
  let todayUTC := anchorUTC d in
  let todayLocal := anchorLocal clk d in
  [todayUser; todayUTC; todayLocal; yesterdayUser; tomorrowUser].

Definition buildDailyAnchors (clk : Clock) (d : Z) : list str :=
  filterTruthy (uniq (anchorCandidates clk d)).

(** The two decimal digits of a number below 100. *)
Definition twoDigits (a : Z) : str :=
  [(48 + Z.to_N (a / 10))%N; (48 + Z.to_N (a mod 10))%N].

(** ** Rows, the remote store and the cache

    A row is the object the store returns or the cache holds: every field
    may be missing ([null] or [undefined]). *)

Record DailyRow := {
  sign : option str;
  hemisphere : option str;
  date : option str;
  daily_horoscope : option str;
  affirmation : option str;
  deeper_insight : option str;
  source_table : option str
}.

Definition sourceTag : option str := Some (lit "horoscope_cache").

(** The object literal built from a row [r] at every place a row leaves
    the remote stages: content fields go through [|| '']. *)
Definition cleanRow (r : DailyRow) : DailyRow :=
  {| sign := sign r;
     hemisphere := hemisphere r;
     date := date r;
     daily_horoscope := Some (orEmpty (daily_horoscope r));
     affirmation := Some (orEmpty (affirmation r));
     deeper_insight := Some (orEmpty (deeper_insight r));
     source_table := sourceTag |}.

(** The [{ data, error }] answer of a query. *)
Record Response := {
  data : option (list DailyRow);
  error : option str
}.

Inductive Query :=
| QByDate (start endIso : str) (hemiVariants : list str)
| QProbe (hemiVariants : list str)
| QLatest (hemiVariants : list str).

(** One remote call, with whether its answer carried an error. *)
Record RemoteCall := { query : Query; failed : bool }.

(** A value of [localStorage]: text that does not parse to an object
    ([JSON.parse] throws, or yields a non-object), or a parsed object. *)
Inductive Stored := Corrupt | Entry (r : DailyRow).

Record LocalStorage := {
  items : gmap str Stored;
  writable : bool                  (* [false]: [setItem] throws *)
}.

(** The state a call runs in: [window.localStorage] ([None] when there is
    no window) and the remote calls issued so far, oldest first. *)
Record World := {
  storage : option LocalStorage;
  calls : list RemoteCall
}.

(** A computation returns a value or throws; either way it leaves a world. *)
Inductive Outcome (A : Type) := Returned (a : A) | Threw.
Arguments Returned {A} a.
Arguments Threw {A}.

Definition Eff (A : Type) : Type := World → Outcome A * World.

#[global] Instance eff_ret : MRet Eff := fun A a w => (Returned a, w).
#[global] Instance eff_bind : MBind Eff := fun A B f m w =>
  match m w with
  | (Returned a, w') => f a w'
  | (Threw, w') => (Threw, w')
  end.

Definition throw {A} : Eff A := fun w => (Threw, w).

(** ** Cache helpers *)

Definition cacheKeyDaily (userId : option str) (sign : str) (hemi : Hemi) (ymd : str)
  : str :=
  lit "daily:" ++ (match userId with Some u => u | None => lit "anon" end)
  ++ lit ":" ++ sign ++ lit ":" ++ hemiName hemi ++ lit ":" ++ ymd.

Definition getFromCache (key : str) (w : World) : option DailyRow :=
  match storage w with
  | None => None
  | Some ls =>
      match items ls !! key with
      | Some (Entry r) => Some r
      | _ => None
      end
  end.

Definition setInCache (key : str) (value : DailyRow) : Eff unit := fun w =>
  match storage w with
  | None => (Returned tt, w)
  | Some ls =>
      if writable ls
      then (Returned tt,
            {| storage := Some {| items := <[key := Entry value]> (items ls);
                                  writable := writable ls |};
               calls := calls w |})
      else (Returned tt, w)
  end.

Record Options := {
  userId : option str;
  forceDate : option str;
  useCache : option bool;
  debug : bool;
  allowTrueSignFallback : bool
}.

(** The same options with another [useCache]. *)
Definition withUseCache (u : option bool) (opts : Options) : Options :=
  {| userId := userId opts; forceDate := forceDate opts; useCache := u;
     debug := debug opts; allowTrueSignFallback := allowTrueSignFallback opts |}.

Section Engine.

(** The store behind the client, and the end of a day's range:
    [isoNextDay date] is [end.toISOString()] for the [Date] one UTC day
    after [`${date}T00:00:00.000Z`], [None] when that date is invalid and
    [toISOString] throws. *)
Variable remote : Query → Response.
Variable isoNextDay : str → option str.
Variable clk : Clock.

(** The record a query leaves in the list of remote calls. *)
Definition logged (q : Query) : RemoteCall :=
  {| query := q; failed := bool_decide (is_Some (error (remote q))) |}.

Definition ask (q : Query) : Eff Response := fun w =>
  (Returned (remote q),
   {| storage := storage w; calls := calls w ++ [logged q] |}).

(** ** DB fetchers *)

Definition fetchRowsForDate (date : str) (hemi : Hemi) (debug : bool)
  : Eff (list DailyRow * option str) :=
  let hemiVariants := buildHemisphereVariants hemi in
  let start := date ++ lit "T00:00:00.000Z" in
  match isoNextDay date with
  | None => throw
  | Some endIso =>
      resp ← ask (QByDate start endIso hemiVariants);
      match error resp with
      | Some e => mret ([], Some e)
      | None =>
          let rows := map cleanRow (default [] (data resp)) in
          match rows with
          | [] => if debug
                  then (_ ← ask (QProbe hemiVariants); mret (rows, None))
                  else mret (rows, None)
          | _ :: _ => mret (rows, None)
          end
      end
  end.

(** [for (const cand of attempts) { const hit = rows.find(...); if (hit) ... }]:
    the first attempt some row matches, with the first such row. *)
Fixpoint findMatch (rows : list DailyRow) (attempts : list str)
  : option (str * DailyRow) :=
  match attempts with
  | [] => None
  | cand :: rest =>
      match List.find (fun r => rowMatchesSign (sign r) (Some cand)) rows with
      | Some hit => Some (cand, hit)
      | None => findMatch rows rest
      end
  end.

Definition fetchLatestForSignAndHemi (signAttempts : list str) (hemi : Hemi)
  : Eff (option DailyRow) :=
  let hemiVariants := buildHemisphereVariants hemi in
  resp ← ask (QLatest hemiVariants);
  match error resp, data resp with
  | Some _, _ | None, None | None, Some [] => mret None
  | None, Some rows =>
      match findMatch rows signAttempts with
      | Some (_, match_) => mret (Some (cleanRow match_))
      | None => mret None
      end
  end.

(** ** Public API *)

Definition wellFormed (cached : DailyRow) : bool :=
  present (date cached) && present (hemisphere cached) && present (sign cached).

(** The cache-first pass: anchors outside, sign attempts inside. *)
Fixpoint cacheAttempts (w : World) (userId : option str) (hemi : Hemi)
    (dateStr : str) (signAttempts : list str) : option DailyRow :=
  match signAttempts with
  | [] => None
  | s :: rest =>
      match getFromCache (cacheKeyDaily userId s hemi dateStr) w with
      | Some cached =>
          if wellFormed cached then Some cached
          else cacheAttempts w userId hemi dateStr rest
      | None => cacheAttempts w userId hemi dateStr rest
      end
  end.

Fixpoint cachePass (w : World) (userId : option str) (hemi : Hemi)
    (anchors signAttempts : list str) : option DailyRow :=
  match anchors with
  | [] => None
  | dateStr :: rest =>
      match cacheAttempts w userId hemi dateStr signAttempts with
      | Some cached => Some cached
      | None => cachePass w userId hemi rest signAttempts
      end
  end.

(** The list-by-date pass over the anchors. *)
Fixpoint remotePass (userId : option str) (hemi : Hemi) (debug : bool)
    (signAttempts anchors : list str) : Eff (option DailyRow) :=
  match anchors with
  | [] => mret None
  | dateStr :: rest =>
      '(rows, err) ← fetchRowsForDate dateStr hemi debug;
      match err, rows with
      | Some _, _ | None, [] => remotePass userId hemi debug signAttempts rest
      | None, _ :: _ =>
          match findMatch rows signAttempts with
          | Some (cand, hit) =>
              let clean := cleanRow hit in
              _ ← setInCache (cacheKeyDaily userId cand hemi dateStr) clean;
              mret (Some clean)
          | None => remotePass userId hemi debug signAttempts rest
          end
      end
  end.

Definition anchorsFor (opts : Options) : list str :=
  match forceDate opts with
  | Some d => if truthy d then [d] else buildDailyAnchors clk (now clk)
  | None => buildDailyAnchors clk (now clk)
  end.

Definition cacheEnabled (opts : Options) : bool :=
  match useCache opts with Some false => false | _ => true end.

Definition attemptsFor (signIn : str) (opts : Options) : list str :=
  buildSignAttemptsForDaily signIn (allowTrueSignFallback opts).

(** The three stages of [getDailyForecast], on the values its first lines
    compute: the cache-first pass under [useCache !== false], the
    list-by-date pass, and the latest-row safety net. *)
Definition stage1 (signIn : str) (hemisphereIn : option str) (opts : Options)
    (w : World) : option DailyRow :=
  if cacheEnabled opts
  then cachePass w (userId opts) (hemiToDB hemisphereIn)
                 (anchorsFor opts) (attemptsFor signIn opts)
  else None.

Definition stage2 (signIn : str) (hemisphereIn : option str) (opts : Options)
  : Eff (option DailyRow) :=
  remotePass (userId opts) (hemiToDB hemisphereIn) (debug opts)
             (attemptsFor signIn opts) (anchorsFor opts).

Definition stage3 (signIn : str) (hemisphereIn : option str) (opts : Options)
  : Eff (option DailyRow) :=
  fetchLatestForSignAndHemi (attemptsFor signIn opts) (hemiToDB hemisphereIn).

Definition getDailyForecast (signIn : str) (hemisphereIn : option str) (opts : Options)
  : Eff (option DailyRow) := fun w =>
  match stage1 signIn hemisphereIn opts w with
  | Some cached => (Returned (Some cached), w)
  | None =>
      (found ← stage2 signIn hemisphereIn opts;
       match found with
       | Some clean => mret (Some clean)
       | None => stage3 signIn hemisphereIn opts
       end) w
  end.

(** *** Vocabulary for the properties *)

(** The date-scoped query [fetchRowsForDate] sends for an anchor. *)
Definition dayQuery (hemi : Hemi) (dateStr endIso : str) : Query :=
  QByDate (dateStr ++ lit "T00:00:00.000Z") endIso (buildHemisphereVariants hemi).

(** The remote calls [fetchRowsForDate] makes for one anchor: none when
    the date is invalid, else the date-scoped query, followed in debug mode
    by the probe when the answer is an empty list without error. *)
Definition dayCalls (hemi : Hemi) (debug : bool) (dateStr : str) : list RemoteCall :=
  match isoNextDay dateStr with
  | None => []
  | Some endIso =>
      let q := dayQuery hemi dateStr endIso in
      logged q ::
      match error (remote q), default [] (data (remote q)) with
      | None, [] => if debug then [logged (QProbe (buildHemisphereVariants hemi))] else []
      | _, _ => []
      end
  end.

(** The remote calls made since the world [w0]. *)
Definition issuedSince (w0 w : World) : list RemoteCall :=
  drop (length (calls w0)) (calls w).

End Engine.

(** A resolved record carries its three content fields. *)
Definition hasContent (r : DailyRow) : Prop :=
  is_Some (daily_horoscope r) ∧ is_Some (affirmation r) ∧ is_Some (deeper_insight r).

(** [r] is the row [raw] of the table as the engine hands it out: the
    same sign, hemisphere and date, every content field a string, the
    empty one where [raw] has none, and the source tag. *)
Definition CoercedFrom (raw r : DailyRow) : Prop :=
  sign r = sign raw ∧ hemisphere r = hemisphere raw ∧ date r = date raw
  ∧ daily_horoscope r = Some (default [] (daily_horoscope raw))
  ∧ affirmation r = Some (default [] (affirmation raw))
  ∧ deeper_insight r = Some (default [] (deeper_insight raw))
  ∧ source_table r = Some (lit "horoscope_cache").

(** Every well-formed cache entry carries its content fields. *)
Definition cacheHasContent (w : World) : Prop :=
  ∀ key r, getFromCache key w = Some r → wellFormed r = true → hasContent r.

(** The storage exists and accepts writes. *)
Definition cacheWritable (w : World) : Prop :=
  ∃ ls, storage w = Some ls ∧ writable ls = true.

(** ** Letter-case variants

    Two strings are case variants when they have the same length and differ
    only in the case of ASCII letters; they are letter variants when they
    differ only in the case of letters, ASCII or not, that have a simple
    lower-case form. *)

Definition flipCase (c : N) : N :=
  (if (65 <=? c) && (c <=? 90) then c + 32
   else if (97 <=? c) && (c <=? 122) then c - 32 else c)%N.

Definition CaseVariant (a b : str) : Prop :=
  Forall2 (fun x y => y = x ∨ y = flipCase x) a b.

Local Open Scope N_scope.

(** The ASCII fold of a string. *)
Definition asciiLower (s : str) : str := map lowerChar s.

(** A string of ASCII characters. *)
Definition asciiWord (s : str) : Prop := Forall (fun c => c < 128) s.

(** A code unit that is a code point by itself: no surrogate. *)
Definition plain (c : N) : bool :=
  (c <? 55296) || ((57343 <? c) && (c <? 65536)).

(** [x] is the lower case of no code point above U+007F, so it comes out
    of [toLowerCase] from [x] itself or from its ASCII capital only. *)
Definition lowersOnlyAscii (x : N) : bool :=
  (x <? 55296) && negb (x =? 105) && negb (x =? 775)
  && negb (x =? smallSigma) && negb (x =? finalSigma)
  && forallb (fun p => negb (snd p =? x)) lowerPairs.

(** The same of the upper case. *)
Definition uppersOnlyAscii (x : N) : bool :=
  (x <? 55296)
  && forallb (fun p => negb (snd p =? x)) upperPairs
  && forallb (fun p => forallb (fun y => negb (y =? x)) (snd p)) upperSpecial.

(** A word of ASCII characters none of which is the lower case of a code
    point above U+007F (as "i" is of U+0130 and "k" of U+212A). *)
Definition plainWord (s : str) : bool :=
  forallb (fun x => (x <? 128) && lowersOnlyAscii x) s.

Definition isDashB (c : N) : bool := (c =? hyphen) || (c =? enDash) || (c =? emDash).

(** [x] is a lower case of [c] that [toLowerCase] gives in every context
    and that is a character of the same kind: one code unit each, the
    same behaviour towards a neighbouring capital sigma, both or neither
    ASCII, neither whitespace nor a dash, and [x] its own lower case. *)
Definition simpleLower (c x : N) : bool :=
  plain c && plain x && negb (c =? capitalSigma) && negb (x =? capitalSigma)
  && Bool.eqb (c <? 128) (x <? 128)
  && negb (isSpace c) && negb (isSpace x) && negb (isDashB c) && negb (isDashB x)
  && Bool.eqb (isCaseIgnorable c) (isCaseIgnorable x)
  && Bool.eqb (isCasedLetter c) (isCasedLetter x)
  && bool_decide (lowerCp x = [x]).

(** The lower-case form of a code unit that has a simple one; the code
    unit itself otherwise. *)
Definition lowerForm (c : N) : N :=
  match lowerCp c with
  | [x] => if simpleLower c x then x else c
  | _ => c
  end.

(** Same string up to the case of letters with a simple lower-case form:
    the ASCII letters, and among others the accented Latin, the Greek
    (capital sigma apart) and the Cyrillic letters. *)
Definition LetterVariant (a b : str) : Prop :=
  Forall2 (fun x y => lowerForm x = lowerForm y) a b.

Local Open Scope Z_scope.

(** ** Label variants *)

Definition isDash (c : N) : Prop := c = hyphen ∨ c = enDash ∨ c = emDash.

(** Same label up to the style of its dashes. *)
Definition DashVariant (a b : str) : Prop :=
  Forall2 (fun x y => y = x ∨ (isDash x ∧ isDash y)) a b.

(** A run of whitespace. *)
Definition Blank (ws : str) : Prop := Forall (fun c => isSpace c = true) ws.

(** The label ends, up to trailing whitespace, in "cusp" in some case. *)
Definition Suffixed (s : str) : Prop :=
  ∃ p c ws, s = p ++ c ++ ws ∧ cuspAt c = Some [] ∧ Blank ws.

Inductive LabelVariant : str → str → Prop :=
| lv_case a b : CaseVariant a b → LabelVariant a b
| lv_letter a b : LetterVariant a b → LabelVariant a b
| lv_dash a b : DashVariant a b → LabelVariant a b
| lv_pad a pre post : Blank pre → Blank post → LabelVariant a (pre ++ a ++ post)
| lv_run x y ws1 ws2 :
    ws1 ≠ [] → ws2 ≠ [] → Blank ws1 → Blank ws2 →
    LabelVariant (x ++ ws1 ++ y) (x ++ ws2 ++ y)
| lv_cusp a ws c :
    ¬ Suffixed a → Blank ws → cuspAt c = Some [] → LabelVariant a (a ++ ws ++ c)
| lv_trans a b c : LabelVariant a b → LabelVariant b c → LabelVariant a c.

(** [trim] followed by the collapse of whitespace runs, as one pass over
    the string: nothing emitted yet, inside a word, or inside a gap that
    follows a word. *)
Inductive WsState := AtStart | InWord | InGap.

Definition wsNext (st : WsState) (c : N) : WsState :=
  if isSpace c then match st with AtStart => AtStart | _ => InGap end else InWord.

Definition wsEmit (st : WsState) (c : N) : str :=
  if isSpace c then []
  else match st with InGap => [space; c] | _ => [c] end.

Fixpoint squeeze (st : WsState) (s : str) : str :=
  match s with
  | [] => []
  | c :: s' => wsEmit st c ++ squeeze (wsNext st c) s'
  end.

Definition wsAfter (st : WsState) (s : str) : WsState := foldl wsNext st s.

(** ** The wrapper for screens

    [getAccessibleHoroscope(user, opts)] reads the profile through optional
    chaining, so a missing user behaves as a user without fields. *)

(** [a || b] on possibly missing strings. *)
Definition orElse (a b : option str) : option str := if present a then a else b.

Module CuspResult.
Record t := { cuspName : option str; primarySign : option str }.
End CuspResult.

Module User.
Record t := {
  id : option str;
  email : option str;
  hemisphere : option str;
  cuspResult : option CuspResult.t;
  preferred_sign : option str
}.
End User.

Module Screen.
Record Options := {
  forceDate : option str;
  useCache : option bool;
  debug : bool
}.
End Screen.

(** The object the wrapper returns. *)
Module Horoscope.
Record t := {
  date : option str;
  sign : option str;
  hemisphere : option str;
  daily : str;
  affirmation : str;
  deeper : str;
  raw : DailyRow
}.
End Horoscope.

(** [user?.hemisphere === 'NH' || user?.hemisphere === 'SH'
      ? user.hemisphere : user?.hemisphere || 'Southern']. *)
Definition screenHemisphere (user : option User.t) : option str :=
  let h := user ≫= User.hemisphere in
  if bool_decide (h = Some (lit "NH")) || bool_decide (h = Some (lit "SH"))
  then h
  else Some (if present h then orEmpty h else lit "Southern").

(** [user?.cuspResult?.cuspName || user?.cuspResult?.primarySign
      || user?.preferred_sign || '']. *)
Definition screenSignLabel (user : option User.t) : str :=
  let cusp := user ≫= User.cuspResult in
  orEmpty (orElse (orElse (cusp ≫= CuspResult.cuspName) (cusp ≫= CuspResult.primarySign))
                  (user ≫= User.preferred_sign)).

(** The options the wrapper passes on. *)
Definition screenOptions (user : option User.t) (opts : Screen.Options) : Options :=
  let isCuspInput := hasCuspWord (screenSignLabel user) in
  {| userId := orElse (user ≫= User.id) (user ≫= User.email);
     forceDate := Screen.forceDate opts;
     useCache := Screen.useCache opts;
     debug := Screen.debug opts;
     allowTrueSignFallback := if negb isCuspInput then true else false |}.

(** The object literal built from the resolved row. *)
Definition toHoroscope (row : DailyRow) : Horoscope.t :=
  {| Horoscope.date := date row;
     Horoscope.sign := sign row;
     Horoscope.hemisphere := hemisphere row;
     Horoscope.daily := orEmpty (daily_horoscope row);
     Horoscope.affirmation := orEmpty (affirmation row);
     Horoscope.deeper := orEmpty (deeper_insight row);
     Horoscope.raw := row |}.

Section Screens.

Variable remote : Query → Response.
Variable isoNextDay : str → option str.
Variable clk : Clock.

Definition getAccessibleHoroscope (user : option User.t) (opts : Screen.Options)
  : Eff (option Horoscope.t) :=
  row ← getDailyForecast remote isoNextDay clk
          (screenSignLabel user) (screenHemisphere user) (screenOptions user opts);
  match row with
  | None => mret None
  | Some row => mret (Some (toHoroscope row))
  end.

End Screens.

(** ** Further vocabulary for the properties *)

(** The word test of [/\bcusp\b/i] at one position, letter by letter:
    the letters [ls] in any case, then the end or a non-word code unit. *)
Fixpoint matchWord (ls : list N) (s : str) : bool :=
  match ls with
  | [] => match s with [] => true | c :: _ => negb (isWord c) end
  | l :: ls' =>
      match s with
      | [] => false
      | c :: s' => (lowerChar c =? l)%N && matchWord ls' s'
      end
  end.

Definition cuspLetters : list N := [99; 117; 115; 112]%N.

(** Spellings of one label: letter case, dash style, surrounding
    whitespace and the length of whitespace runs. *)
Inductive SpellingVariant : str → str → Prop :=
| sv_case a b : CaseVariant a b → SpellingVariant a b
| sv_dash a b : DashVariant a b → SpellingVariant a b
| sv_pad a pre post : Blank pre → Blank post → SpellingVariant a (pre ++ a ++ post)
| sv_run x y ws1 ws2 :
    ws1 ≠ [] → ws2 ≠ [] → Blank ws1 → Blank ws2 →
    SpellingVariant (x ++ ws1 ++ y) (x ++ ws2 ++ y)
| sv_sym a b : SpellingVariant a b → SpellingVariant b a
| sv_trans a b c : SpellingVariant a b → SpellingVariant b c → SpellingVariant a c.

(** The separator of the fields of a cache key. *)
Definition colon : N := 58%N.

(** The number a string of decimal digits stands for. *)
Definition numOf (s : str) : N := fold_left (fun a c => (10 * a + (c - 48))%N) s 0%N.

(** The last instant of the year 9999, the last one with a four-digit year. *)
Definition endOfYear9999 : Z := 253402300799999.

(** The local times whose calendar days are the anchor candidates, in the
    order of [anchorCandidates]. *)
Definition anchorTimes (clk : Clock) (d : Z) : list Z :=
  let userTZ := getUserTimeZone clk in
  [ d + userTZ d;
    d;
    d + deviceTimeZone clk d;
    (d - 24 * 60 * 60 * 1000) + userTZ (d - 24 * 60 * 60 * 1000);
    (d + 24 * 60 * 60 * 1000) + userTZ (d + 24 * 60 * 60 * 1000) ].

(** The same options with another [debug]. *)
Definition withDebug (b : bool) (opts : Options) : Options :=
  {| userId := userId opts; forceDate := forceDate opts; useCache := useCache opts;
     debug := b; allowTrueSignFallback := allowTrueSignFallback opts |}.

(** The visibility probe of debug mode. *)
Definition isProbe (c : RemoteCall) : bool :=
  match query c with QProbe _ => true | _ => false end.

(** The rows [fetchRowsForDate] hands to the matching loop for an anchor:
    none when the date is invalid or the answer carries an error. *)
Definition dayRows (remote : Query → Response) (isoNextDay : str → option str)
    (hemi : Hemi) (dateStr : str) : list DailyRow :=
  match isoNextDay dateStr with
  | None => []
  | Some endIso =>
      let resp := remote (dayQuery hemi dateStr endIso) in
      match error resp with
      | Some _ => []
      | None => map cleanRow (default [] (data resp))
      end
  end.


(** ** Example environments *)

(** America/New_York around the end of daylight saving time in 2024: UTC-4
    until 2024-11-03T06:00:00Z, UTC-5 from then on. *)
Definition newYork2024 : TimeZone :=
  fun t => if t <? 1730613600000 then -4 * 3600000 else -5 * 3600000.

(** 2024-11-04T04:30:00Z, which is 23:30 on 3 November in New York. *)
Definition newYorkLateEvening : Clock :=
  {| now := 1730694600000;
     intlTimeZone := Some newYork2024;
     deviceTimeZone := newYork2024 |}.

(** Australia/Sydney in November 2024 (UTC+11), at 2024-11-02T22:00:00Z,
    which is 09:00 on 3 November in Sydney. *)
Definition sydneyMorning : Clock :=
  {| now := 1730584800000;
     intlTimeZone := Some (fun _ => 11 * 3600000);
     deviceTimeZone := fun _ => 11 * 3600000 |}.

(** A [Date] that parses exactly the [YYYY-MM-DD] strings naming a real
    calendar day. *)
Definition digitVal (c : N) : option Z :=
  if ((48 <=? c) && (c <=? 57))%N then Some (Z.of_N c - 48) else None.

Definition daysFromCivil (y m d : Z) : Z :=
  let y' := if m <=? 2 then y - 1 else y in
  let era := y' / 400 in
  let yoe := y' - era * 400 in
  let mp := (m + 9) mod 12 in
  let doy := (153 * mp + 2) / 5 + d - 1 in
  let doe := yoe * 365 + yoe / 4 - yoe / 100 + doy in
  era * 146097 + doe - 719468.

Definition parseYmd (s : str) : option Z :=
  match s with
  | [y1; y2; y3; y4; h1; m1; m2; h2; d1; d2] =>
      y1 ← digitVal y1; y2 ← digitVal y2; y3 ← digitVal y3; y4 ← digitVal y4;
      m1 ← digitVal m1; m2 ← digitVal m2; d1 ← digitVal d1; d2 ← digitVal d2;
      let y := 1000 * y1 + 100 * y2 + 10 * y3 + y4 in
      let m := 10 * m1 + m2 in
      let d := 10 * d1 + d2 in
      let n := daysFromCivil y m d in
      if bool_decide (h1 = hyphen ∧ h2 = hyphen ∧ civilFromDays n = (y, m, d))
      then Some n else None
  | _ => None
  end.

Definition isoNextDayStd (dateStr : str) : option str :=
  n ← parseYmd dateStr;
  Some (ymdOfLocal ((n + 1) * msPerDay) ++ lit "T00:00:00.000Z").

(** A store whose table holds [rows], newest first, with a DATE column. *)
Definition inVariants (variants : list str) (r : DailyRow) : bool :=
  bool_decide (orEmpty (hemisphere r) ∈ variants).

Definition storeOf (rows : list DailyRow) : Query → Response := fun q =>
  match q with
  | QByDate start _ variants =>
      {| data := Some (List.filter
                         (fun r => inVariants variants r
                                   && bool_decide (orEmpty (date r) ++ lit "T00:00:00.000Z" = start))
                         rows);
         error := None |}
  | QProbe variants =>
      {| data := Some (take 3 (List.filter (inVariants variants) rows)); error := None |}
  | QLatest variants =>
      {| data := Some (take 200 (List.filter (inVariants variants) rows)); error := None |}
  end.

(** A store that answers every query with an error. *)
Definition storeDown : Query → Response :=
  fun _ => {| data := None; error := Some (lit "TypeError: Failed to fetch") |}.

(** A row as the table holds it. *)
Definition tableRow (sign hemisphere date text : string) : DailyRow :=
  {| sign := Some (lit sign); hemisphere := Some (lit hemisphere);
     date := Some (lit date); daily_horoscope := Some (lit text);
     affirmation := None; deeper_insight := None; source_table := None |}.

(** A browser with an empty, writable [localStorage] and no call made. *)
Definition freshWorld : World :=
  {| storage := Some {| items := ∅; writable := true |}; calls := [] |}.

(** No window: there is no storage to read or write. *)
Definition windowless : World := {| storage := None; calls := [] |}.

Definition plainOptions : Options :=
  {| userId := None; forceDate := None; useCache := None;
     debug := false; allowTrueSignFallback := false |}.

(** Scenario: the store is down and the user asks on a Sydney morning. *)
Definition downCall : Eff (option DailyRow) :=
  getDailyForecast storeDown isoNextDayStd sydneyMorning
                   (lit "Aries") (Some (lit "Northern")) plainOptions.

(** Options with a forced date. *)
Definition forced (d : string) (cache : option bool) : Options :=
  {| userId := None; forceDate := Some (lit d); useCache := cache;
     debug := false; allowTrueSignFallback := false |}.

(** Scenario: the table has the Aries row of the UTC day only, and the
    user asks on a Sydney morning, when the local day is one ahead. *)
Definition utcDayStore : Query → Response :=
  storeOf [tableRow "Aries" "Northern" "2024-11-02" "Today brings focus."].

Definition sydneyCall : Eff (option DailyRow) :=
  getDailyForecast utcDayStore isoNextDayStd sydneyMorning
                   (lit "aries") (Some (lit "NH")) plainOptions.

Definition afterFirstSydneyCall : World := (sydneyCall freshWorld).2.

(** The record of that call: the row of the table, which has a text only,
    with the empty string for its affirmation and its deeper insight. *)
Definition sydneyRecord : DailyRow :=
  {| sign := Some (lit "Aries"); hemisphere := Some (lit "Northern");
     date := Some (lit "2024-11-02");
     daily_horoscope := Some (lit "Today brings focus.");
     affirmation := Some []; deeper_insight := Some [];
     source_table := Some (lit "horoscope_cache") |}.
Definition afterSecondSydneyCall : World := (sydneyCall afterFirstSydneyCall).2.

Definition afterUncachedCall : World :=
  (stage2 utcDayStore isoNextDayStd sydneyMorning
          (lit "aries") (Some (lit "NH")) (forced "2024-11-02" (Some false)) freshWorld).2.

(** Scenario: no row for the forced day, one older row for the sign. *)
Definition olderRowStore : Query → Response :=
  storeOf [tableRow "Aries" "Northern" "2024-10-01" "An older reading."].

Definition olderRowCall : Eff (option DailyRow) :=
  getDailyForecast olderRowStore isoNextDayStd sydneyMorning
                   (lit "Aries") (Some (lit "Northern")) (forced "2024-11-03" None).

Definition afterOlderStage2 : World :=
  (stage2 olderRowStore isoNextDayStd sydneyMorning
          (lit "Aries") (Some (lit "Northern")) (forced "2024-11-03" None) freshWorld).2.
Definition afterOlderStage3 : World :=
  (stage3 olderRowStore (lit "Aries") (Some (lit "Northern"))
          (forced "2024-11-03" None) afterOlderStage2).2.

(** Scenario: a storage that already holds, under a key the cache pass
    reads, an entry with date, hemisphere and sign but no content field. *)
Definition bareEntry : DailyRow :=
  {| sign := Some (lit "Aries"); hemisphere := Some (lit "Northern");
     date := Some (lit "2024-01-15"); daily_horoscope := None;
     affirmation := None; deeper_insight := None; source_table := None |}.

Definition bareEntryWorld : World :=
  {| storage :=
       Some {| items := {[ lit "daily:anon:Aries:Northern:2024-01-15" := Entry bareEntry ]};
               writable := true |};
     calls := [] |}.

(** A profile for the examples: a cusp user of the southern hemisphere. *)
Definition cuspUser : User.t :=
  {| User.id := Some (lit "u-17");
     User.email := Some (lit "sam@example.org");
     User.hemisphere := Some (lit "SH");
     User.cuspResult :=
       Some {| CuspResult.cuspName := Some (lit "Aries-Taurus Cusp");
               CuspResult.primarySign := Some (lit "Aries") |};
     User.preferred_sign := None |}.

(** Scenario: the table spells the cusp sign with a hyphen. *)
Definition cuspRow : DailyRow :=
  tableRow "Aries-Taurus Cusp" "Southern" "2024-11-03" "Between two signs.".

(** Scenario: a call for a blank label on a Sydney morning. *)
Definition blankCall : Eff (option DailyRow) :=
  getDailyForecast utcDayStore isoNextDayStd sydneyMorning
                   (lit "   ") (Some (lit "NH")) plainOptions.

(** Labels with letters beyond ASCII, as code units: "Ariès" and "ARIÈS";
    "οδοσ" and its capitals "ΟΔΟΣ"; "straße" and its capitals
    "STRASSE". *)
Definition ariesAccented : str := [65; 114; 105; 232; 115]%N.
Definition ariesAccentedCapitals : str := [65; 82; 73; 200; 83]%N.
Definition odos : str := [959; 948; 959; 963]%N.
Definition odosCapitals : str := [927; 916; 927; 931]%N.
Definition strasse : str := [115; 116; 114; 97; 223; 101]%N.
Definition strasseCapitals : str := lit "STRASSE".

(** "ßeta": a word whose first letter has an upper case of two letters. *)
Definition eszettWord : str := [223; 101; 116; 97]%N.

(** A label and one of its spellings. *)
Definition cuspLabel : str := lit "Gemini-Cancer Cusp".
Definition cuspLabelRespelled : str :=
  lit "  " ++ (lit "gemini" ++ [enDash] ++ lit "cancer cusp") ++ lit " ".

(** Sydney's zone in November 2024. *)
Definition sydneyZone : TimeZone := fun _ => 11 * 3600000.


(** * Properties *)

(** ** The model on the examples of the specification *)

Example normalize_gemini_cancer_cusp :
  normalizeSignForDaily (lit "gemini-cancer cusp")
  = {| primaryWithCusp := Some (lit "Gemini" ++ [enDash] ++ lit "Cancer Cusp");
       primaryNoCusp := lit "Gemini" ++ [enDash] ++ lit "Cancer";
       parts := [lit "Gemini"; lit "Cancer"];
       isCusp := true |}.
Proof. reflexivity. Qed.

Example normalize_blank :
  normalizeSignForDaily (lit "   ")
  = {| primaryWithCusp := None; primaryNoCusp := []; parts := []; isCusp := false |}.
Proof. reflexivity. Qed.

Example attempts_gemini_cancer_cusp :
  buildSignAttemptsForDaily (lit "Gemini-Cancer Cusp") false
  = [ lit "Gemini" ++ [enDash] ++ lit "Cancer Cusp"; lit "Gemini-Cancer Cusp";
      lit "Gemini" ++ [enDash] ++ lit "Cancer"; lit "Gemini-Cancer" ].
Proof. reflexivity. Qed.

Example attempts_with_components :
  buildSignAttemptsForDaily (lit "Gemini-Cancer Cusp") true
  = [ lit "Gemini" ++ [enDash] ++ lit "Cancer Cusp"; lit "Gemini-Cancer Cusp";
      lit "Gemini" ++ [enDash] ++ lit "Cancer"; lit "Gemini-Cancer";
      lit "Gemini"; lit "Cancer" ].
Proof. reflexivity. Qed.

(** Letter case beyond ASCII: the final sigma, the dotted capital I, a
    pair of surrogates (the Deseret capital long I), the sharp s and a
    ligature. *)
Example lower_case_beyond_ascii :
  toLowerCase odosCapitals = [959; 948; 959; 962]%N
  ∧ toLowerCase ariesAccentedCapitals = [97; 114; 105; 232; 115]%N
  ∧ toLowerCase [304; 55297; 56320]%N = [105; 775; 55297; 56360]%N.
Proof. vm_compute. done. Qed.

Example upper_case_beyond_ascii :
  toUpperCase strasse = lit "STRASSE"
  ∧ toUpperCase [64257; 55297; 56360]%N = [70; 73; 55297; 56320]%N
  ∧ toTitleCaseWord [233; 67; 76; 65; 73; 82]%N = [201; 99; 108; 97; 105; 114]%N.
Proof. vm_compute. done. Qed.

Example en_dash_row_matches_hyphen_attempt :
  rowMatchesSign (Some (lit "Gemini" ++ [enDash] ++ lit "Cancer Cusp"))
                 (Some (lit "Gemini-Cancer Cusp")) = true.
Proof. reflexivity. Qed.

Example variants_southern :
  buildHemisphereVariants Southern
  = [lit "Southern"; lit "SOUTHERN"; lit "southern"; lit "SH"].
Proof. reflexivity. Qed.

Example region_defaults :
  hemiToDB (Some (lit "sh")) = Southern ∧ hemiToDB (Some (lit "SOUTHERN")) = Southern
  ∧ hemiToDB (Some (lit "unknown")) = Southern ∧ hemiToDB (Some (lit "nh")) = Northern.
Proof. repeat split; reflexivity. Qed.

Example anchors_sydney_morning :
  buildDailyAnchors sydneyMorning (now sydneyMorning)
  = [lit "2024-11-03"; lit "2024-11-02"; lit "2024-11-04"].
Proof. vm_compute. reflexivity. Qed.

Example cache_key :
  cacheKeyDaily None (lit "Aries") Northern (lit "2024-11-02")
  = lit "daily:anon:Aries:Northern:2024-11-02".
Proof. reflexivity. Qed.

(** ** Letter case *)

Local Ltac char_cases :=
  repeat match goal with
         | |- context [(?a <=? ?b)%N] => destruct (N.leb_spec a b)
         | |- context [(?a =? ?b)%N] => destruct (N.eqb_spec a b)
         | H : context [(?a <=? ?b)%N] |- _ => destruct (N.leb_spec a b)
         | H : context [(?a =? ?b)%N] |- _ => destruct (N.eqb_spec a b)
         end; simpl in *; try lia.

Lemma lowerChar_variant x y :
  lowerChar x = lowerChar y ↔ (y = x ∨ y = flipCase x).
Proof.
  unfold lowerChar, flipCase. split.
  - intros H. char_cases.
  - intros [-> | ->]; [done|]. char_cases.
Qed.

Local Open Scope N_scope.

Lemma CaseVariant_asciiLower a b :
  CaseVariant a b ↔ asciiLower a = asciiLower b.
Proof.
  unfold CaseVariant, asciiLower. split.
  - induction 1 as [|x y a b Hxy _ IH]; [done|].
    simpl. f_equal; [by apply lowerChar_variant | exact IH].
  - revert b. induction a as [|x a IH]; intros [|y b] H; simplify_eq/=.
    + constructor.
    + constructor; [by apply lowerChar_variant | by apply IH].
Qed.

Lemma lowerChar_idemp c : lowerChar (lowerChar c) = lowerChar c.
Proof. unfold lowerChar. char_cases. Qed.

Lemma lowerChar_ascii c : (lowerChar c <? 128) = (c <? 128).
Proof. unfold lowerChar. destruct (N.ltb_spec c 128); char_cases; apply N.ltb_lt || apply N.ltb_ge; lia. Qed.

Lemma upperChar_ascii c : (upperChar c <? 128) = (c <? 128).
Proof. unfold upperChar. destruct (N.ltb_spec c 128); char_cases; apply N.ltb_lt || apply N.ltb_ge; lia. Qed.

Lemma lowerChar_lt c n : 128 ≤ n → c < n → lowerChar c < n.
Proof. unfold lowerChar. intros. char_cases. Qed.

Lemma upperChar_lt c n : 128 ≤ n → c < n → upperChar c < n.
Proof. unfold upperChar. intros. char_cases. Qed.

Lemma upperChar_lowerChar c : upperChar (lowerChar c) = upperChar c.
Proof. unfold upperChar, lowerChar. char_cases. Qed.

(** *** Code points and code units *)

Lemma plain_surrogate c :
  plain c = true → isHighSurrogate c = false ∧ isLowSurrogate c = false.
Proof.
  unfold plain, isHighSurrogate, isLowSurrogate. intros H.
  destruct (N.ltb_spec c 55296), (N.ltb_spec 57343 c); simpl in H; try done;
    split; apply andb_false_iff; rewrite !N.leb_gt; lia.
Qed.

Lemma surrogate_plain c :
  isHighSurrogate c = true ∨ isLowSurrogate c = true → plain c = false.
Proof.
  intros H. destruct (plain c) eqn:E; [|done].
  apply plain_surrogate in E as [E1 E2]. destruct H; congruence.
Qed.

Lemma codePoints_single c : codePoints [c] = [c].
Proof. unfold codePoints. cbn. by destruct (isHighSurrogate c). Qed.

Lemma codePoints_plain s :
  Forall (λ c, isHighSurrogate c = false) s → codePoints s = s.
Proof.
  unfold codePoints. induction 1 as [|c s Hc _ IH]; [done|].
  cbn [codePointsFrom]. by rewrite Hc, IH.
Qed.

Lemma fromCodePoints_plain cps :
  Forall (λ c, c < 65536) cps → fromCodePoints cps = cps.
Proof.
  unfold fromCodePoints. induction 1 as [|c s Hc _ IH]; [done|].
  cbn. unfold codeUnits at 1. apply N.ltb_lt in Hc. rewrite Hc. cbn.
  f_equal. exact IH.
Qed.

Lemma codeUnits_cases cp :
  (codeUnits cp = [cp] ∧ cp < 65536)
  ∨ (∃ u v, codeUnits cp = [u; v] ∧ 55296 ≤ u ∧ 55296 ≤ v).
Proof.
  unfold codeUnits. destruct (N.ltb_spec cp 65536); [by left|right].
  eexists _, _. split; [done|]. split; [apply N.le_add_r|].
  etransitivity; [|apply N.le_add_r]. lia.
Qed.

Lemma elem_of_fromCodePoints x cps :
  x ∈ fromCodePoints cps → x < 55296 → x ∈ cps.
Proof.
  unfold fromCodePoints. intros (cp & Hx & Hcp)%list_elem_of_bind Hlt.
  destruct (codeUnits_cases cp) as [[E _]|(u & v & E & Hu & Hv)]; rewrite E in Hx.
  - apply list_elem_of_singleton in Hx. by subst.
  - apply elem_of_cons in Hx as [->|Hx%list_elem_of_singleton]; [lia|].
    subst. lia.
Qed.

Lemma elem_of_codePointsFrom x lead s :
  x ∈ codePointsFrom lead s → x < 65536 → x ∈ s ∨ lead = Some x.
Proof.
  revert lead. induction s as [|c s IH]; intros lead H Hlt.
  - destruct lead as [h|]; cbn in H.
    + apply list_elem_of_singleton in H. right. by subst.
    + by apply not_elem_of_nil in H.
  - cbn [codePointsFrom] in H.
    assert (Hrest : x ∈ (if isHighSurrogate c then codePointsFrom (Some c) s
                         else c :: codePointsFrom None s) → x ∈ c :: s).
    { destruct (isHighSurrogate c).
      - intros H'. destruct (IH _ H' Hlt) as [?|[= ->]]; [by right|by left].
      - intros [->|H']%elem_of_cons; [by left|].
        destruct (IH _ H' Hlt) as [?|?]; [by right|done]. }
    destruct lead as [h|]; [|left; by apply Hrest].
    destruct (isLowSurrogate c).
    + apply elem_of_cons in H as [->|H]; [lia|].
      destruct (IH _ H Hlt) as [?|?]; [left; by right|done].
    + apply elem_of_cons in H as [->|H]; [by right|]. left. by apply Hrest.
Qed.

Lemma elem_of_codePoints x s : x ∈ codePoints s → x < 65536 → x ∈ s.
Proof.
  intros H Hlt. by destruct (elem_of_codePointsFrom _ _ _ H Hlt).
Qed.

(** Code points below the surrogates come from a string without
    surrogates, which is its own list of code points. *)
Lemma codePointsFrom_low lead s :
  (∀ h, lead = Some h → isHighSurrogate h = true) →
  Forall (λ c, c < 55296) (codePointsFrom lead s) →
  lead = None ∧ codePointsFrom lead s = s.
Proof.
  revert lead. induction s as [|c s IH]; intros lead Hlead H.
  - destruct lead as [h|]; [|done]. cbn in H. apply Forall_cons in H as [H _].
    specialize (Hlead h eq_refl). unfold isHighSurrogate in Hlead. char_cases.
  - cbn [codePointsFrom] in *.
    assert (Hrest :
      Forall (λ c, c < 55296) (if isHighSurrogate c then codePointsFrom (Some c) s
                               else c :: codePointsFrom None s) →
      (if isHighSurrogate c then codePointsFrom (Some c) s
       else c :: codePointsFrom None s) = c :: s).
    { destruct (isHighSurrogate c) eqn:E.
      - intros H'. apply IH in H' as [[=] _]. by intros h [= <-].
      - intros [_ H']%Forall_cons. apply IH in H' as [_ ->]; done. }
    destruct lead as [h|]; [|split; [done|by apply Hrest]].
    specialize (Hlead h eq_refl). exfalso.
    destruct (isLowSurrogate c).
    + apply Forall_cons in H as [H _]. lia.
    + apply Forall_cons in H as [H _]. unfold isHighSurrogate in Hlead. char_cases.
Qed.

Lemma fromCodePoints_low cps :
  Forall (λ c, c < 55296) (fromCodePoints cps) → fromCodePoints cps = cps.
Proof.
  unfold fromCodePoints. induction cps as [|c cps IH]; [done|].
  cbn. intros [H1 H2]%Forall_app. rewrite (IH H2).
  destruct (codeUnits_cases c) as [[-> _]|(u & v & E & Hu & _)]; [done|].
  rewrite E in H1. apply Forall_cons in H1 as [H1 _]. lia.
Qed.

(** *** The case of a single code point *)

Lemma assoc_elem {A} c (t : list (N * A)) v : assoc c t = Some v → (c, v) ∈ t.
Proof.
  induction t as [|[k w] t IH]; [done|]. cbn.
  destruct (N.eqb_spec c k) as [->|_].
  - intros [= ->]. by left.
  - intros H. right. by apply IH.
Qed.

Lemma lowerCp_ascii c : c < 128 → lowerCp c = [lowerChar c].
Proof. intros H%N.ltb_lt. unfold lowerCp. by rewrite H. Qed.

Lemma upperCp_ascii c : c < 128 → upperCp c = [upperChar c].
Proof. intros H%N.ltb_lt. unfold upperCp. by rewrite H. Qed.

Lemma lowersOnlyAscii_spec x c :
  lowersOnlyAscii x = true → x ∈ lowerCp c → lowerCp c = [lowerChar c] ∧ x = lowerChar c.
Proof.
  unfold lowersOnlyAscii. rewrite !andb_true_iff, !negb_true_iff, !N.eqb_neq.
  intros [[[[[Hlt Hi] Hdot] _] _] Htab]. unfold lowerCp.
  destruct (N.ltb_spec c 128) as [Hc|Hc].
  { intros Hx%list_elem_of_singleton. by subst x. }
  assert (Hid : lowerChar c = c) by (unfold lowerChar; char_cases).
  destruct (c =? 304).
  { intros [Hx|Hx%list_elem_of_singleton]%elem_of_cons; subst x; done. }
  destruct (assoc c lowerPairs) as [v|] eqn:E.
  - intros Hx%list_elem_of_singleton. subst x. apply assoc_elem in E.
    rewrite forallb_forall in Htab. apply list_elem_of_In, Htab in E.
    cbn in E. apply negb_true_iff, N.eqb_neq in E. done.
  - intros Hx%list_elem_of_singleton. subst x. by rewrite Hid.
Qed.

Lemma uppersOnlyAscii_spec x c :
  uppersOnlyAscii x = true → x ∈ upperCp c → x = upperChar c.
Proof.
  unfold uppersOnlyAscii. rewrite !andb_true_iff.
  intros [[Hlt Hp] Hs]. unfold upperCp.
  destruct (N.ltb_spec c 128) as [Hc|Hc].
  { intros Hx%list_elem_of_singleton. by subst x. }
  assert (Hid : upperChar c = c) by (unfold upperChar; char_cases).
  destruct (assoc c upperSpecial) as [l|] eqn:E.
  { intros Hx. apply assoc_elem in E.
    rewrite forallb_forall in Hs. apply list_elem_of_In, Hs in E. cbn in E.
    rewrite forallb_forall in E. apply list_elem_of_In, E in Hx.
    apply negb_true_iff, N.eqb_neq in Hx. done. }
  destruct (assoc c upperPairs) as [v|] eqn:E'.
  - intros Hx%list_elem_of_singleton. subst x. apply assoc_elem in E'.
    rewrite forallb_forall in Hp. apply list_elem_of_In, Hp in E'.
    cbn in E'. apply negb_true_iff, N.eqb_neq in E'. done.
  - intros Hx%list_elem_of_singleton. subst x. by rewrite Hid.
Qed.

(** *** Lower case of a string *)

Lemma elem_of_lowerFrom x b cps :
  lowersOnlyAscii x = true → x ∈ lowerFrom b cps → ∃ c, c ∈ cps ∧ x = lowerChar c.
Proof.
  intros Hx. revert b. induction cps as [|c cps IH]; intros b; cbn [lowerFrom].
  { by intros ?%not_elem_of_nil. }
  intros [H|H]%elem_of_app.
  - exists c. split; [by left|].
    destruct (c =? capitalSigma).
    + exfalso. apply list_elem_of_singleton in H.
      unfold lowersOnlyAscii in Hx.
      rewrite !andb_true_iff, !negb_true_iff, !N.eqb_neq in Hx.
      destruct Hx as [[[[_ _] Hs] Hf] _].
      by destruct (b && negb (followedByCased cps)); subst x.
    + by apply (lowersOnlyAscii_spec x c).
  - destruct (IH _ H) as (c' & ? & ?). exists c'. split; [by right|done].
Qed.

Lemma lowerFrom_inv b cps :
  Forall (λ x, lowersOnlyAscii x = true) (lowerFrom b cps) →
  lowerFrom b cps = map lowerChar cps.
Proof.
  revert b. induction cps as [|c cps IH]; intros b; [done|].
  cbn [lowerFrom map]. intros [H1 H2]%Forall_app. rewrite (IH _ H2).
  change (lowerChar c :: map lowerChar cps) with ([lowerChar c] ++ map lowerChar cps).
  f_equal. destruct (c =? capitalSigma).
  - exfalso. apply Forall_cons in H1 as [Hx _]. unfold lowersOnlyAscii in Hx.
    rewrite !andb_true_iff, !negb_true_iff, !N.eqb_neq in Hx.
    destruct Hx as [[[[_ _] Hs] Hf] _].
    by destruct (b && negb (followedByCased cps)).
  - destruct (lowerCp c) as [|x l] eqn:E.
    + unfold lowerCp in E. by repeat case_match.
    + apply Forall_cons in H1 as [Hx _].
      assert (Hin : x ∈ lowerCp c) by (rewrite E; by left).
      destruct (lowersOnlyAscii_spec x c Hx Hin) as [E' _]. congruence.
Qed.

Lemma lowerFrom_ascii b s :
  Forall (λ c, c < 128) s → lowerFrom b s = map lowerChar s.
Proof.
  intros H. revert b. induction H as [|c s Hc _ IH]; intros b; [done|].
  cbn [lowerFrom map]. rewrite IH, (lowerCp_ascii c Hc).
  destruct (N.eqb_spec c capitalSigma) as [->|_]; [|done].
  unfold capitalSigma in Hc. lia.
Qed.

(** On an ASCII string the mappings are the ASCII folds. *)
Lemma toLowerCase_ascii s :
  Forall (λ c, c < 128) s → toLowerCase s = asciiLower s.
Proof.
  intros H. unfold toLowerCase, asciiLower. rewrite codePoints_plain.
  - rewrite (lowerFrom_ascii _ _ H). apply fromCodePoints_plain.
    apply Forall_fmap. eapply Forall_impl; [exact H|].
    intros c Hc. cbv beta in Hc. apply lowerChar_lt; lia.
  - eapply Forall_impl; [exact H|]. intros c Hc. cbv beta in Hc.
    unfold isHighSurrogate. apply andb_false_iff. left. apply N.leb_gt. lia.
Qed.

Lemma toUpperCase_ascii s :
  Forall (λ c, c < 128) s → toUpperCase s = map upperChar s.
Proof.
  intros H. unfold toUpperCase. rewrite codePoints_plain.
  - assert (E : s ≫= upperCp = map upperChar s).
    { induction H as [|c s Hc _ IH]; [done|]. cbn.
      change (c :: s ≫= upperCp) with (upperCp c ++ (s ≫= upperCp)).
      by rewrite IH, (upperCp_ascii c Hc). }
    rewrite E. apply fromCodePoints_plain.
    apply Forall_fmap. eapply Forall_impl; [exact H|].
    intros c Hc. cbv beta in Hc. apply upperChar_lt; lia.
  - eapply Forall_impl; [exact H|]. intros c Hc. cbv beta in Hc.
    unfold isHighSurrogate. apply andb_false_iff. left. apply N.leb_gt. lia.
Qed.

(** A lower-cased string made of characters that are the lower case of
    ASCII characters only is the ASCII fold of the string. *)
Lemma toLowerCase_inv s :
  Forall (λ x, lowersOnlyAscii x = true) (toLowerCase s) →
  toLowerCase s = asciiLower s.
Proof.
  intros H. unfold toLowerCase in *.
  assert (Hlow : ∀ l, Forall (λ x, lowersOnlyAscii x = true) l → Forall (λ c, c < 55296) l).
  { intros l Hl. eapply Forall_impl; [exact Hl|]. intros x Hx. unfold lowersOnlyAscii in Hx.
    rewrite !andb_true_iff in Hx. destruct Hx as [[[[[Hx _] _] _] _] _].
    by apply N.ltb_lt. }
  pose proof (fromCodePoints_low _ (Hlow _ H)) as E1. rewrite E1 in *.
  pose proof (lowerFrom_inv _ _ H) as E2. rewrite E2 in *.
  apply Hlow in H.
  assert (Hcp : Forall (λ c, c < 55296) (codePoints s)).
  { apply Forall_fmap in H. eapply Forall_impl; [exact H|].
    intros c Hc. cbn in Hc. unfold lowerChar in Hc. char_cases. }
  apply codePointsFrom_low in Hcp as [_ E3]; [|done].
  unfold codePoints. by rewrite E3.
Qed.

(** The words that [toLowerCase] gives for their ASCII case variants
    only. *)
Lemma CaseVariant_plainWord a s :
  plainWord (asciiLower a) = true →
  CaseVariant a s ↔ toLowerCase s = asciiLower a.
Proof.
  intros Ha. unfold plainWord in Ha. rewrite forallb_forall in Ha.
  rewrite CaseVariant_asciiLower. split.
  - intros E. rewrite E. apply toLowerCase_ascii.
    apply Forall_forall. intros c Hc.
    assert (Hl : lowerChar c ∈ asciiLower s) by (by apply list_elem_of_fmap_2).
    rewrite <- E in Hl. apply list_elem_of_In, Ha, andb_true_iff in Hl as [Hl _].
    rewrite lowerChar_ascii in Hl. by apply N.ltb_lt.
  - intros E. rewrite <- E. apply toLowerCase_inv. rewrite E.
    apply Forall_forall. intros x Hx.
    by apply list_elem_of_In, Ha, andb_true_iff in Hx as [_ Hx].
Qed.

(** The dashes are the case of nothing else. *)
Lemma isDash_lowersOnlyAscii x : isDash x → lowersOnlyAscii x = true ∧ uppersOnlyAscii x = true.
Proof. intros [->|[->| ->]]; split; vm_compute; reflexivity. Qed.

Lemma elem_of_toLowerCase_dash x s : isDash x → x ∈ toLowerCase s → x ∈ s.
Proof.
  intros Hd H. destruct (isDash_lowersOnlyAscii x Hd) as [Hx _].
  assert (Hlt : x < 55296) by (destruct Hd as [->|[->| ->]]; vm_compute; done).
  unfold toLowerCase in H. apply elem_of_fromCodePoints in H; [|done].
  apply elem_of_lowerFrom in H as (c & Hc & ->); [|done].
  assert (lowerChar c = c) as E.
  { unfold isDash, hyphen, enDash, emDash, lowerChar in *. char_cases. }
  rewrite E in *. apply elem_of_codePoints; [done|lia].
Qed.

Lemma toUpperCase_single c : toUpperCase [c] = fromCodePoints (upperCp c).
Proof.
  unfold toUpperCase. rewrite codePoints_single. cbn. by rewrite app_nil_r.
Qed.

Lemma elem_of_toUpperCase_dash x c : isDash x → x ∈ toUpperCase [c] → x = c.
Proof.
  intros Hd H. destruct (isDash_lowersOnlyAscii x Hd) as [_ Hx].
  assert (Hlt : x < 55296) by (destruct Hd as [->|[->| ->]]; vm_compute; done).
  rewrite toUpperCase_single in H. apply elem_of_fromCodePoints in H; [|done].
  apply (uppersOnlyAscii_spec x c Hx) in H.
  unfold isDash, hyphen, enDash, emDash, upperChar in *. char_cases.
Qed.

(** *** Maps of code units that the lower case does not see *)

Section LetterMap.

Variable f : N → N.
Hypothesis f_fixed : ∀ c, plain c = false → f c = c.
Hypothesis f_plain : ∀ c, plain c = true → plain (f c) = true.
Hypothesis f_sigma : ∀ c, (f c =? capitalSigma) = (c =? capitalSigma).
Hypothesis f_lower : ∀ c, lowerCp (f c) = lowerCp c.
Hypothesis f_ignorable : ∀ c, isCaseIgnorable (f c) = isCaseIgnorable c.
Hypothesis f_cased : ∀ c, isCasedLetter (f c) = isCasedLetter c.

Lemma map_high c : isHighSurrogate (f c) = isHighSurrogate c.
Proof.
  destruct (plain c) eqn:E; [|by rewrite f_fixed].
  destruct (plain_surrogate _ (f_plain _ E)) as [-> _].
  by destruct (plain_surrogate _ E) as [-> _].
Qed.

Lemma map_low c : isLowSurrogate (f c) = isLowSurrogate c.
Proof.
  destruct (plain c) eqn:E; [|by rewrite f_fixed].
  destruct (plain_surrogate _ (f_plain _ E)) as [_ ->].
  by destruct (plain_surrogate _ E) as [_ ->].
Qed.

Lemma codePointsFrom_map lead s :
  (∀ h, lead = Some h → isHighSurrogate h = true) →
  codePointsFrom lead (map f s) = map f (codePointsFrom lead s).
Proof.
  revert lead. induction s as [|c s IH]; intros lead Hlead.
  - destruct lead as [h|]; [|done]. cbn.
    rewrite f_fixed; [done|]. apply surrogate_plain. left. by apply Hlead.
  - cbn [map codePointsFrom]. rewrite map_high, map_low.
    assert (Hrest :
      (if isHighSurrogate c then codePointsFrom (Some (f c)) (map f s)
       else f c :: codePointsFrom None (map f s))
      = map f (if isHighSurrogate c then codePointsFrom (Some c) s
               else c :: codePointsFrom None s)).
    { destruct (isHighSurrogate c) eqn:E.
      - rewrite f_fixed by (apply surrogate_plain; by left).
        apply IH. by intros h [= <-].
      - cbn [map]. by rewrite IH. }
    destruct lead as [h|]; [|exact Hrest].
    assert (f h = h) as Eh
      by (apply f_fixed, surrogate_plain; left; by apply Hlead).
    destruct (isLowSurrogate c) eqn:E.
    + rewrite (f_fixed c) by (apply surrogate_plain; by right).
      cbn [map]. rewrite IH by done. f_equal.
      symmetry. apply f_fixed. unfold plain.
      apply orb_false_iff. split; [apply N.ltb_ge; lia|].
      apply andb_false_iff. right. apply N.ltb_ge. lia.
    + cbn [map]. rewrite Eh. f_equal. exact Hrest.
Qed.

Lemma followedByCased_map cps : followedByCased (map f cps) = followedByCased cps.
Proof.
  induction cps as [|c cps IH]; [done|]. cbn [map followedByCased].
  by rewrite f_ignorable, f_cased, IH.
Qed.

Lemma lowerFrom_map b cps : lowerFrom b (map f cps) = lowerFrom b cps.
Proof.
  revert b. induction cps as [|c cps IH]; intros b; [done|].
  cbn [map lowerFrom].
  by rewrite f_sigma, f_lower, f_ignorable, f_cased, followedByCased_map, IH.
Qed.

Lemma toLowerCase_map s : toLowerCase (map f s) = toLowerCase s.
Proof.
  unfold toLowerCase, codePoints. rewrite codePointsFrom_map by done.
  by rewrite lowerFrom_map.
Qed.

End LetterMap.

(** The ASCII letters are cased and not case-ignorable. *)
Lemma ascii_letter_cased c :
  65 ≤ c ≤ 90 →
  isCaseIgnorable (c + 32) = isCaseIgnorable c ∧ isCasedLetter (c + 32) = isCasedLetter c.
Proof.
  intros Hc.
  assert (H : forallb (λ n, let c := 65 + N.of_nat n in
                Bool.eqb (isCaseIgnorable (c + 32)) (isCaseIgnorable c)
                && Bool.eqb (isCasedLetter (c + 32)) (isCasedLetter c))
                (seq 0 26) = true) by (vm_compute; reflexivity).
  rewrite forallb_forall in H.
  specialize (H (N.to_nat (c - 65))).
  cbv zeta in H. rewrite N2Nat.id in H.
  replace (65 + (c - 65)) with c in H by lia.
  apply andb_true_iff in H as [H1 H2].
  - apply Bool.eqb_prop in H1, H2. done.
  - apply in_seq. lia.
Qed.

Lemma toLowerCase_asciiLower s : toLowerCase (asciiLower s) = toLowerCase s.
Proof.
  apply toLowerCase_map.
  - intros c. unfold plain, lowerChar. intros [H _]%orb_false_iff.
    apply N.ltb_ge in H.
    destruct ((65 <=? c) && (c <=? 90)) eqn:E; [|done].
    apply andb_true_iff in E as [E1%N.leb_le E2%N.leb_le]. lia.
  - intros c. unfold plain, lowerChar. intros H.
    destruct ((65 <=? c) && (c <=? 90)) eqn:E; [|done].
    apply andb_true_iff in E as [E1%N.leb_le E2%N.leb_le].
    apply orb_true_iff. left. apply N.ltb_lt. lia.
  - intros c. unfold lowerChar, capitalSigma. char_cases.
  - intros c. unfold lowerCp. rewrite lowerChar_ascii.
    destruct (N.ltb_spec c 128); [by rewrite lowerChar_idemp|].
    assert (lowerChar c = c) as -> by (unfold lowerChar; char_cases). done.
  - intros c. unfold lowerChar.
    destruct ((65 <=? c) && (c <=? 90)) eqn:E; [|done].
    apply andb_true_iff in E as [E1%N.leb_le E2%N.leb_le].
    by apply ascii_letter_cased.
  - intros c. unfold lowerChar.
    destruct ((65 <=? c) && (c <=? 90)) eqn:E; [|done].
    apply andb_true_iff in E as [E1%N.leb_le E2%N.leb_le].
    by apply ascii_letter_cased.
Qed.

Lemma CaseVariant_toLowerCase a b :
  CaseVariant a b → toLowerCase a = toLowerCase b.
Proof.
  intros H%CaseVariant_asciiLower.
  by rewrite <- (toLowerCase_asciiLower a), H, toLowerCase_asciiLower.
Qed.

(** *** The lower-case form *)

Lemma lowerForm_cases c :
  lowerForm c = c ∨ (lowerCp c = [lowerForm c] ∧ simpleLower c (lowerForm c) = true).
Proof.
  unfold lowerForm. destruct (lowerCp c) as [|x [|y l]]; [by left| |by left].
  destruct (simpleLower c x) eqn:E; [by right|by left].
Qed.

Lemma simpleLower_spec c x :
  simpleLower c x = true →
  plain c = true ∧ plain x = true ∧ c ≠ capitalSigma ∧ x ≠ capitalSigma
  ∧ (c <? 128) = (x <? 128)
  ∧ isSpace c = false ∧ isSpace x = false ∧ isDashB c = false ∧ isDashB x = false
  ∧ isCaseIgnorable c = isCaseIgnorable x
  ∧ isCasedLetter c = isCasedLetter x
  ∧ lowerCp x = [x].
Proof.
  unfold simpleLower.
  rewrite !andb_true_iff, !negb_true_iff, !N.eqb_neq, bool_decide_eq_true.
  intros [[[[[[[[[[[? ?] ?] ?] ?%Bool.eqb_prop] ?] ?] ?] ?] ?%Bool.eqb_prop] ?%Bool.eqb_prop] ?].
  done.
Qed.

Lemma toLowerCase_lowerForm s : toLowerCase (map lowerForm s) = toLowerCase s.
Proof.
  apply toLowerCase_map.
  - intros c Hc. destruct (lowerForm_cases c) as [?|[_ H]]; [done|].
    apply simpleLower_spec in H. destruct H as (H & _). congruence.
  - intros c Hc. destruct (lowerForm_cases c) as [->|[_ H]]; [done|].
    apply simpleLower_spec in H. by destruct H as (_ & H & _).
  - intros c. destruct (lowerForm_cases c) as [->|[_ H]]; [done|].
    apply simpleLower_spec in H. destruct H as (_ & _ & H1 & H2 & _).
    apply N.eqb_neq in H1, H2. by rewrite H1, H2.
  - intros c. destruct (lowerForm_cases c) as [->|[E H]]; [done|].
    apply simpleLower_spec in H. destruct H as (_&_&_&_&_&_&_&_&_&_&_&H).
    by rewrite H, E.
  - intros c. destruct (lowerForm_cases c) as [->|[_ H]]; [done|].
    apply simpleLower_spec in H. by destruct H as (_&_&_&_&_&_&_&_&_&H&_).
  - intros c. destruct (lowerForm_cases c) as [->|[_ H]]; [done|].
    apply simpleLower_spec in H. by destruct H as (_&_&_&_&_&_&_&_&_&_&H&_).
Qed.

Lemma LetterVariant_lowerForm a b :
  LetterVariant a b ↔ map lowerForm a = map lowerForm b.
Proof.
  unfold LetterVariant. split.
  - induction 1 as [|x y a b Hxy _ IH]; [done|]. cbn. by rewrite Hxy, IH.
  - revert b. induction a as [|x a IH]; intros [|y b] H; simplify_eq/=.
    + constructor.
    + constructor; [done|by apply IH].
Qed.

(** ** The region normaliser *)

(** C8.  [hemiToDB] is total with exactly two results: it answers
    [Northern] exactly for the inputs that are a letter-case variant of
    "Northern" or of "NH", and [Southern] for every other input, the
    missing one included; in particular every case variant of "Southern"
    or "SH" gives [Southern]. *)
Theorem hemiToDB_canonical (input : option str) :
  (hemiToDB input = Northern ∨ hemiToDB input = Southern)
  ∧ (hemiToDB input = Northern ↔
     ∃ s, input = Some s ∧
          (CaseVariant (lit "Northern") s ∨ CaseVariant (lit "NH") s))
  ∧ (hemiToDB input = Southern ↔
     ¬ ∃ s, input = Some s ∧
            (CaseVariant (lit "Northern") s ∨ CaseVariant (lit "NH") s))
  ∧ (∀ s, input = Some s →
          CaseVariant (lit "Southern") s ∨ CaseVariant (lit "SH") s →
          hemiToDB input = Southern)
  ∧ (input = None → hemiToDB input = Southern).
Proof.
  assert (Hn : hemiToDB input = Northern ↔
     ∃ s, input = Some s ∧
          (CaseVariant (lit "Northern") s ∨ CaseVariant (lit "NH") s)).
  { unfold hemiToDB. split.
    - destruct input as [s|]; [|by vm_compute].
      destruct s as [|c s]; [by vm_compute|].
      cbn [present truthy orEmpty]. intros H. exists (c :: s). split; [done|].
      rewrite (CaseVariant_plainWord (lit "Northern")),
        (CaseVariant_plainWord (lit "NH")) by (vm_compute; reflexivity).
      destruct (bool_decide _) eqn:E1.
      + left. apply bool_decide_eq_true in E1. exact E1.
      + destruct (bool_decide (_ = lit "nh")) eqn:E2; [|done].
        right. apply bool_decide_eq_true in E2. exact E2.
    - intros (s & -> & H).
      rewrite (CaseVariant_plainWord (lit "Northern")),
        (CaseVariant_plainWord (lit "NH")) in H by (vm_compute; reflexivity).
      assert (Hs : present (Some s) = true).
      { destruct s; [|done]. destruct H as [H|H]; vm_compute in H; discriminate H. }
      rewrite Hs. cbn [orEmpty].
      destruct H as [H|H]; rewrite H; vm_compute; reflexivity. }
  assert (Hs : hemiToDB input = Southern ↔ hemiToDB input ≠ Northern).
  { destruct (hemiToDB input); split; congruence. }
  split; [destruct (hemiToDB input); auto|].
  split; [exact Hn|].
  split; [by rewrite Hs, Hn|].
  split.
  - intros s -> H. apply Hs. rewrite Hn. intros (s' & [= <-] & H').
    rewrite (CaseVariant_plainWord (lit "Southern")),
      (CaseVariant_plainWord (lit "SH")) in H by (vm_compute; reflexivity).
    rewrite (CaseVariant_plainWord (lit "Northern")),
      (CaseVariant_plainWord (lit "NH")) in H' by (vm_compute; reflexivity).
    destruct H as [H|H], H' as [H'|H']; rewrite H in H'; vm_compute in H';
      discriminate H'.
  - intros ->. reflexivity.
Qed.

Lemma hemiToDB_canonical_witness :
  hemiToDB (Some (lit "nH")) = Northern ∧ hemiToDB (Some (lit "sOUTHern")) = Southern.
Proof.
  split.
  - apply (proj1 (proj2 (hemiToDB_canonical (Some (lit "nH"))))).
    exists (lit "nH"). split; [reflexivity|]. right.
    apply CaseVariant_asciiLower. reflexivity.
  - apply (proj1 (proj2 (proj2 (proj2 (hemiToDB_canonical (Some (lit "sOUTHern"))))))
             (lit "sOUTHern") eq_refl).
    left. apply CaseVariant_asciiLower. reflexivity.
Defined.

(** ** The equivalence of labels *)

Local Open Scope N_scope.

(** *** Whitespace: [trim] and the collapse as one pass *)

Lemma trimEnd_cons_nonspace c s :
  isSpace c = false → trimEnd (c :: s) = c :: trimEnd s.
Proof. intros Hc. simpl. rewrite Hc. by destruct (trimEnd s). Qed.

Lemma squeeze_trimEnd s :
  collapseFrom false (trimEnd s) = squeeze InWord s
  ∧ (trimEnd s = [] → squeeze InGap s = [])
  ∧ (trimEnd s ≠ [] → space :: collapseFrom true (trimEnd s) = squeeze InGap s).
Proof.
  induction s as [|c s (IH1 & IH2 & IH3)]; [done|].
  destruct (isSpace c) eqn:Hc.
  - cbn [squeeze trimEnd]. unfold wsEmit, wsNext. rewrite Hc.
    cbn [app]. destruct (trimEnd s) as [|t ts] eqn:Ht.
    + split; [by rewrite IH2|]. split; [by intros; apply IH2|done].
    + cbn [collapseFrom]. rewrite Hc. split; [by apply IH3|]. split; [done|].
      intros _. by apply IH3.
  - rewrite trimEnd_cons_nonspace by done. cbn [squeeze collapseFrom].
    unfold wsEmit, wsNext. rewrite Hc. cbn [app]. rewrite IH1. done.
Qed.

Lemma collapse_trim s : collapseSpaces (trim s) = squeeze AtStart s.
Proof.
  unfold collapseSpaces, trim. induction s as [|c s IH]; [done|].
  destruct (isSpace c) eqn:Hc.
  - cbn [squeeze trimEnd]. unfold wsEmit, wsNext. rewrite Hc. cbn [app].
    rewrite <- IH.
    destruct (trimEnd s); cbn [trimStart]; by rewrite ?Hc.
  - rewrite trimEnd_cons_nonspace by done. cbn [squeeze trimStart].
    unfold wsEmit, wsNext. rewrite Hc. cbn [app collapseFrom]. rewrite Hc.
    by rewrite (proj1 (squeeze_trimEnd s)).
Qed.

Lemma squeeze_app st a b :
  squeeze st (a ++ b) = squeeze st a ++ squeeze (wsAfter st a) b.
Proof.
  revert st. induction a as [|c a IH]; intros st; [done|].
  cbn [squeeze app]. rewrite IH. unfold wsAfter. cbn [foldl]. by rewrite app_assoc.
Qed.

Lemma wsAfter_app st a b : wsAfter st (a ++ b) = wsAfter (wsAfter st a) b.
Proof. apply foldl_app. Qed.

Lemma squeeze_blank st ws : Blank ws → squeeze st ws = [].
Proof.
  intros H. revert st. induction H as [|c ws Hc _ IH]; intros st; [done|].
  cbn [squeeze]. unfold wsEmit. by rewrite Hc, IH.
Qed.

Lemma wsAfter_blank st ws :
  Blank ws → ws ≠ [] →
  wsAfter st ws = match st with AtStart => AtStart | _ => InGap end.
Proof.
  intros H. revert st. induction H as [|c ws Hc Hws IH]; intros st Hne; [done|].
  unfold wsAfter. cbn [foldl]. fold (wsAfter (wsNext st c) ws).
  unfold wsNext at 1. rewrite Hc.
  destruct ws as [|c' ws']; [by destruct st|].
  rewrite IH by done. by destruct st.
Qed.

Lemma wsAfter_blank_start ws : Blank ws → wsAfter AtStart ws = AtStart.
Proof.
  intros H. destruct ws; [done|]. by rewrite wsAfter_blank.
Qed.

Lemma squeeze_pad a pre post :
  Blank pre → Blank post →
  squeeze AtStart (pre ++ a ++ post) = squeeze AtStart a.
Proof.
  intros Hpre Hpost.
  rewrite squeeze_app, (squeeze_blank _ _ Hpre), (wsAfter_blank_start _ Hpre).
  cbn [app]. rewrite squeeze_app, (squeeze_blank _ _ Hpost). apply app_nil_r.
Qed.

Lemma squeeze_run x y ws1 ws2 :
  ws1 ≠ [] → ws2 ≠ [] → Blank ws1 → Blank ws2 →
  squeeze AtStart (x ++ ws1 ++ y) = squeeze AtStart (x ++ ws2 ++ y).
Proof.
  intros Hn1 Hn2 H1 H2.
  rewrite !squeeze_app, (squeeze_blank _ _ H1), (squeeze_blank _ _ H2).
  by rewrite (wsAfter_blank _ ws1), (wsAfter_blank _ ws2).
Qed.

(** *** Character maps that respect whitespace *)

Lemma squeeze_map (f : N → N) st s :
  (∀ c, isSpace (f c) = isSpace c) → f space = space →
  squeeze st (map f s) = map f (squeeze st s).
Proof.
  intros Hsp Hf. revert st. induction s as [|c s IH]; intros st; [done|].
  cbn [squeeze map]. rewrite map_app, IH. f_equal.
  - unfold wsEmit. rewrite Hsp. destruct (isSpace c); [done|].
    destruct st; cbn [map]; by rewrite ?Hf.
  - unfold wsNext. by rewrite Hsp.
Qed.

Lemma isSpace_printable c : 33 ≤ c ≤ 159 → isSpace c = false.
Proof.
  intros Hc. unfold isSpace. rewrite !orb_false_iff. repeat split;
    first [ apply N.eqb_neq; lia
          | apply andb_false_iff; (left + right); apply N.leb_gt; lia ].
Qed.

Lemma isSpace_lowerChar c : isSpace (lowerChar c) = isSpace c.
Proof.
  unfold lowerChar. destruct ((65 <=? c) && (c <=? 90)) eqn:E; [|done].
  apply andb_true_iff in E as [E1%N.leb_le E2%N.leb_le].
  rewrite !isSpace_printable; [done| lia..].
Qed.

Lemma isSpace_dashChar c : isSpace (dashChar c) = isSpace c.
Proof.
  unfold dashChar, enDash, emDash, hyphen.
  destruct ((c =? 8211) || (c =? 8212)) eqn:E; [|done].
  apply orb_true_iff in E as [->%N.eqb_eq | ->%N.eqb_eq]; reflexivity.
Qed.

Lemma dashChar_lowerChar c : dashChar (lowerChar c) = lowerChar (dashChar c).
Proof. unfold dashChar, lowerChar, enDash, emDash, hyphen. char_cases. Qed.

Lemma trimStart_map (f : N → N) s :
  (∀ c, isSpace (f c) = isSpace c) →
  trimStart (map f s) = map f (trimStart s).
Proof.
  intros Hsp. induction s as [|c s IH]; [done|].
  cbn [map trimStart]. rewrite Hsp. by destruct (isSpace c).
Qed.

Lemma trimEnd_map (f : N → N) s :
  (∀ c, isSpace (f c) = isSpace c) →
  trimEnd (map f s) = map f (trimEnd s).
Proof.
  intros Hsp. induction s as [|c s IH]; [done|].
  cbn [map trimEnd]. rewrite IH, Hsp.
  destruct (trimEnd s); [by destruct (isSpace c)|done].
Qed.

Lemma forallb_isSpace_map (f : N → N) s :
  (∀ c, isSpace (f c) = isSpace c) →
  forallb isSpace (map f s) = forallb isSpace s.
Proof.
  intros Hsp. induction s as [|c s IH]; [done|].
  cbn [map forallb]. by rewrite Hsp, IH.
Qed.

(** *** The "cusp" suffix *)

Lemma lowerChar_letter x n :
  97 ≤ n ≤ 122 → lowerChar x = n → x = n ∨ x + 32 = n.
Proof. unfold lowerChar. intros Hn H. char_cases. Qed.

Lemma cuspAt_inv s rest :
  cuspAt s = Some rest →
  ∃ c u s1 p, s = c :: u :: s1 :: p :: rest
    ∧ (c = 99 ∨ c = 67) ∧ (u = 117 ∨ u = 85)
    ∧ (s1 = 115 ∨ s1 = 83) ∧ (p = 112 ∨ p = 80).
Proof.
  destruct s as [|c [|u [|s1 [|p r]]]]; try done. cbn [cuspAt].
  destruct (_ && _) eqn:E; [|done]. intros [= <-].
  apply andb_true_iff in E as [E Hp%N.eqb_eq].
  apply andb_true_iff in E as [E Hs%N.eqb_eq].
  apply andb_true_iff in E as [Hc%N.eqb_eq Hu%N.eqb_eq].
  apply lowerChar_letter in Hc, Hu, Hs, Hp; try lia.
  exists c, u, s1, p. repeat split; lia.
Qed.

Lemma cuspAt_intro c u s1 p rest :
  (c = 99 ∨ c = 67) → (u = 117 ∨ u = 85) → (s1 = 115 ∨ s1 = 83) →
  (p = 112 ∨ p = 80) →
  cuspAt (c :: u :: s1 :: p :: rest) = Some rest.
Proof. by intros [-> | ->] [-> | ->] [-> | ->] [-> | ->]. Qed.

Lemma cuspAt_map (f : N → N) s :
  (∀ c l, 97 ≤ l ≤ 122 → (lowerChar (f c) =? l) = (lowerChar c =? l)) →
  cuspAt (map f s) = map f <$> cuspAt s.
Proof.
  intros Hf. destruct s as [|c [|u [|s1 [|p r]]]]; try done.
  cbn [map cuspAt]. rewrite !Hf by lia. by destruct (_ && _).
Qed.

Lemma cuspTail_map (f : N → N) s :
  (∀ c, isSpace (f c) = isSpace c) →
  (∀ c l, 97 ≤ l ≤ 122 → (lowerChar (f c) =? l) = (lowerChar c =? l)) →
  cuspTail (map f s) = cuspTail s.
Proof.
  intros Hsp Hf. unfold cuspTail.
  rewrite trimStart_map, cuspAt_map by done.
  destruct (cuspAt (trimStart s)); [|done]. apply forallb_isSpace_map, Hsp.
Qed.

Lemma stripCusp_map (f : N → N) s :
  (∀ c, isSpace (f c) = isSpace c) →
  (∀ c l, 97 ≤ l ≤ 122 → (lowerChar (f c) =? l) = (lowerChar c =? l)) →
  stripCusp (map f s) = map f (stripCusp s).
Proof.
  intros Hsp Hf. induction s as [|c s IH].
  - cbn [map stripCusp]. by destruct (cuspTail []).
  - cbn [map stripCusp].
    change (f c :: map f s) with (map f (c :: s)) at 1.
    rewrite cuspTail_map by done.
    destruct (cuspTail (c :: s)); [done|]. cbn [map]. by rewrite IH.
Qed.

(** [norm] does not see a map of code units that keeps whitespace, the
    dashes, the letters of "cusp" and the lower case. *)
Lemma norm_map (f : N → N) s :
  (∀ c, isSpace (f c) = isSpace c) → f space = space →
  (∀ c l, 97 ≤ l ≤ 122 → (lowerChar (f c) =? l) = (lowerChar c =? l)) →
  (∀ c, dashChar (f c) = f (dashChar c)) →
  (∀ t, toLowerCase (map f t) = toLowerCase t) →
  norm (map f s) = norm s.
Proof.
  intros Hsp Hspace Hletter Hdash Hlower.
  unfold norm, dashesToHyphen. rewrite !collapse_trim.
  rewrite (squeeze_map f) by done.
  rewrite map_map.
  rewrite (map_ext (λ c, dashChar (f c)) (λ c, f (dashChar c))) by done.
  rewrite <- (map_map dashChar f).
  by rewrite stripCusp_map, Hlower by done.
Qed.

Lemma norm_asciiLower s : norm (asciiLower s) = norm s.
Proof.
  apply norm_map.
  - apply isSpace_lowerChar.
  - reflexivity.
  - intros c l _. by rewrite lowerChar_idemp.
  - apply dashChar_lowerChar.
  - apply toLowerCase_asciiLower.
Qed.

Lemma lowerForm_lowerChar c : lowerForm c = c ∨ lowerForm c = lowerChar c ∨ 128 ≤ c ∧ 128 ≤ lowerForm c.
Proof.
  destruct (lowerForm_cases c) as [?|[E H]]; [by left|right].
  apply simpleLower_spec in H. destruct H as (_ & _ & _ & _ & H & _).
  destruct (N.ltb_spec c 128) as [Hc|Hc].
  - left. rewrite (lowerCp_ascii c Hc) in E. congruence.
  - right. symmetry in H. apply N.ltb_ge in H. done.
Qed.

Lemma norm_lowerForm s : norm (map lowerForm s) = norm s.
Proof.
  apply norm_map.
  - intros c. destruct (lowerForm_cases c) as [->|[_ H]]; [done|].
    apply simpleLower_spec in H. destruct H as (_&_&_&_&_&H1&H2&_). congruence.
  - vm_compute. reflexivity.
  - intros c l Hl. destruct (lowerForm_lowerChar c) as [->|[->|[H1 H2]]]; [done| |].
    + by rewrite lowerChar_idemp.
    + assert (lowerChar c = c) as -> by (unfold lowerChar; char_cases).
      assert (lowerChar (lowerForm c) = lowerForm c) as ->
        by (unfold lowerChar; char_cases).
      destruct (N.eqb_spec c l), (N.eqb_spec (lowerForm c) l); lia || done.
  - intros c.
    assert (Hh : lowerForm hyphen = hyphen) by (vm_compute; reflexivity).
    assert (Hd : isDashB c = false → dashChar c = c).
    { unfold isDashB, dashChar, hyphen, enDash, emDash. intros H. char_cases. }
    assert (Hd' : isDashB c = true → dashChar c = hyphen ∧ lowerForm c = c).
    { intros Hc. split.
      - unfold isDashB, dashChar, hyphen, enDash, emDash in *. char_cases.
      - destruct (lowerForm_cases c) as [?|[_ H]]; [done|].
        apply simpleLower_spec in H. destruct H as (_&_&_&_&_&_&_&H&_). congruence. }
    destruct (isDashB c) eqn:Ec.
    + destruct (Hd' eq_refl) as [E1 E2]. by rewrite E2, E1, Hh.
    + rewrite (Hd eq_refl). destruct (lowerForm_cases c) as [->|[_ H]]; [by apply Hd|].
      apply simpleLower_spec in H. destruct H as (_&_&_&_&_&_&_&_&H&_).
      unfold isDashB, dashChar, hyphen, enDash, emDash in *.
      revert H. generalize (lowerForm c). intros x H. char_cases.
  - apply toLowerCase_lowerForm.
Qed.

Lemma norm_dashes s :
  norm s = toLowerCase (stripCusp (squeeze AtStart (dashesToHyphen s))).
Proof.
  unfold norm, dashesToHyphen. rewrite collapse_trim.
  by rewrite (squeeze_map dashChar) by (intros; rewrite ?isSpace_dashChar; done).
Qed.

Lemma DashVariant_dashesToHyphen a b :
  DashVariant a b → dashesToHyphen a = dashesToHyphen b.
Proof.
  unfold DashVariant, dashesToHyphen.
  induction 1 as [|x y a b Hxy _ IH]; [done|]. cbn [map]. f_equal; [|exact IH].
  destruct Hxy as [->|[Hx Hy]]; [done|].
  unfold isDash in *. by destruct Hx as [->|[->| ->]], Hy as [->|[->| ->]].
Qed.

(** *** Trailing whitespace *)

Lemma trimEnd_blank ws : Blank ws → trimEnd ws = [].
Proof.
  induction 1 as [|c ws Hc _ IH]; [done|]. cbn [trimEnd]. by rewrite IH, Hc.
Qed.

Lemma trimEnd_app_blank a ws : Blank ws → trimEnd (a ++ ws) = trimEnd a.
Proof.
  intros H. induction a as [|c a IH]; [by apply trimEnd_blank|].
  cbn [app trimEnd]. by rewrite IH.
Qed.

Lemma trimEnd_app a b : trimEnd b ≠ [] → trimEnd (a ++ b) = a ++ trimEnd b.
Proof.
  intros H. induction a as [|c a IH]; [done|].
  cbn [app trimEnd]. rewrite IH. by destruct (a ++ trimEnd b) eqn:E;
    [apply app_eq_nil in E as [_ ?]|].
Qed.

Lemma trimEnd_squeeze st s : trimEnd (squeeze st s) = squeeze st s.
Proof.
  revert st. induction s as [|c s IH]; intros st; [done|].
  cbn [squeeze]. unfold wsEmit, wsNext. destruct (isSpace c) eqn:Hc.
  - apply IH.
  - assert (H : trimEnd (c :: squeeze InWord s) = c :: squeeze InWord s)
      by (by rewrite trimEnd_cons_nonspace, IH).
    destruct st; cbn [app]; try exact H.
    change (space :: c :: squeeze InWord s) with ([space] ++ c :: squeeze InWord s).
    rewrite trimEnd_app; by rewrite H.
Qed.

Lemma cusp_letters c rest :
  cuspAt c = Some rest →
  ∃ k, c = k ++ rest ∧ length k = 4%nat ∧ cuspAt k = Some []
       ∧ Forall (fun x => isSpace x = false) k
       ∧ dashesToHyphen k = k ∧ trimEnd k = k ∧ k ≠ [].
Proof.
  intros (c1 & u & s1 & p & -> & H1 & H2 & H3 & H4)%cuspAt_inv.
  exists [c1; u; s1; p]. split; [done|]. split; [done|].
  by destruct H1 as [-> | ->], H2 as [-> | ->], H3 as [-> | ->], H4 as [-> | ->];
    repeat split; try done; repeat constructor.
Qed.

Lemma cuspTail_inv s :
  cuspTail s = true →
  ∃ lead k rest, s = lead ++ k ++ rest ∧ Blank lead ∧ cuspAt k = Some []
                 ∧ length k = 4%nat ∧ trimEnd k = k ∧ k ≠ [] ∧ Blank rest.
Proof.
  unfold cuspTail. intros H.
  assert (Hlead : ∃ lead, s = lead ++ trimStart s ∧ Blank lead).
  { clear H. induction s as [|c s (lead & IH & Hb)];
      [exists []; split; [done|constructor]|].
    cbn [trimStart]. destruct (isSpace c) eqn:Hc.
    - exists (c :: lead). split; [by rewrite IH at 1|by constructor].
    - exists []. split; [done|constructor]. }
  destruct Hlead as (lead & Hs & Hb).
  destruct (cuspAt (trimStart s)) as [rest|] eqn:Hk; [|done].
  apply cusp_letters in Hk as (k & Hk & Hlen & Hcusp & _ & _ & Htrim & Hne).
  exists lead, k, rest. rewrite <- Hk. split; [done|]. repeat split; try done.
  by apply Forall_forall; intros x Hx; rewrite forallb_forall in H;
    apply H, list_elem_of_In.
Qed.

Lemma stripCusp_app_cusp X sep c :
  trimEnd X = X → Blank sep → cuspAt c = Some [] →
  stripCusp (X ++ sep ++ c) = X.
Proof.
  intros HX Hsep Hc.
  destruct (cusp_letters _ _ Hc) as (k & Hk & Hlen & _ & Hns & _ & Htrim & Hne).
  rewrite app_nil_r in Hk. subst k.
  induction X as [|x X IH].
  - cbn [app]. assert (Ht : cuspTail (sep ++ c) = true).
    { unfold cuspTail.
      assert (trimStart (sep ++ c) = c) as ->.
      { clear -Hsep Hns Hne. induction Hsep as [|y sep Hy _ IH].
        - destruct c as [|c1 c]; [done|]. cbn [app trimStart].
          apply Forall_cons in Hns as [-> _]. done.
        - cbn [app trimStart]. by rewrite Hy. }
      by rewrite Hc. }
    destruct (sep ++ c); cbn [stripCusp]; by rewrite Ht.
  - assert (HX' : trimEnd X = X).
    { cbn [trimEnd] in HX. destruct (trimEnd X) eqn:E.
      - destruct (isSpace x); [done|]. by injection HX as <-.
      - by injection HX. }
    cbn [app stripCusp].
    destruct (cuspTail (x :: X ++ sep ++ c)) eqn:Ht; [|by rewrite IH].
    exfalso. apply cuspTail_inv in Ht
      as (lead & k & rest & Hz & Hlead & _ & Hklen & Hktrim & Hkne & Hrest).
    assert (Hz' := f_equal trimEnd Hz).
    change (x :: X ++ sep ++ c) with ((x :: X) ++ sep ++ c) in Hz, Hz'.
    rewrite (app_assoc (x :: X)), (app_assoc lead) in Hz'.
    rewrite (trimEnd_app_blank _ rest Hrest) in Hz'.
    rewrite !trimEnd_app in Hz' by (by rewrite ?Htrim, ?Hktrim).
    rewrite Htrim, Hktrim in Hz'.
    apply app_inj_2 in Hz' as [Hz' _]; [|congruence].
    assert (Blank (x :: X)) as Hbl.
    { rewrite <- Hz' in Hlead. by apply Forall_app in Hlead as [? _]. }
    apply trimEnd_blank in Hbl. congruence.
Qed.

Lemma Suffixed_cons x s : Suffixed s → Suffixed (x :: s).
Proof. intros (p & c & ws & -> & ?). by exists (x :: p), c, ws. Qed.

Lemma stripCusp_unsuffixed s : ¬ Suffixed s → stripCusp s = s.
Proof.
  induction s as [|x s IH]; intros Hn.
  - cbn [stripCusp]. by destruct (cuspTail []).
  - cbn [stripCusp]. destruct (cuspTail (x :: s)) eqn:Ht.
    + exfalso. apply Hn.
      apply cuspTail_inv in Ht as (lead & k & rest & -> & _ & Hk & _ & _ & _ & Hr).
      by exists lead, k, rest.
    + rewrite IH; [done|]. intros H. by apply Hn, Suffixed_cons.
Qed.

Lemma Suffixed_dashesToHyphen s : Suffixed (dashesToHyphen s) → Suffixed s.
Proof.
  unfold dashesToHyphen. intros (p & c & ws & Hs & Hc & Hws).
  apply map_eq_app in Hs as (p0 & r0 & -> & Hp & Hr).
  apply map_eq_app in Hr as (c0 & ws0 & -> & Hc0 & Hws0).
  exists p0, c0, ws0. split; [done|]. subst c ws. split.
  - apply cuspAt_inv in Hc as (c1 & u & s1 & q & Hc & H1 & H2 & H3 & H4).
    destruct c0 as [|d1 [|d2 [|d3 [|d4 [|? ?]]]]]; try done.
    injection Hc as <- <- <- <-.
    assert (Hd : ∀ d n, (dashChar d = n ∨ dashChar d = n - 32) →
                        97 ≤ n ≤ 122 → dashChar d = d).
    { intros d n Hdn Hn. unfold dashChar, hyphen in *.
      destruct ((d =? enDash) || (d =? emDash)); [lia|done]. }
    rewrite <- (Hd d1 99), <- (Hd d2 117), <- (Hd d3 115), <- (Hd d4 112)
      by (try lia; tauto).
    by apply cuspAt_intro.
  - unfold Blank in *. rewrite Forall_forall in Hws |- *. intros x Hx.
    rewrite <- isSpace_dashChar. apply Hws. apply list_elem_of_In, in_map.
    by apply list_elem_of_In.
Qed.

Lemma squeeze_snoc st s x :
  squeeze st (s ++ [x]) = squeeze st s ++ wsEmit (wsAfter st s) x.
Proof. rewrite squeeze_app. cbn [squeeze]. by rewrite app_nil_r. Qed.

Lemma wsAfter_snoc st s x : wsAfter st (s ++ [x]) = wsNext (wsAfter st s) x.
Proof. unfold wsAfter. by rewrite foldl_app. Qed.

Lemma snoc_cases (l : str) : l = [] ∨ ∃ l' x, l = l' ++ [x].
Proof. induction l using rev_ind; eauto. Qed.

(** A run of non-blank code units at the end of the squeezed string is at
    the end of the string itself, up to trailing whitespace. *)
Lemma squeeze_suffix a p t :
  Forall (fun x => isSpace x = false) t →
  squeeze AtStart a = p ++ t →
  ∃ p' ws, a = p' ++ t ++ ws ∧ Blank ws.
Proof.
  revert p t. induction a as [|x a0 IH] using rev_ind; intros p t Ht Heq.
  { apply eq_sym, app_eq_nil in Heq as [_ ->]. exists [], []. split; [done|constructor]. }
  rewrite squeeze_snoc in Heq. unfold wsEmit in Heq.
  destruct (isSpace x) eqn:Hx.
  - rewrite app_nil_r in Heq. destruct (IH _ _ Ht Heq) as (p' & ws & -> & Hws).
    exists p', (ws ++ [x]). split; [by rewrite <- !app_assoc|].
    apply Forall_app. split; [done|by repeat constructor].
  - destruct (snoc_cases t) as [->|(t0 & x' & ->)].
    { exists (a0 ++ [x]), []. split; [by rewrite app_nil_r|constructor]. }
    apply Forall_app in Ht as [Ht0 Hx'].
    destruct (snoc_cases t0) as [->|(t1 & y & ->)].
    { exists a0, []. cbn [app] in *.
      assert (x' = x) as ->; [|by split; [|constructor]].
      destruct (wsAfter AtStart a0);
        [apply app_inj_2 in Heq as [_ [= ->]]; done..|].
      change [space; x] with ([space] ++ [x]) in Heq. rewrite app_assoc in Heq.
      by apply app_inj_2 in Heq as [_ [= ->]]. }
    apply Forall_app in Ht0 as [Ht1 Hy]. rewrite Forall_singleton in Hy.
    destruct (wsAfter AtStart a0) eqn:Hst.
    3:{ exfalso. change [space; x] with ([space] ++ [x]) in Heq.
        rewrite !app_assoc in Heq. apply app_inj_2 in Heq as [Heq _]; [|done].
        apply app_inj_2 in Heq as [_ [= <-]]; [|done]. by vm_compute in Hy. }
    all: rewrite !app_assoc in Heq; apply app_inj_2 in Heq as [Heq [= ->]]; [|done].
    all: rewrite <- app_assoc in Heq.
    all: destruct (IH p (t1 ++ [y])) as (p' & ws & Ha0 & Hws);
           [by apply Forall_app; split; [|constructor]|done|].
    all: assert (ws = []) as ->;
           [|exists p', []; split; [by rewrite Ha0, !app_nil_r, <- !app_assoc|constructor]].
    all: destruct ws as [|w ws]; [done|exfalso].
    all: rewrite Ha0, !app_assoc, (wsAfter_app _ _ (w :: ws)) in Hst.
    all: rewrite wsAfter_blank in Hst by done.
    all: rewrite wsAfter_snoc in Hst; unfold wsNext in Hst at 1; by rewrite Hy in Hst.
Qed.

Lemma Suffixed_squeeze a : Suffixed (squeeze AtStart a) → Suffixed a.
Proof.
  intros (p & c & ws & Hs & Hc & Hws).
  destruct (cusp_letters _ _ Hc) as (k & Hk & _ & _ & Hns & _ & Htrim & Hne).
  rewrite app_nil_r in Hk. subst k.
  assert (ws = []) as ->.
  { pose proof (trimEnd_squeeze AtStart a) as Ht. rewrite Hs in Ht.
    rewrite app_assoc, trimEnd_app_blank in Ht by done.
    rewrite trimEnd_app, Htrim in Ht by (by rewrite Htrim).
    rewrite <- (app_nil_r (p ++ c)) in Ht at 1. by apply app_inv_head in Ht. }
  rewrite app_nil_r in Hs.
  destruct (squeeze_suffix _ _ _ Hns Hs) as (p' & ws & -> & Hws').
  by exists p', c, ws.
Qed.

(** Appending a suffix to [a]: what [norm] sees of it. *)
Lemma squeeze_app_cusp a ws c :
  Blank ws → cuspAt c = Some [] →
  ∃ sep, Blank sep ∧ squeeze AtStart (a ++ ws ++ c) = squeeze AtStart a ++ sep ++ c.
Proof.
  intros Hws Hc.
  apply cuspAt_inv in Hc as (c1 & u & s1 & p & -> & H1 & H2 & H3 & H4).
  rewrite !squeeze_app, (squeeze_blank _ _ Hws). cbn [app].
  set (st := wsAfter (wsAfter AtStart a) ws). clearbody st.
  exists (match st with InGap => [space] | _ => [] end). split.
  { destruct st; repeat constructor. }
  f_equal.
  by destruct H1 as [-> | ->], H2 as [-> | ->], H3 as [-> | ->], H4 as [-> | ->];
    destruct st.
Qed.

Lemma norm_cusp_suffix a ws c :
  ¬ Suffixed a → Blank ws → cuspAt c = Some [] → norm (a ++ ws ++ c) = norm a.
Proof.
  intros Hn Hws Hc. unfold norm. rewrite !collapse_trim.
  destruct (squeeze_app_cusp a ws c Hws Hc) as (sep & Hsep & ->).
  destruct (cusp_letters _ _ Hc) as (k & Hk & _ & _ & _ & Hd & _).
  rewrite app_nil_r in Hk. subst k.
  unfold dashesToHyphen in *. rewrite !map_app, Hd.
  rewrite stripCusp_app_cusp; [| |
    by unfold Blank in *; rewrite Forall_forall in Hsep |- *;
       intros x (y & <- & Hy%list_elem_of_In)%list_elem_of_In%in_map_iff;
       rewrite isSpace_dashChar; apply Hsep |done].
  2:{ rewrite trimEnd_map by apply isSpace_dashChar. by rewrite trimEnd_squeeze. }
  rewrite stripCusp_unsuffixed; [done|].
  intros H. by apply Hn, Suffixed_squeeze, Suffixed_dashesToHyphen.
Qed.

(** A variant of a non-empty label is non-empty and has the same normal
    form. *)
Lemma LabelVariant_norm a a' :
  LabelVariant a a' → a ≠ [] → a' ≠ [] ∧ norm a' = norm a.
Proof.
  induction 1 as [a b H|a b H|a b H|a pre post Hpre Hpost|x y ws1 ws2 Hn1 Hn2 H1 H2
                  |a ws c Hn Hws Hc|a b c _ IH1 _ IH2]; intros Hne.
  - apply CaseVariant_asciiLower in H. split.
    + intros ->. by destruct a.
    + by rewrite <- (norm_asciiLower b), <- H, norm_asciiLower.
  - apply LetterVariant_lowerForm in H. split.
    + intros ->. by destruct a.
    + by rewrite <- (norm_lowerForm b), <- H, norm_lowerForm.
  - split.
    + intros ->. apply Forall2_nil_inv_r in H. done.
    + apply DashVariant_dashesToHyphen in H. by rewrite !norm_dashes, H.
  - split.
    + intros H. apply app_eq_nil in H as [_ H]. by apply app_eq_nil in H as [? _].
    + unfold norm. by rewrite !collapse_trim, squeeze_pad.
  - split.
    + intros H. apply app_eq_nil in H as [_ H]. by apply app_eq_nil in H as [? _].
    + unfold norm. by rewrite !collapse_trim, (squeeze_run x y ws1 ws2).
  - split.
    + intros H. by apply app_eq_nil in H as [? _].
    + by apply norm_cusp_suffix.
  - destruct (IH1 Hne) as [Hb E1]. destruct (IH2 Hb) as [Hc E2].
    split; [done|congruence].
Qed.

Lemma rowMatchesSign_Some a b :
  a ≠ [] → b ≠ [] →
  rowMatchesSign (Some a) (Some b) = bool_decide (norm a = norm b).
Proof. by destruct a, b. Qed.

Lemma rowMatchesSign_sym a b : rowMatchesSign a b = rowMatchesSign b a.
Proof.
  unfold rowMatchesSign. rewrite orb_comm.
  destruct (_ || _); [done|]. apply bool_decide_ext. split; congruence.
Qed.

Lemma classic_suffixed s : Suffixed s ∨ ¬ Suffixed s.
Proof.
  induction s as [|x s IH].
  - right. intros (p & c & ws & H & Hc & _).
    apply eq_sym, app_eq_nil in H as [_ H]. apply app_eq_nil in H as [-> _]. done.
  - destruct IH as [IH|IH]; [left; by apply Suffixed_cons|].
    destruct (cuspTail (x :: s)) eqn:Ht.
    + left. apply cuspTail_inv in Ht as (lead & k & rest & -> & _ & Hk & _ & _ & _ & Hr).
      by exists lead, k, rest.
    + right. intros (p & c & ws & H & Hc & Hws). destruct p as [|y p].
      * cbn [app] in H. rewrite H in Ht.
        apply cuspAt_inv in Hc as (c1 & u & s1 & q & -> & H1 & H2 & H3 & H4).
        unfold cuspTail in Ht. cbn [app trimStart] in Ht.
        rewrite isSpace_printable in Ht by lia.
        rewrite (cuspAt_intro c1 u s1 q ws H1 H2 H3 H4) in Ht.
        apply not_true_iff_false in Ht. apply Ht, forallb_forall.
        intros z Hz%list_elem_of_In.
        unfold Blank in Hws. rewrite Forall_forall in Hws. by apply Hws.
      * injection H as -> ->. apply IH. by exists p, c, ws.
Qed.

(** [Suffixed] is what the suffix pattern of [norm] detects. *)
Lemma Suffixed_stripCusp s : Suffixed s ↔ stripCusp s ≠ s.
Proof.
  split.
  - intros (p & c & ws & -> & Hc & Hws) Heq.
    assert (Hlen : (length (stripCusp (p ++ c ++ ws)) < length (p ++ c ++ ws))%nat);
      [|rewrite Heq in Hlen; lia].
    clear Heq. induction p as [|x p IH].
    + cbn [app].
      assert (Ht : cuspTail (c ++ ws) = true).
      { apply cuspAt_inv in Hc as (c1 & u & s1 & q & -> & H1 & H2 & H3 & H4).
        unfold cuspTail. cbn [app trimStart].
        rewrite isSpace_printable by lia.
        rewrite (cuspAt_intro c1 u s1 q ws H1 H2 H3 H4).
        apply forallb_forall. intros y Hy%list_elem_of_In.
        unfold Blank in Hws. rewrite Forall_forall in Hws. by apply Hws. }
      destruct (c ++ ws) as [|y l] eqn:E; [by destruct c|].
      cbn [stripCusp]. rewrite Ht. simpl. lia.
    + cbn [app stripCusp]. destruct (cuspTail _); simpl in *; lia.
  - intros Hne. destruct (classic_suffixed s) as [H|H]; [done|].
    by apply stripCusp_unsuffixed in H.
Qed.

(** C3, amended.  [rowMatchesSign] is symmetric, and reflexive on the
    non-empty labels.  For a non-empty label [a], comparing a variant [a']
    of it gives what comparing [a] gives, on either side, where a variant
    changes the case of letters that have a simple lower-case form (the
    ASCII letters, and with them the accented Latin, the Greek other than
    capital sigma, the Cyrillic letters), the style of dashes, the
    whitespace around the label or the length of a run of whitespace
    inside it, or appends "cusp" in any case (after any whitespace) to a
    label that does not end in it yet. *)
Theorem rowMatchesSign_equivalence a a' b :
  a ≠ [] → LabelVariant a a' →
  rowMatchesSign (Some a) (Some a) = true
  ∧ rowMatchesSign (Some a) (Some b) = rowMatchesSign (Some b) (Some a)
  ∧ rowMatchesSign (Some a') (Some b) = rowMatchesSign (Some a) (Some b)
  ∧ rowMatchesSign (Some b) (Some a') = rowMatchesSign (Some b) (Some a).
Proof.
  intros Hne Hv. destruct (LabelVariant_norm _ _ Hv Hne) as [Hne' Hnorm].
  split; [by rewrite rowMatchesSign_Some, bool_decide_eq_true|].
  split; [apply rowMatchesSign_sym|].
  assert (H : rowMatchesSign (Some a') (Some b) = rowMatchesSign (Some a) (Some b)).
  { destruct b as [|y b]; [by destruct a, a'|].
    by rewrite !rowMatchesSign_Some, Hnorm. }
  split; [exact H|]. by rewrite !(rowMatchesSign_sym (Some b)).
Qed.

Local Open Scope Z_scope.

(** ** Lists without duplicates and without empty strings *)

Lemma elem_of_uniq (l : list str) x : x ∈ uniq l ↔ x ∈ l.
Proof.
  induction l as [|y l IH]; [done|]. simpl.
  rewrite !elem_of_cons, list_elem_of_filter, IH.
  destruct (decide (x = y)); naive_solver.
Qed.

Lemma NoDup_uniq (l : list str) : NoDup (uniq l).
Proof.
  induction l as [|y l IH]; simpl; constructor.
  - rewrite list_elem_of_filter. naive_solver.
  - by apply NoDup_filter.
Qed.

Lemma sublist_uniq (l : list str) : uniq l `sublist_of` l.
Proof.
  induction l as [|y l IH]; [done|]. simpl. apply sublist_skip.
  etrans; [apply sublist_filter | exact IH].
Qed.

Lemma elem_of_filterTruthy (l : list str) x :
  x ∈ filterTruthy l ↔ x ∈ l ∧ x ≠ [].
Proof.
  unfold filterTruthy. rewrite list_elem_of_filter.
  destruct x; naive_solver.
Qed.

Lemma filterTruthy_id (l : list str) :
  Forall (fun x => x ≠ []) l → filterTruthy l = l.
Proof.
  unfold filterTruthy. induction 1 as [|x l Hx _ IH]; [done|].
  rewrite filter_cons_True by (by destruct x). by rewrite IH.
Qed.

(** ** The anchor builder *)

Lemma ymdOfLocal_nonempty t : ymdOfLocal t ≠ [].
Proof.
  unfold ymdOfLocal. destruct (civilFromDays _) as [[y m] d].
  destruct (decimal y); discriminate.
Qed.

(** *** The calendar *)

Lemma civilFromDays_range n y m d :
  civilFromDays n = (y, m, d) → 1 ≤ m ≤ 12 ∧ 1 ≤ d ≤ 31.
Proof.
  unfold civilFromDays. intros [= <- <- <-].
  destruct (_ <? 10) eqn:E; [apply Z.ltb_lt in E|apply Z.ltb_ge in E];
    Z.div_mod_to_equations; lia.
Qed.

Lemma daysFromCivil_civilFromDays n :
  let '(y, m, d) := civilFromDays n in daysFromCivil y m d = n.
Proof.
  unfold civilFromDays, daysFromCivil.
  set (mp := (5 * _ + 2) / 153).
  destruct (mp <? 10) eqn:Hmp;
    [apply Z.ltb_lt in Hmp | apply Z.ltb_ge in Hmp];
    (destruct (_ <=? 2) eqn:Hm; [apply Z.leb_le in Hm | apply Z.leb_gt in Hm]);
    subst mp; Z.div_mod_to_equations; lia.
Qed.

Lemma daysFromCivil_years y y' m d :
  y < y' → 365 ≤ daysFromCivil y' m d - daysFromCivil y m d.
Proof.
  intros Hy. unfold daysFromCivil.
  destruct (Z.leb_spec m 2); Z.div_mod_to_equations; lia.
Qed.

(** Two days less than a year apart differ in month or day of month. *)
Lemma civilFromDays_near n k y m d y' m' d' :
  0 < k < 365 →
  civilFromDays n = (y, m, d) → civilFromDays (n + k) = (y', m', d') →
  (m, d) ≠ (m', d').
Proof.
  intros Hk H1 H2 [= <- <-].
  pose proof (daysFromCivil_civilFromDays n) as R1.
  pose proof (daysFromCivil_civilFromDays (n + k)) as R2.
  rewrite H1 in R1. rewrite H2 in R2.
  destruct (Z.lt_trichotomy y y') as [Hy|[->|Hy]].
  - pose proof (daysFromCivil_years y y' m d Hy). lia.
  - lia.
  - pose proof (daysFromCivil_years y' y m d Hy). lia.
Qed.

Lemma pad2_twoDigits a : 0 ≤ a ≤ 31 → pad2 a = twoDigits a.
Proof.
  intros Ha.
  assert (Hall : forallb (fun i => bool_decide (pad2 (Z.of_nat i) = twoDigits (Z.of_nat i)))
                         (seq 0 32) = true) by (vm_compute; reflexivity).
  rewrite forallb_forall in Hall.
  specialize (Hall (Z.to_nat a)). rewrite Z2Nat.id in Hall by lia.
  eapply bool_decide_eq_true_1, Hall, in_seq. lia.
Qed.

Lemma pad2_inj a b : 0 ≤ a ≤ 31 → 0 ≤ b ≤ 31 → pad2 a = pad2 b → a = b.
Proof.
  intros Ha Hb. rewrite !pad2_twoDigits by done. unfold twoDigits.
  intros [= H1 H2]. apply N.add_cancel_l in H1, H2.
  apply Z2N.inj in H1, H2; Z.div_mod_to_equations; lia.
Qed.

Lemma ymdOfLocal_near t k :
  0 < k < 365 → ymdOfLocal t ≠ ymdOfLocal (t + k * msPerDay).
Proof.
  intros Hk. unfold ymdOfLocal.
  rewrite Z.div_add by (by vm_compute).
  destruct (civilFromDays (t / msPerDay)) as [[y m] d] eqn:E1.
  destruct (civilFromDays (t / msPerDay + k)) as [[y' m'] d'] eqn:E2.
  pose proof (civilFromDays_range _ _ _ _ E1) as [Hm Hd].
  pose proof (civilFromDays_range _ _ _ _ E2) as [Hm' Hd'].
  intros Heq. apply (civilFromDays_near _ _ _ _ _ _ _ _ Hk E1 E2).
  rewrite !pad2_twoDigits in Heq by lia.
  apply app_inj_2 in Heq as [_ Heq]; [|done].
  injection Heq as H1 H2 H3 H4.
  f_equal; apply pad2_inj; try lia; rewrite !pad2_twoDigits by lia;
    unfold twoDigits; congruence.
Qed.

(** *** The anchors *)

(** What holds of the anchors at every instant and in every zone: no
    duplicates, candidates in their priority order, today in the user's
    zone first, between one and five entries, and at least three when the
    three dates read in the user's zone differ from one another. *)
Lemma buildDailyAnchors_shape clk d :
  let tz := getUserTimeZone clk in
  let l := buildDailyAnchors clk d in
  NoDup l
  ∧ l `sublist_of` anchorCandidates clk d
  ∧ (∀ a, a ∈ l ↔ a ∈ anchorCandidates clk d)
  ∧ head l = Some (ymdInTZ d tz)
  ∧ (1 ≤ length l ≤ 5)%nat
  ∧ (ymdInTZ (d - msPerDay) tz ≠ ymdInTZ d tz →
     ymdInTZ (d + msPerDay) tz ≠ ymdInTZ d tz →
     ymdInTZ (d - msPerDay) tz ≠ ymdInTZ (d + msPerDay) tz →
     (3 ≤ length l)%nat).
Proof.
  intros tz l.
  assert (Hne : Forall (fun x => x ≠ []) (anchorCandidates clk d)).
  { unfold anchorCandidates, ymdInTZ, anchorUTC, anchorLocal.
    repeat constructor; apply ymdOfLocal_nonempty. }
  assert (Hl : l = uniq (anchorCandidates clk d)).
  { unfold l, buildDailyAnchors. apply filterTruthy_id.
    rewrite Forall_forall in Hne |- *. intros x Hx. apply Hne.
    by apply elem_of_uniq. }
  assert (Hnd : NoDup l) by (rewrite Hl; apply NoDup_uniq).
  assert (Hsub : l `sublist_of` anchorCandidates clk d)
    by (rewrite Hl; apply sublist_uniq).
  assert (Hin : ∀ a, a ∈ l ↔ a ∈ anchorCandidates clk d)
    by (intros a; rewrite Hl; apply elem_of_uniq).
  split; [exact Hnd|]. split; [exact Hsub|]. split; [exact Hin|].
  split; [by rewrite Hl|].
  split.
  - split.
    + rewrite Hl. simpl. lia.
    + apply sublist_length in Hsub. exact Hsub.
  - intros H1 H2 H3.
    assert (Hsub3 : [ymdInTZ d tz; ymdInTZ (d - msPerDay) tz; ymdInTZ (d + msPerDay) tz]
                    ⊆+ l).
    { apply NoDup_submseteq.
      - repeat constructor; set_solver.
      - intros x Hx. apply Hin. unfold anchorCandidates. fold tz.
        change (24 * 60 * 60 * 1000) with msPerDay. set_solver. }
    apply submseteq_length in Hsub3. exact Hsub3.
Qed.

(** Where the user's zone keeps its offset from a day before to a day
    after the instant, yesterday, today and tomorrow are three dates and
    the list has between three and five anchors. *)
Lemma buildDailyAnchors_steady_zone clk d :
  getUserTimeZone clk (d - msPerDay) = getUserTimeZone clk d →
  getUserTimeZone clk (d + msPerDay) = getUserTimeZone clk d →
  (3 ≤ length (buildDailyAnchors clk d) ≤ 5)%nat.
Proof.
  intros Hy Ht.
  destruct (buildDailyAnchors_shape clk d) as (_ & _ & _ & _ & [_ H5] & H3).
  split; [|exact H5]. unfold ymdInTZ in H3. rewrite Hy, Ht in H3.
  set (L := d + getUserTimeZone clk d) in *.
  replace (d - msPerDay + getUserTimeZone clk d) with (L - msPerDay) in H3 by (unfold L; lia).
  replace (d + msPerDay + getUserTimeZone clk d) with (L + msPerDay) in H3 by (unfold L; lia).
  apply H3.
  - intros H. apply (ymdOfLocal_near (L - msPerDay) 1); [lia|].
    rewrite H. f_equal; lia.
  - intros H. apply (ymdOfLocal_near L 1); [lia|].
    rewrite <- H. f_equal; lia.
  - intros H. apply (ymdOfLocal_near (L - msPerDay) 2); [lia|].
    rewrite H. f_equal; lia.
Qed.

(** C4.  At 23:30 New York time on the day daylight saving time ends, the
    instant 24 hours earlier still lies on the same local day: the
    "yesterday" candidate equals today's, and only two anchors remain. *)
Theorem buildDailyAnchors_dst_two_anchors :
  buildDailyAnchors newYorkLateEvening (now newYorkLateEvening)
  = [lit "2024-11-03"; lit "2024-11-04"]
  ∧ ymdInTZ (now newYorkLateEvening - 24 * 60 * 60 * 1000)
            (getUserTimeZone newYorkLateEvening)
    = ymdInTZ (now newYorkLateEvening) (getUserTimeZone newYorkLateEvening)
  ∧ length (buildDailyAnchors newYorkLateEvening (now newYorkLateEvening)) = 2%nat.
Proof. vm_compute. done. Qed.

(** C5.  A supplied, non-empty [forceDate] is the only anchor, whatever
    the clock and the time zones are. *)
Theorem anchorsFor_forceDate clk opts d :
  forceDate opts = Some d → d ≠ [] → anchorsFor clk opts = [d].
Proof.
  intros Hd Hne. unfold anchorsFor. rewrite Hd. by destruct d.
Qed.

Lemma anchorsFor_forceDate_witness :
  anchorsFor sydneyMorning (forced "2024-01-15" None) = [lit "2024-01-15"].
Proof.
  apply (anchorsFor_forceDate sydneyMorning _ (lit "2024-01-15")).
  - reflexivity.
  - vm_compute. discriminate.
Defined.

(** C5, as stated, fails for the empty override: [forceDate: ''] is
    falsy, so the anchors are the clock-derived ones. *)
Lemma anchorsFor_empty_forceDate :
  forceDate (forced "" None) = Some []
  ∧ anchorsFor sydneyMorning (forced "" None) ≠ [[]]
  ∧ anchorsFor sydneyMorning (forced "" None)
    = [lit "2024-11-03"; lit "2024-11-02"; lit "2024-11-04"].
Proof. vm_compute. split; [done|]. split; [discriminate|done]. Qed.

(** ** Sign attempts *)

Lemma parts_nonempty label p :
  p ∈ parts (normalizeSignForDaily label) → p ≠ [].
Proof.
  unfold normalizeSignForDaily. destruct (truthy label); simpl.
  - rewrite elem_of_filterTruthy. tauto.
  - by intros ?%not_elem_of_nil.
Qed.

(** C10.  For a label in which [/\bcusp\b/i] finds nothing, every
    component is among the attempts whatever [allowTrueSignFallback] is,
    and the flag does not change the attempts at all. *)
Theorem buildSignAttemptsForDaily_components label allow p :
  isCusp (normalizeSignForDaily label) = false →
  p ∈ parts (normalizeSignForDaily label) →
  p ∈ buildSignAttemptsForDaily label allow
  ∧ buildSignAttemptsForDaily label allow
    = buildSignAttemptsForDaily label (negb allow).
Proof.
  intros Hc Hp. unfold buildSignAttemptsForDaily. rewrite Hc. simpl.
  split; [|done].
  pose proof (parts_nonempty _ _ Hp) as Hne.
  rewrite elem_of_filterTruthy, elem_of_uniq, !elem_of_app, elem_of_filterTruthy.
  auto.
Qed.

Lemma buildSignAttemptsForDaily_components_witness :
  lit "Taurus" ∈ buildSignAttemptsForDaily (lit "aries - taurus") false
  ∧ buildSignAttemptsForDaily (lit "aries - taurus") false
    = buildSignAttemptsForDaily (lit "aries - taurus") true.
Proof.
  apply (buildSignAttemptsForDaily_components (lit "aries - taurus") false (lit "Taurus")).
  - reflexivity.
  - vm_compute. apply list_elem_of_further, list_elem_of_here.
Defined.

(** ** The staged lookup *)

Section EngineProperties.

Variable remote : Query → Response.
Variable isoNextDay : str → option str.

Local Ltac eff :=
  unfold mbind, eff_bind, mret, eff_ret, throw, ask in *; simpl in *.

Lemma setInCache_spec key value w :
  ∃ w', setInCache key value w = (Returned tt, w')
        ∧ calls w' = calls w
        ∧ (cacheWritable w → getFromCache key w' = Some value)
        ∧ (∀ k r, getFromCache k w' = Some r →
                  r = value ∨ getFromCache k w = Some r).
Proof.
  unfold setInCache, getFromCache, cacheWritable.
  destruct (storage w) as [ls|] eqn:Hs.
  - destruct (writable ls) eqn:Hw.
    + eexists. split; [done|]. simpl. split; [done|]. split.
      * intros _. by rewrite lookup_insert_eq.
      * intros k r. destruct (decide (key = k)) as [->|Hk].
        -- rewrite lookup_insert_eq. intros [= <-]. by left.
        -- rewrite lookup_insert_ne by done. by right.
    + eexists. split; [done|]. rewrite Hs. split; [done|]. split.
      * intros (ls' & [= <-] & Hw'). congruence.
      * intros k r ?. by right.
  - eexists. split; [done|]. rewrite Hs. split; [done|]. split.
    + intros (ls' & [=] & _).
    + intros k r ?. by right.
Qed.

Lemma setInCache_storage key value w w' :
  storage w = storage w' →
  storage (setInCache key value w).2 = storage (setInCache key value w').2.
Proof.
  unfold setInCache. intros Hs. rewrite <- Hs.
  destruct (storage w) as [ls|] eqn:E; [destruct (writable ls)|]; simpl;
    congruence.
Qed.

Lemma fetchRowsForDate_spec dateStr hemi debug w out w' :
  fetchRowsForDate remote isoNextDay dateStr hemi debug w = (out, w') →
  storage w' = storage w
  ∧ calls w' = calls w ++ dayCalls remote isoNextDay hemi debug dateStr
  ∧ match isoNextDay dateStr with
    | None => out = Threw
    | Some endIso =>
        let resp := remote (dayQuery hemi dateStr endIso) in
        out = Returned
                (match error resp with
                 | Some e => ([], Some e)
                 | None => (map cleanRow (default [] (data resp)), None)
                 end)
    end.
Proof.
  unfold fetchRowsForDate, dayCalls, dayQuery.
  destruct (isoNextDay dateStr) as [endIso|]; eff.
  - destruct (error (remote _)) as [e|]; eff.
    + intros [= <- <-]. done.
    + destruct (default [] (data (remote _))) as [|r rows]; eff.
      * destruct debug; eff; intros [= <- <-]; simpl;
          rewrite <- ?app_assoc; done.
      * intros [= <- <-]. done.
  - intros [= <- <-]. by rewrite app_nil_r.
Qed.

Lemma findMatch_spec rows attempts cand hit :
  findMatch rows attempts = Some (cand, hit) →
  cand ∈ attempts ∧ hit ∈ rows ∧ rowMatchesSign (sign hit) (Some cand) = true.
Proof.
  induction attempts as [|c rest IH]; [done|]. simpl.
  destruct (List.find _ rows) as [h|] eqn:Hf.
  - intros [= <- <-]. apply find_some in Hf as [Hin Hm].
    split; [left|]. by rewrite <- list_elem_of_In in Hin.
  - intros H. destruct (IH H) as (? & ? & ?). split; [by right|done].
Qed.

(** What the list-by-date pass does: it walks a prefix [tried] of the
    anchors, making for each the calls of [dayCalls]; it writes the cache
    exactly when it returns a record, under the matched attempt and anchor. *)
Lemma remotePass_spec uid hemi debug atts anchors w out w1 :
  remotePass remote isoNextDay uid hemi debug atts anchors w = (out, w1) →
  ∃ tried rest,
    anchors = tried ++ rest
    ∧ calls w1 = calls w ++ flat_map (dayCalls remote isoNextDay hemi debug) tried
    ∧ match out with
      | Returned None =>
          rest = [] ∧ storage w1 = storage w
          ∧ Forall (fun a => is_Some (isoNextDay a)) anchors
      | Returned (Some clean) =>
          ∃ pre dateStr cand hit wmid,
            tried = pre ++ [dateStr] ∧ cand ∈ atts
            ∧ is_Some (isoNextDay dateStr)
            ∧ rowMatchesSign (sign hit) (Some cand) = true
            ∧ clean = cleanRow hit
            ∧ storage wmid = storage w ∧ calls wmid = calls w1
            ∧ setInCache (cacheKeyDaily uid cand hemi dateStr) clean wmid
              = (Returned tt, w1)
      | Threw =>
          storage w1 = storage w ∧ ∃ bad, bad ∈ anchors ∧ isoNextDay bad = None
      end.
Proof.
  revert w out w1. induction anchors as [|a anchors IH]; intros w out w1.
  { eff. intros [= <- <-]. exists [], []. simpl. by rewrite app_nil_r. }
  cbn [remotePass]. unfold mbind at 1, eff_bind at 1.
  destruct (fetchRowsForDate _ _ a hemi debug w) as [o w'] eqn:Hf.
  apply fetchRowsForDate_spec in Hf as (Hs & Hc & Ho).
  destruct (isoNextDay a) as [endIso|] eqn:Hiso.
  2:{ subst o. intros [= <- <-]. exists [a], anchors. split; [done|].
      split; [by rewrite Hc; simpl; rewrite app_nil_r|].
      split; [done|]. exists a. split; [by left|done]. }
  assert (Hnext : ∀ out w1,
    remotePass remote isoNextDay uid hemi debug atts anchors w' = (out, w1) →
    ∃ tried rest,
      a :: anchors = tried ++ rest
      ∧ calls w1 = calls w ++ flat_map (dayCalls remote isoNextDay hemi debug) tried
      ∧ match out with
        | Returned None =>
            rest = [] ∧ storage w1 = storage w
            ∧ Forall (fun a => is_Some (isoNextDay a)) (a :: anchors)
        | Returned (Some clean) =>
            ∃ pre dateStr cand hit wmid,
              tried = pre ++ [dateStr] ∧ cand ∈ atts
              ∧ is_Some (isoNextDay dateStr)
              ∧ rowMatchesSign (sign hit) (Some cand) = true
              ∧ clean = cleanRow hit
              ∧ storage wmid = storage w ∧ calls wmid = calls w1
              ∧ setInCache (cacheKeyDaily uid cand hemi dateStr) clean wmid
                = (Returned tt, w1)
        | Threw =>
            storage w1 = storage w
            ∧ ∃ bad, bad ∈ a :: anchors ∧ isoNextDay bad = None
        end).
  { intros out' w1' H.
    apply IH in H as (tried & rest & -> & Hcalls & Hout).
    exists (a :: tried), rest. split; [done|]. split.
    { rewrite Hcalls, Hc. simpl. by rewrite app_assoc. }
    destruct out' as [[clean|]|].
    - destruct Hout as (pre & d & cand & hit & wmid & -> & ? & ? & ? & ? & ? & ? & ?).
      exists (a :: pre), d, cand, hit, wmid. rewrite Hs in *. done.
    - destruct Hout as (-> & ? & ?). rewrite Hs in *.
      split; [done|]. split; [done|]. constructor; [by rewrite Hiso|done].
    - destruct Hout as (? & bad & ? & ?). rewrite Hs in *.
      split; [done|]. exists bad. split; [by right|done]. }
  simpl in Ho. subst o.
  destruct (error (remote _)) as [e|] eqn:He.
  { apply Hnext. }
  destruct (map cleanRow _) as [|r rows] eqn:Hrows.
  { apply Hnext. }
  destruct (findMatch (r :: rows) atts) as [[cand hit]|] eqn:Hm.
  2:{ apply Hnext. }
  apply findMatch_spec in Hm as (Hcand & _ & Hmatch).
  cbn beta iota zeta. unfold mbind, eff_bind.
  destruct (setInCache_spec (cacheKeyDaily uid cand hemi a) (cleanRow hit) w')
    as (w2 & Hset & Hcalls2 & _).
  rewrite Hset. eff. intros [= <- <-].
  exists [a], anchors. split; [done|].
  split; [by rewrite Hcalls2, Hc; simpl; rewrite app_nil_r|].
  exists [], a, cand, hit, w'. rewrite Hiso. done.
Qed.

Lemma fetchLatest_spec atts hemi w out w' :
  fetchLatestForSignAndHemi remote atts hemi w = (out, w') →
  storage w' = storage w
  ∧ calls w' = calls w ++ [logged remote (QLatest (buildHemisphereVariants hemi))]
  ∧ ∃ found, out = Returned found
      ∧ (is_Some (error (remote (QLatest (buildHemisphereVariants hemi)))) →
         found = None)
      ∧ (∀ r, found = Some r → ∃ raw, r = cleanRow raw).
Proof.
  unfold fetchLatestForSignAndHemi. eff.
  destruct (error (remote _)) as [e|].
  { intros [= <- <-]. split; [done|]. split; [done|]. exists None. done. }
  destruct (data (remote _)) as [[|r rows]|].
  1,3: intros [= <- <-]; split; [done|]; split; [done|]; exists None;
       split; [done|]; split; [done|]; intros ? [=].
  destruct (findMatch _ atts) as [[cand hit]|]; eff; intros [= <- <-];
    (split; [done|]); (split; [done|]); eexists; (split; [done|]);
    (split; [by intros [? [=]]|]).
  - intros ? [= <-]. by eexists.
  - intros ? [=].
Qed.

Lemma getFromCache_storage key w w' :
  storage w' = storage w → getFromCache key w' = getFromCache key w.
Proof. unfold getFromCache. by intros ->. Qed.

Lemma cacheAttempts_storage w w' uid hemi d atts :
  storage w' = storage w →
  cacheAttempts w' uid hemi d atts = cacheAttempts w uid hemi d atts.
Proof.
  intros Hs. induction atts as [|s atts IH]; [done|]. simpl.
  by rewrite (getFromCache_storage _ _ _ Hs), IH.
Qed.

Lemma cachePass_storage w w' uid hemi anchors atts :
  storage w' = storage w →
  cachePass w' uid hemi anchors atts = cachePass w uid hemi anchors atts.
Proof.
  intros Hs. induction anchors as [|d anchors IH]; [done|]. simpl.
  by rewrite (cacheAttempts_storage _ _ _ _ _ _ Hs), IH.
Qed.

Lemma cacheAttempts_Some w uid hemi d atts r :
  cacheAttempts w uid hemi d atts = Some r →
  ∃ s, s ∈ atts ∧ getFromCache (cacheKeyDaily uid s hemi d) w = Some r
       ∧ wellFormed r = true.
Proof.
  induction atts as [|s atts IH]; [done|]. simpl.
  destruct (getFromCache _ w) as [c|] eqn:Hg.
  - destruct (wellFormed c) eqn:Hwf.
    + intros [= <-]. exists s. split; [by left|done].
    + intros (s' & ? & ?)%IH. exists s'. split; [by right|done].
  - intros (s' & ? & ?)%IH. exists s'. split; [by right|done].
Qed.

Lemma cachePass_Some w uid hemi anchors atts r :
  cachePass w uid hemi anchors atts = Some r →
  ∃ d s, d ∈ anchors ∧ s ∈ atts
         ∧ getFromCache (cacheKeyDaily uid s hemi d) w = Some r
         ∧ wellFormed r = true.
Proof.
  induction anchors as [|d anchors IH]; [done|]. simpl.
  destruct (cacheAttempts w uid hemi d atts) as [c|] eqn:Ha.
  - intros [= <-]. apply cacheAttempts_Some in Ha as (s & ? & ?).
    exists d, s. split; [by left|done].
  - intros (d' & s & ? & ?)%IH. exists d', s. split; [by right|done].
Qed.

Lemma cacheAttempts_None w uid hemi d atts s r :
  cacheAttempts w uid hemi d atts = None → s ∈ atts →
  getFromCache (cacheKeyDaily uid s hemi d) w = Some r → wellFormed r = false.
Proof.
  induction atts as [|s' atts IH]; [by intros _ ?%not_elem_of_nil|]. simpl.
  destruct (getFromCache (cacheKeyDaily uid s' hemi d) w) as [c|] eqn:Hg.
  - destruct (wellFormed c) eqn:Hwf; [done|].
    intros Hn [->|Hin]%elem_of_cons Hr; [congruence|by apply IH].
  - intros Hn [->|Hin]%elem_of_cons Hr; [congruence|by apply IH].
Qed.

Lemma cachePass_None w uid hemi anchors atts d s r :
  cachePass w uid hemi anchors atts = None → d ∈ anchors → s ∈ atts →
  getFromCache (cacheKeyDaily uid s hemi d) w = Some r → wellFormed r = false.
Proof.
  induction anchors as [|d' anchors IH]; [by intros _ ?%not_elem_of_nil|]. simpl.
  destruct (cacheAttempts w uid hemi d' atts) as [c|] eqn:Ha; [done|].
  intros Hn [->|Hin]%elem_of_cons Hs Hr.
  - by eapply cacheAttempts_None.
  - by apply IH.
Qed.

Variable clk : Clock.

Lemma issuedSince_app w w' l :
  calls w' = calls w ++ l → issuedSince w w' = l.
Proof. unfold issuedSince. intros ->. apply drop_app_length. Qed.

Lemma issuedSince_refl w : issuedSince w w = [].
Proof. apply issuedSince_app. by rewrite app_nil_r. Qed.

Lemma getDailyForecast_stages signIn hemiIn opts w :
  getDailyForecast remote isoNextDay clk signIn hemiIn opts w =
  match stage1 clk signIn hemiIn opts w with
  | Some cached => (Returned (Some cached), w)
  | None =>
      match stage2 remote isoNextDay clk signIn hemiIn opts w with
      | (Returned (Some clean), w1) => (Returned (Some clean), w1)
      | (Returned None, w1) => stage3 remote signIn hemiIn opts w1
      | (Threw, w1) => (Threw, w1)
      end
  end.
Proof.
  unfold getDailyForecast. destruct (stage1 _ _ _ _ _); [done|].
  unfold mbind, eff_bind.
  by destruct (stage2 _ _ _ _ _ _ _) as [[[?|]|] ?].
Qed.

(** ** Stage 3 leaves the cache alone *)

(** C7.  When the cache pass and the list-by-date pass find nothing and
    the latest-row fallback finds [r], [getDailyForecast] returns [r] and
    the storage after the call is the storage before it. *)
Theorem fallback_result_not_cached signIn hemiIn opts w w1 w2 r :
  stage1 clk signIn hemiIn opts w = None →
  stage2 remote isoNextDay clk signIn hemiIn opts w = (Returned None, w1) →
  stage3 remote signIn hemiIn opts w1 = (Returned (Some r), w2) →
  getDailyForecast remote isoNextDay clk signIn hemiIn opts w
    = (Returned (Some r), w2)
  ∧ storage w2 = storage w.
Proof.
  intros H1 H2 H3. rewrite getDailyForecast_stages, H1, H2. split; [done|].
  apply fetchLatest_spec in H3 as (-> & _).
  by apply remotePass_spec in H2 as (? & ? & _ & _ & _ & -> & _).
Qed.

(** ** The Stage-2 write does not look at [useCache] *)

(** C9.  With [useCache: false] the cache pass is skipped, and a record
    found by the list-by-date pass is still handed to [setInCache] under
    the key of the matched attempt and anchor: it is in the storage
    afterwards whenever the storage takes writes.  The list-by-date pass
    and the fallback do not depend on [useCache] at all. *)
Theorem stage2_caches_without_useCache signIn hemiIn opts w clean w1 :
  useCache opts = Some false →
  stage2 remote isoNextDay clk signIn hemiIn opts w = (Returned (Some clean), w1) →
  stage1 clk signIn hemiIn opts w = None
  ∧ getDailyForecast remote isoNextDay clk signIn hemiIn opts w
    = (Returned (Some clean), w1)
  ∧ (∃ cand dateStr,
      cand ∈ attemptsFor signIn opts ∧ dateStr ∈ anchorsFor clk opts
      ∧ storage w1
        = storage (setInCache (cacheKeyDaily (userId opts) cand (hemiToDB hemiIn) dateStr)
                              clean w).2
      ∧ (cacheWritable w →
         getFromCache (cacheKeyDaily (userId opts) cand (hemiToDB hemiIn) dateStr) w1
         = Some clean))
  ∧ (∀ u, stage2 remote isoNextDay clk signIn hemiIn (withUseCache u opts)
          = stage2 remote isoNextDay clk signIn hemiIn opts
          ∧ stage3 remote signIn hemiIn (withUseCache u opts)
            = stage3 remote signIn hemiIn opts).
Proof.
  intros Hu H2.
  assert (H1 : stage1 clk signIn hemiIn opts w = None).
  { unfold stage1, cacheEnabled. by rewrite Hu. }
  split; [done|]. rewrite getDailyForecast_stages, H1, H2. split; [done|].
  split; [|done].
  apply remotePass_spec in H2
    as (tried & rest & Ha & _ & pre & d & cand & hit & wmid & -> & Hc & _ & _ & _
        & Hs & _ & Hset).
  exists cand, d. split; [done|]. split.
  { rewrite Ha. set_solver. }
  destruct (setInCache_spec (cacheKeyDaily (userId opts) cand (hemiToDB hemiIn) d)
              clean wmid) as (w1' & Hset' & _ & Hget & _).
  rewrite Hset in Hset'. injection Hset' as <-.
  split.
  - change w1 with (Returned (), w1).2. rewrite <- Hset.
    by apply setInCache_storage.
  - intros (ls & Hls & Hw). apply Hget. exists ls. by rewrite Hs.
Qed.

(** ** Content fields of a resolved record *)

Lemma hasContent_cleanRow r : hasContent (cleanRow r).
Proof. unfold hasContent. simpl. eauto. Qed.

Lemma cacheHasContent_storage w w' :
  storage w' = storage w → cacheHasContent w → cacheHasContent w'.
Proof.
  intros Hs H key r. rewrite (getFromCache_storage _ _ _ Hs). apply H.
Qed.

Lemma CoercedFrom_cleanRow raw :
  CoercedFrom raw (cleanRow raw) ∧ CoercedFrom raw (cleanRow (cleanRow raw)).
Proof.
  unfold CoercedFrom, cleanRow. simpl.
  by destruct (daily_horoscope raw), (affirmation raw), (deeper_insight raw).
Qed.

(** A record of the list-by-date pass is a row of the answer to one of
    its date-scoped queries, passed twice through [cleanRow]. *)
Lemma remotePass_raw uid hemi debug atts anchors w clean w1 :
  remotePass remote isoNextDay uid hemi debug atts anchors w
    = (Returned (Some clean), w1) →
  ∃ dateStr endIso raw l,
    isoNextDay dateStr = Some endIso
    ∧ error (remote (dayQuery hemi dateStr endIso)) = None
    ∧ raw ∈ default [] (data (remote (dayQuery hemi dateStr endIso)))
    ∧ clean = cleanRow (cleanRow raw)
    ∧ calls w1 = calls w ++ l
    ∧ logged remote (dayQuery hemi dateStr endIso) ∈ l.
Proof.
  revert w. induction anchors as [|a anchors IH]; intros w.
  { eff. intros [=]. }
  cbn [remotePass]. unfold mbind at 1, eff_bind at 1.
  destruct (fetchRowsForDate _ _ a hemi debug w) as [o w0] eqn:Hf.
  apply fetchRowsForDate_spec in Hf as (Hs & Hc & Ho).
  destruct (isoNextDay a) as [endIso|] eqn:Hiso.
  2:{ subst o. intros [=]. }
  assert (Hnext :
    remotePass remote isoNextDay uid hemi debug atts anchors w0
      = (Returned (Some clean), w1) →
    ∃ dateStr endIso raw l,
      isoNextDay dateStr = Some endIso
      ∧ error (remote (dayQuery hemi dateStr endIso)) = None
      ∧ raw ∈ default [] (data (remote (dayQuery hemi dateStr endIso)))
      ∧ clean = cleanRow (cleanRow raw)
      ∧ calls w1 = calls w ++ l
      ∧ logged remote (dayQuery hemi dateStr endIso) ∈ l).
  { intros H. apply IH in H as (d & e & raw & l & ? & ? & ? & ? & Hl & ?).
    exists d, e, raw, (dayCalls remote isoNextDay hemi debug a ++ l).
    do 4 (split; [done|]). split; [by rewrite Hl, Hc, app_assoc|].
    apply elem_of_app. by right. }
  cbv zeta in Ho. subst o.
  destruct (error (remote (dayQuery hemi a endIso))) as [e|] eqn:He; [exact Hnext|].
  destruct (map cleanRow (default [] (data (remote (dayQuery hemi a endIso)))))
    as [|r rows] eqn:Hrows; [exact Hnext|].
  destruct (findMatch (r :: rows) atts) as [[cand hit]|] eqn:Hm; [|exact Hnext].
  apply findMatch_spec in Hm as (_ & Hin & _).
  rewrite <- Hrows in Hin. apply list_elem_of_fmap in Hin as (raw & -> & Hraw).
  cbn beta iota zeta. unfold mbind, eff_bind.
  destruct (setInCache_spec (cacheKeyDaily uid cand hemi a)
              (cleanRow (cleanRow raw)) w0) as (w2 & Hset & Hcalls2 & _).
  rewrite Hset. eff. intros [= <- <-].
  exists a, endIso, raw, (dayCalls remote isoNextDay hemi debug a).
  do 4 (split; [done|]). split; [by rewrite Hcalls2|].
  unfold dayCalls. rewrite Hiso. by left.
Qed.

(** A record of the fallback is a row of the answer to its query, passed
    through [cleanRow]. *)
Lemma fetchLatest_raw atts hemi w r w' :
  fetchLatestForSignAndHemi remote atts hemi w = (Returned (Some r), w') →
  ∃ raw,
    error (remote (QLatest (buildHemisphereVariants hemi))) = None
    ∧ raw ∈ default [] (data (remote (QLatest (buildHemisphereVariants hemi))))
    ∧ r = cleanRow raw.
Proof.
  unfold fetchLatestForSignAndHemi. eff.
  destruct (error (remote _)) as [e|]; [intros [=]|].
  destruct (data (remote _)) as [[|r0 rows]|]; [intros [=]| |intros [=]].
  destruct (findMatch _ atts) as [[cand hit]|] eqn:Hm; eff; [|intros [=]].
  intros [= <- _]. apply findMatch_spec in Hm as (_ & Hin & _).
  exists hit. done.
Qed.

(** C6, amended.  A record returned by the list-by-date pass or by the
    latest-row fallback is a row of the answer to one of the queries of
    the call, with its sign, hemisphere and date, and with every content
    field a string: the value of the row, and the empty string where the
    row has none.  A record returned by the cache pass is the stored entry
    as it is: it carries its content fields when every well-formed entry
    of the storage does, which the engine's own cache writes preserve. *)
Theorem resolved_record_content signIn hemiIn opts w r w' :
  getDailyForecast remote isoNextDay clk signIn hemiIn opts w
    = (Returned (Some r), w') →
  (stage1 clk signIn hemiIn opts w = None →
   hasContent r
   ∧ ∃ q raw, logged remote q ∈ issuedSince w w'
              ∧ error (remote q) = None
              ∧ raw ∈ default [] (data (remote q))
              ∧ CoercedFrom raw r)
  ∧ (∀ cached, stage1 clk signIn hemiIn opts w = Some cached →
               r = cached ∧ w' = w)
  ∧ (cacheHasContent w → hasContent r ∧ cacheHasContent w').
Proof.
  rewrite getDailyForecast_stages.
  destruct (stage1 clk signIn hemiIn opts w) as [c|] eqn:H1.
  { intros [= <- <-]. split; [done|]. split; [by intros ? [= <-]|].
    intros Hinv. split; [|done].
    unfold stage1 in H1. destruct (cacheEnabled opts); [|done].
    apply cachePass_Some in H1 as (d & s & _ & _ & Hg & Hwf). by eapply Hinv. }
  destruct (stage2 _ _ _ _ _ _ _) as [[[clean|]|] w1] eqn:H2.
  - intros [= <- <-].
    destruct (remotePass_raw _ _ _ _ _ _ _ _ H2)
      as (d0 & e0 & raw & l & _ & Herr & Hraw & Eraw & Hl & Hq).
    apply remotePass_spec in H2
      as (_ & _ & _ & _ & _ & d & cand & hit & wmid & _ & _ & _ & _ & -> & Hs & _ & Hset).
    pose proof (hasContent_cleanRow hit) as Hc.
    split.
    { intros _. split; [done|]. exists (dayQuery (hemiToDB hemiIn) d0 e0), raw.
      split; [by rewrite (issuedSince_app _ _ _ Hl)|]. split; [done|].
      split; [done|]. rewrite Eraw. apply CoercedFrom_cleanRow. }
    split; [done|]. intros Hinv. split; [done|].
    destruct (setInCache_spec (cacheKeyDaily (userId opts) cand (hemiToDB hemiIn) d)
                (cleanRow hit) wmid) as (w1' & Hset' & _ & _ & Hold).
    rewrite Hset in Hset'. injection Hset' as <-.
    intros key r Hg Hwf. destruct (Hold _ _ Hg) as [->|Hg']; [done|].
    rewrite (getFromCache_storage _ _ _ Hs) in Hg'. by eapply Hinv.
  - intros H3.
    destruct (fetchLatest_raw _ _ _ _ _ H3) as (raw & Herr & Hraw & ->).
    apply remotePass_spec in H2 as (tried & _ & _ & Hcalls & _ & Hs & _).
    apply fetchLatest_spec in H3 as (Hs' & Hcalls' & _).
    split.
    { intros _. split; [apply hasContent_cleanRow|].
      exists (QLatest (buildHemisphereVariants (hemiToDB hemiIn))), raw.
      split.
      - rewrite Hcalls, <- app_assoc in Hcalls'.
        rewrite (issuedSince_app _ _ _ Hcalls'). apply elem_of_app. right. by left.
      - split; [done|]. split; [done|]. apply CoercedFrom_cleanRow. }
    split; [done|].
    intros Hinv. split; [apply hasContent_cleanRow|].
    eapply cacheHasContent_storage; [|exact Hinv]. congruence.
  - done.
Qed.

(** ** Two calls in a row *)

Lemma dayCalls_length hemi debug d :
  (length (dayCalls remote isoNextDay hemi debug d) ≤ if debug then 2 else 1)%nat.
Proof.
  unfold dayCalls. destruct (isoNextDay d); [|destruct debug; simpl; lia].
  simpl. destruct (error _); [destruct debug; simpl; lia|].
  destruct (default [] _); destruct debug; simpl; lia.
Qed.

Lemma flat_map_dayCalls_length hemi debug l :
  (length (flat_map (dayCalls remote isoNextDay hemi debug) l)
   ≤ (if debug then 2 else 1) * length l)%nat.
Proof.
  induction l as [|d l IH]; simpl; [lia|].
  rewrite length_app. pose proof (dayCalls_length hemi debug d). lia.
Qed.

(** C1, amended.  When the first call misses the cache and finds its
    record in the list-by-date pass, with a storage that takes writes and
    a row that carries a date and a hemisphere, the next call with caching
    enabled returns the same record from the cache pass and leaves the
    world as it is: no remote call, no write.  The first call has made at
    least one remote call and at most one date-scoped query per anchor
    (two calls per anchor in debug mode, which adds the probe). *)
Theorem second_call_served_from_cache signIn hemiIn opts w clean w1 :
  cacheEnabled opts = true →
  cacheWritable w →
  stage1 clk signIn hemiIn opts w = None →
  stage2 remote isoNextDay clk signIn hemiIn opts w = (Returned (Some clean), w1) →
  present (date clean) = true →
  present (hemisphere clean) = true →
  getDailyForecast remote isoNextDay clk signIn hemiIn opts w
    = (Returned (Some clean), w1)
  ∧ getDailyForecast remote isoNextDay clk signIn hemiIn opts w1
    = (Returned (Some clean), w1)
  ∧ (1 ≤ length (issuedSince w w1)
       ≤ (if debug opts then 2 else 1) * length (anchorsFor clk opts))%nat.
Proof.
  intros Hen (ls & Hls & Hwr) H1 H2 Hdate Hhemi.
  split; [by rewrite getDailyForecast_stages, H1, H2|].
  pose proof H2 as H2'.
  apply remotePass_spec in H2'
    as (tried & rest & Ha & Hcalls & pre & d & cand & hit & wmid & -> & Hc
        & [endIso Hiso] & Hm & -> & Hs & _ & Hset).
  destruct (setInCache_spec (cacheKeyDaily (userId opts) cand (hemiToDB hemiIn) d)
              (cleanRow hit) wmid) as (w1' & Hset' & _ & Hget & Hold).
  rewrite Hset in Hset'. injection Hset' as <-.
  assert (Hd : d ∈ anchorsFor clk opts) by (rewrite Ha; set_solver).
  assert (Hwf : wellFormed (cleanRow hit) = true).
  { unfold wellFormed. rewrite Hdate, Hhemi. simpl.
    unfold rowMatchesSign in Hm. by destruct (present (sign hit)). }
  split.
  - rewrite getDailyForecast_stages.
    unfold stage1 in *. rewrite Hen in *.
    destruct (cachePass w1 _ _ _ _) as [r'|] eqn:Hp.
    + apply cachePass_Some in Hp as (d' & s' & Hd' & Hs' & Hg & Hwf').
      destruct (Hold _ _ Hg) as [->|Hg']; [done|].
      rewrite (getFromCache_storage _ _ _ Hs) in Hg'.
      pose proof (cachePass_None _ _ _ _ _ _ _ _ H1 Hd' Hs' Hg'). congruence.
    + assert (getFromCache (cacheKeyDaily (userId opts) cand (hemiToDB hemiIn) d) w1
              = Some (cleanRow hit)) as Hg.
      { apply Hget. exists ls. by rewrite Hs. }
      pose proof (cachePass_None _ _ _ _ _ _ _ _ Hp Hd Hc Hg). congruence.
  - rewrite (issuedSince_app _ _ _ Hcalls). split.
    + rewrite flat_map_app, length_app. simpl. unfold dayCalls at 2.
      rewrite Hiso. simpl. lia.
    + etrans; [apply flat_map_dayCalls_length|].
      apply Nat.mul_le_mono_l. rewrite Ha, !length_app. lia.
Qed.

(** ** Remote errors *)

Lemma elem_of_dayCalls hemi debug d c :
  c ∈ dayCalls remote isoNextDay hemi debug d →
  (∃ endIso, isoNextDay d = Some endIso
     ∧ c = logged remote (dayQuery hemi d endIso)
     ∧ (failed c = true → dayCalls remote isoNextDay hemi debug d = [c]))
  ∨ c = logged remote (QProbe (buildHemisphereVariants hemi)).
Proof.
  unfold dayCalls. destruct (isoNextDay d) as [endIso|]; [|by intros ?%not_elem_of_nil].
  simpl. intros [->|Hin]%elem_of_cons.
  - left. exists endIso. split; [done|]. split; [done|].
    unfold logged at 1. simpl. intros [e He]%bool_decide_eq_true.
    by rewrite He.
  - right. destruct (error _); [by apply not_elem_of_nil in Hin|].
    destruct (default [] _); [|by apply not_elem_of_nil in Hin].
    destruct debug; [|by apply not_elem_of_nil in Hin].
    by apply list_elem_of_singleton in Hin.
Qed.

(** An anchor whose query comes back with an error is skipped: the pass
    goes on with the next anchor, the failed call recorded. *)
Lemma remotePass_error_advances uid hemi debug atts a rest endIso w :
  isoNextDay a = Some endIso →
  is_Some (error (remote (dayQuery hemi a endIso))) →
  remotePass remote isoNextDay uid hemi debug atts (a :: rest) w
  = remotePass remote isoNextDay uid hemi debug atts rest
      {| storage := storage w;
         calls := calls w ++ [logged remote (dayQuery hemi a endIso)] |}.
Proof.
  intros Hiso [e He]. cbn [remotePass]. unfold fetchRowsForDate.
  rewrite Hiso. unfold dayQuery in He. eff. by rewrite He.
Qed.

(** The same in terms of the store: with nothing usable in the cache and
    a store that answers every anchor's query and the fallback query with
    an error, the call returns [null] after one call per anchor and one
    fallback call. *)
Lemma remote_down_resolves_to_null signIn hemiIn opts w :
  stage1 clk signIn hemiIn opts w = None →
  (∀ a, a ∈ anchorsFor clk opts →
        ∃ endIso, isoNextDay a = Some endIso
                  ∧ is_Some (error (remote (dayQuery (hemiToDB hemiIn) a endIso)))) →
  is_Some (error (remote (QLatest (buildHemisphereVariants (hemiToDB hemiIn))))) →
  ∃ w', getDailyForecast remote isoNextDay clk signIn hemiIn opts w
        = (Returned None, w')
        ∧ storage w' = storage w
        ∧ length (issuedSince w w') = S (length (anchorsFor clk opts)).
Proof.
  intros H1 Hday Hlat. rewrite getDailyForecast_stages, H1. unfold stage2, stage3.
  set (hemi := hemiToDB hemiIn) in *.
  assert (Hpass : ∀ l w0, (∀ a, a ∈ l → ∃ endIso, isoNextDay a = Some endIso
                      ∧ is_Some (error (remote (dayQuery hemi a endIso)))) →
            ∃ w1, remotePass remote isoNextDay (userId opts) hemi (debug opts)
                             (attemptsFor signIn opts) l w0 = (Returned None, w1)
                  ∧ storage w1 = storage w0
                  ∧ length (calls w1) = (length (calls w0) + length l)%nat).
  { induction l as [|a l IH]; intros w0 Hl.
    - exists w0. split; [done|]. split; [done|]. simpl. lia.
    - destruct (Hl a) as (endIso & Hiso & Herr); [by left|].
      rewrite (remotePass_error_advances _ _ _ _ _ _ _ _ Hiso Herr).
      destruct (IH {| storage := storage w0;
                      calls := calls w0 ++ [logged remote (dayQuery hemi a endIso)] |})
        as (w1 & -> & Hs & Hlen); [intros; apply Hl; by right|].
      exists w1. split; [done|]. split; [done|].
      rewrite Hlen. simpl. rewrite length_app. simpl. lia. }
  destruct (Hpass (anchorsFor clk opts) w Hday) as (w1 & -> & Hs & Hlen).
  destruct (fetchLatestForSignAndHemi remote (attemptsFor signIn opts) hemi w1)
    as [out w'] eqn:H3.
  apply fetchLatest_spec in H3 as (Hs' & Hcalls & found & -> & Hnone & _).
  rewrite (Hnone Hlat). exists w'. split; [done|]. split; [congruence|].
  unfold issuedSince. rewrite length_drop, Hcalls, length_app, Hlen. simpl. lia.
Qed.

(** C2.  If, during a call, the date-scoped query of every anchor came
    back with an error and so did the latest-row query, the call returns
    [null]: it does not throw, it leaves the storage alone, and its remote
    calls are exactly one failed query per anchor, in anchor order,
    followed by the failed fallback query.  In any call, an anchor whose
    query fails only makes the list-by-date pass go on with the next
    anchor. *)
Theorem remote_errors_resolve_to_null signIn hemiIn opts w out w' :
  getDailyForecast remote isoNextDay clk signIn hemiIn opts w = (out, w') →
  (∀ a, a ∈ anchorsFor clk opts →
        ∃ endIso, {| query := dayQuery (hemiToDB hemiIn) a endIso; failed := true |}
                  ∈ issuedSince w w') →
  {| query := QLatest (buildHemisphereVariants (hemiToDB hemiIn)); failed := true |}
    ∈ issuedSince w w' →
  out = Returned None
  ∧ storage w' = storage w
  ∧ issuedSince w w'
    = flat_map (dayCalls remote isoNextDay (hemiToDB hemiIn) (debug opts))
               (anchorsFor clk opts)
      ++ [logged remote (QLatest (buildHemisphereVariants (hemiToDB hemiIn)))]
  ∧ Forall (fun c => failed c = true) (issuedSince w w')
  ∧ length (issuedSince w w') = S (length (anchorsFor clk opts))
  ∧ (∀ a rest endIso w0,
       isoNextDay a = Some endIso →
       is_Some (error (remote (dayQuery (hemiToDB hemiIn) a endIso))) →
       remotePass remote isoNextDay (userId opts) (hemiToDB hemiIn) (debug opts)
                  (attemptsFor signIn opts) (a :: rest) w0
       = remotePass remote isoNextDay (userId opts) (hemiToDB hemiIn) (debug opts)
                    (attemptsFor signIn opts) rest
           {| storage := storage w0;
              calls := calls w0
                       ++ [logged remote (dayQuery (hemiToDB hemiIn) a endIso)] |}).
Proof.
  set (hemi := hemiToDB hemiIn). set (anchors := anchorsFor clk opts).
  assert (Hnolatest : ∀ l c, c ∈ flat_map (dayCalls remote isoNextDay hemi (debug opts)) l →
            ∃ d, d ∈ l ∧ c ∈ dayCalls remote isoNextDay hemi (debug opts) d).
  { intros l c (d & Hd & Hc)%list_elem_of_In%in_flat_map.
    exists d. by rewrite !list_elem_of_In. }
  assert (Hnl : ∀ l f,
            {| query := QLatest (buildHemisphereVariants hemi); failed := f |}
            ∉ flat_map (dayCalls remote isoNextDay hemi (debug opts)) l).
  { intros l f (d & _ & Hc)%Hnolatest.
    apply elem_of_dayCalls in Hc as [(e & _ & Hc & _)|Hc]; discriminate Hc. }
  rewrite getDailyForecast_stages.
  destruct (stage1 clk signIn hemiIn opts w) as [c|] eqn:H1.
  { intros [= <- <-] _ Hl. rewrite issuedSince_refl in Hl.
    by apply not_elem_of_nil in Hl. }
  destruct (stage2 _ _ _ _ _ _ _) as [o2 w1] eqn:H2.
  apply remotePass_spec in H2 as (tried & rest & Ha & Hcalls & Hout).
  destruct o2 as [[clean|]|].
  1,3: intros [= <- <-] _ Hl; rewrite (issuedSince_app _ _ _ Hcalls) in Hl;
       by apply Hnl in Hl.
  destruct Hout as (-> & Hs & _). rewrite app_nil_r in Ha.
  intros H3 Hday Hl.
  apply fetchLatest_spec in H3 as (Hs' & Hcalls' & found & -> & Hnone & _).
  rewrite Hcalls, <- app_assoc in Hcalls'.
  rewrite (issuedSince_app _ _ _ Hcalls') in Hday, Hl |- *.
  fold hemi anchors in Ha, Hday, Hl |- *. rewrite <- Ha in *.
  apply elem_of_app in Hl as [Hl|Hl]; [by apply Hnl in Hl|].
  apply list_elem_of_singleton in Hl.
  assert (Hlat : failed (logged remote (QLatest (buildHemisphereVariants hemi))) = true)
    by (by rewrite <- Hl).
  assert (Hone : ∀ a, a ∈ anchors →
            ∃ c, dayCalls remote isoNextDay hemi (debug opts) a = [c] ∧ failed c = true).
  { intros a Hin. destruct (Hday a Hin) as [endIso Hc].
    apply elem_of_app in Hc as [Hc|Hc]; [|by apply list_elem_of_singleton in Hc].
    apply Hnolatest in Hc as (d & Hd & Hc).
    apply elem_of_dayCalls in Hc as [(e & Hiso & Hc & Hsingle)|Hc]; [|discriminate Hc].
    assert (d = a) as ->.
    { unfold logged, dayQuery in Hc. injection Hc as Hq _ _.
      by apply app_inv_tail in Hq. }
    eexists. split; [by apply Hsingle|done]. }
  split; [f_equal; apply Hnone; by apply bool_decide_eq_true in Hlat|].
  split; [congruence|]. split; [done|].
  assert (Hall : Forall (fun c => failed c = true)
                   (flat_map (dayCalls remote isoNextDay hemi (debug opts)) anchors)
                 ∧ length (flat_map (dayCalls remote isoNextDay hemi (debug opts)) anchors)
                   = length anchors).
  { clear -Hone. induction anchors as [|a l IH]; [done|]. simpl.
    destruct (Hone a) as (c & -> & Hc); [by left|].
    destruct IH as [IH1 IH2]; [intros; apply Hone; by right|].
    split; [by constructor|]. simpl. by rewrite IH2. }
  destruct Hall as [Hall Hlen]. split; [|split].
  - apply Forall_app. split; [done|]. by constructor.
  - rewrite length_app, Hlen. simpl. lia.
  - intros. by apply remotePass_error_advances.
Qed.

End EngineProperties.

(** ** The properties on concrete scenarios *)

Lemma fallback_result_not_cached_witness :
  olderRowCall freshWorld
  = (Returned (Some (cleanRow (tableRow "Aries" "Northern" "2024-10-01" "An older reading."))),
     afterOlderStage3)
  ∧ storage afterOlderStage3 = storage freshWorld.
Proof.
  apply (fallback_result_not_cached olderRowStore isoNextDayStd sydneyMorning
           (lit "Aries") (Some (lit "Northern")) (forced "2024-11-03" None)
           freshWorld afterOlderStage2 afterOlderStage3).
  - vm_compute. reflexivity.
  - vm_compute. reflexivity.
  - vm_compute. reflexivity.
Defined.

Lemma stage2_caches_without_useCache_witness :
  getDailyForecast utcDayStore isoNextDayStd sydneyMorning
    (lit "aries") (Some (lit "NH")) (forced "2024-11-02" (Some false)) freshWorld
  = (Returned (Some (cleanRow (tableRow "Aries" "Northern" "2024-11-02" "Today brings focus."))),
     afterUncachedCall)
  ∧ getFromCache (lit "daily:anon:Aries:Northern:2024-11-02") afterUncachedCall
    = Some (cleanRow (tableRow "Aries" "Northern" "2024-11-02" "Today brings focus.")).
Proof.
  destruct (stage2_caches_without_useCache utcDayStore isoNextDayStd sydneyMorning
              (lit "aries") (Some (lit "NH")) (forced "2024-11-02" (Some false))
              freshWorld
              (cleanRow (tableRow "Aries" "Northern" "2024-11-02" "Today brings focus."))
              afterUncachedCall)
    as (_ & Hcall & _ & _).
  - reflexivity.
  - vm_compute. reflexivity.
  - split; [exact Hcall|]. vm_compute. reflexivity.
Defined.

Lemma second_call_served_from_cache_witness :
  sydneyCall freshWorld
  = (Returned (Some (cleanRow (tableRow "Aries" "Northern" "2024-11-02" "Today brings focus."))),
     afterFirstSydneyCall)
  ∧ sydneyCall afterFirstSydneyCall
    = (Returned (Some (cleanRow (tableRow "Aries" "Northern" "2024-11-02" "Today brings focus."))),
       afterFirstSydneyCall)
  ∧ (1 ≤ length (issuedSince freshWorld afterFirstSydneyCall)
       ≤ (if debug plainOptions then 2 else 1) * length (anchorsFor sydneyMorning plainOptions))%nat.
Proof.
  apply (second_call_served_from_cache utcDayStore isoNextDayStd sydneyMorning
           (lit "aries") (Some (lit "NH")) plainOptions freshWorld).
  - reflexivity.
  - exists {| items := ∅; writable := true |}. split; reflexivity.
  - vm_compute. reflexivity.
  - vm_compute. reflexivity.
  - reflexivity.
  - reflexivity.
Defined.

(** C1, as stated, fails: the row sits under the second anchor, so the
    first call alone makes two remote calls, and the second call adds
    none.  Without a window nothing is cached and the second call repeats
    the two calls; a record found only by the latest-row fallback is not
    cached either, and both calls make their two remote calls. *)
Lemma two_calls_two_remote_calls :
  (sydneyCall freshWorld).1
  = Returned (Some (cleanRow (tableRow "Aries" "Northern" "2024-11-02" "Today brings focus.")))
  ∧ length (issuedSince freshWorld afterSecondSydneyCall) = 2%nat
  ∧ ¬ (length (issuedSince freshWorld afterSecondSydneyCall) ≤ 1)%nat
  ∧ length (calls (sydneyCall (sydneyCall windowless).2).2) = 4%nat
  ∧ (olderRowCall freshWorld).1
    = Returned (Some (cleanRow (tableRow "Aries" "Northern" "2024-10-01" "An older reading.")))
  ∧ length (calls (olderRowCall (olderRowCall freshWorld).2).2) = 4%nat.
Proof.
  split; [vm_compute; reflexivity|].
  assert (H : length (issuedSince freshWorld afterSecondSydneyCall) = 2%nat)
    by (vm_compute; reflexivity).
  split; [exact H|]. split; [rewrite H; lia|].
  split; [vm_compute; reflexivity|].
  split; vm_compute; reflexivity.
Qed.

(** The first call of the Sydney morning: the row of the table has a text
    and nothing else, the record has the empty string for the rest. *)
Lemma resolved_record_content_witness :
  (hasContent sydneyRecord
   ∧ ∃ q raw, logged utcDayStore q ∈ issuedSince freshWorld afterFirstSydneyCall
              ∧ error (utcDayStore q) = None
              ∧ raw ∈ default [] (data (utcDayStore q))
              ∧ CoercedFrom raw sydneyRecord)
  ∧ (hasContent sydneyRecord ∧ cacheHasContent afterFirstSydneyCall)
  ∧ affirmation sydneyRecord = Some [].
Proof.
  destruct (resolved_record_content utcDayStore isoNextDayStd sydneyMorning
              (lit "aries") (Some (lit "NH")) plainOptions freshWorld
              sydneyRecord afterFirstSydneyCall) as (H1 & _ & H3).
  - vm_compute. reflexivity.
  - split; [apply H1; vm_compute; reflexivity|]. split; [|reflexivity].
    apply H3. intros key r H. unfold getFromCache in H. simpl in H.
    rewrite lookup_empty in H. discriminate H.
Defined.

(** C6, as stated, fails on the cache pass: the stored entry comes back
    as it is, without its content fields. *)
Lemma cached_record_without_content :
  getDailyForecast (storeOf []) isoNextDayStd sydneyMorning
    (lit "Aries") (Some (lit "Northern")) (forced "2024-01-15" None) bareEntryWorld
  = (Returned (Some bareEntry), bareEntryWorld)
  ∧ daily_horoscope bareEntry = None
  ∧ ¬ hasContent bareEntry.
Proof.
  split; [vm_compute; reflexivity|]. split; [reflexivity|].
  intros [[? H] _]. discriminate H.
Qed.

Lemma remote_errors_resolve_to_null_witness :
  (downCall freshWorld).1 = Returned None
  ∧ storage (downCall freshWorld).2 = storage freshWorld
  ∧ length (issuedSince freshWorld (downCall freshWorld).2) = 4%nat.
Proof.
  assert (H := remote_errors_resolve_to_null storeDown isoNextDayStd sydneyMorning
           (lit "Aries") (Some (lit "Northern")) plainOptions freshWorld
           (downCall freshWorld).1 (downCall freshWorld).2).
  destruct H as (H1 & H2 & _ & _ & H5 & _).
  - vm_compute. reflexivity.
  - intros a Ha. vm_compute in Ha.
    apply elem_of_cons in Ha as [->|Ha]; [|apply elem_of_cons in Ha as [->|Ha];
      [|apply list_elem_of_singleton in Ha as ->]].
    + exists (lit "2024-11-04T00:00:00.000Z"). vm_compute. apply list_elem_of_here.
    + exists (lit "2024-11-03T00:00:00.000Z"). vm_compute.
      apply list_elem_of_further, list_elem_of_here.
    + exists (lit "2024-11-05T00:00:00.000Z"). vm_compute.
      do 2 apply list_elem_of_further. apply list_elem_of_here.
  - vm_compute. do 3 apply list_elem_of_further. apply list_elem_of_here.
  - split; [exact H1|]. split; [exact H2|]. exact H5.
Defined.

(** A label with "CUSP" appended against a lower-case spelling with an
    en dash, and "ARIÈS" against "ariès": the variants match as the labels
    do. *)
Lemma rowMatchesSign_equivalence_witness :
  (rowMatchesSign (Some (lit "Gemini-Cancer")) (Some (lit "Gemini-Cancer")) = true
   ∧ rowMatchesSign (Some (lit "Gemini-Cancer")) (Some cuspLabelRespelled)
     = rowMatchesSign (Some cuspLabelRespelled) (Some (lit "Gemini-Cancer"))
   ∧ rowMatchesSign (Some (lit "Gemini-Cancer" ++ lit "  " ++ lit "CUSP"))
                    (Some cuspLabelRespelled)
     = rowMatchesSign (Some (lit "Gemini-Cancer")) (Some cuspLabelRespelled)
   ∧ rowMatchesSign (Some cuspLabelRespelled)
                    (Some (lit "Gemini-Cancer" ++ lit "  " ++ lit "CUSP"))
     = rowMatchesSign (Some cuspLabelRespelled) (Some (lit "Gemini-Cancer")))
  ∧ rowMatchesSign (Some (lit "Gemini-Cancer")) (Some cuspLabelRespelled) = true
  ∧ (rowMatchesSign (Some ariesAccented) (Some ariesAccented) = true
     ∧ rowMatchesSign (Some ariesAccented) (Some ariesAccented)
       = rowMatchesSign (Some ariesAccented) (Some ariesAccented)
     ∧ rowMatchesSign (Some ariesAccentedCapitals) (Some ariesAccented)
       = rowMatchesSign (Some ariesAccented) (Some ariesAccented)
     ∧ rowMatchesSign (Some ariesAccented) (Some ariesAccentedCapitals)
       = rowMatchesSign (Some ariesAccented) (Some ariesAccented)).
Proof.
  split; [|split].
  - apply (rowMatchesSign_equivalence (lit "Gemini-Cancer")).
    + vm_compute. discriminate.
    + apply lv_cusp.
      * intros H%Suffixed_stripCusp. apply H. vm_compute. reflexivity.
      * repeat constructor.
      * reflexivity.
  - vm_compute. reflexivity.
  - apply (rowMatchesSign_equivalence ariesAccented).
    + vm_compute. discriminate.
    + apply lv_letter, LetterVariant_lowerForm. vm_compute. reflexivity.
Defined.

(** C3, as stated, fails: the empty label does not match itself; a
    second "Cusp" appended to a label that ends in one changes the answer,
    as does taking the suffix away from a label that consists of it;
    whitespace added where there was none, around a dash, changes it too;
    and so does a change of letter case where the lower case of the
    capitals is not the lower-case spelling: "ΟΔΟΣ", the capitals of
    "οδοσ", has the lower case "οδος", and "STRASSE", the capitals of
    "straße", has "strasse". *)
Lemma rowMatchesSign_not_reflexive :
  rowMatchesSign (Some []) (Some []) = false
  ∧ (rowMatchesSign (Some (lit "Aries Cusp")) (Some (lit "Aries")) = true
     ∧ rowMatchesSign (Some (lit "Aries Cusp" ++ lit " Cusp")) (Some (lit "Aries")) = false)
  ∧ (rowMatchesSign (Some (lit "Cusp")) (Some (lit "cusp")) = true
     ∧ rowMatchesSign (Some []) (Some (lit "cusp")) = false)
  ∧ (rowMatchesSign (Some (lit "Aries-Taurus")) (Some (lit "Aries-Taurus")) = true
     ∧ rowMatchesSign (Some (lit "Aries - Taurus")) (Some (lit "Aries-Taurus")) = false)
  ∧ (toUpperCase odos = odosCapitals
     ∧ rowMatchesSign (Some odos) (Some odos) = true
     ∧ rowMatchesSign (Some odosCapitals) (Some odos) = false)
  ∧ (toUpperCase strasse = strasseCapitals
     ∧ rowMatchesSign (Some strasse) (Some strasse) = true
     ∧ rowMatchesSign (Some strasseCapitals) (Some strasse) = false).
Proof. vm_compute. done. Qed.

(** * Further properties *)

(** ** Labels *)

Local Open Scope N_scope.

(** *** The cusp flag *)

Lemma cuspWordFrom_unfold prev s :
  cuspWordFrom prev s
  = (negb prev && matchWord cuspLetters s)
    || match s with [] => false | c :: s' => cuspWordFrom (isWord c) s' end.
Proof.
  destruct s as [|c s]; [by destruct prev|].
  cbn [cuspWordFrom]. f_equal. f_equal.
  destruct s as [|u [|s1 [|p r]]]; cbn [cuspAt matchWord cuspLetters];
    rewrite ?andb_false_r; try done.
  rewrite <- !andb_assoc.
  by destruct (lowerChar c =? 99), (lowerChar u =? 117), (lowerChar s1 =? 115),
    (lowerChar p =? 112), r.
Qed.

Lemma lowerChar_blank w l : isSpace w = true → 97 ≤ l ≤ 122 → (lowerChar w =? l) = false.
Proof.
  intros Hw Hl. apply N.eqb_neq. intros H.
  assert (65 ≤ w ≤ 122).
  { unfold lowerChar in H. destruct ((65 <=? w) && (w <=? 90)) eqn:E.
    - apply andb_true_iff in E as [?%N.leb_le ?%N.leb_le]. lia.
    - lia. }
  rewrite isSpace_printable in Hw by lia. done.
Qed.

Lemma squeeze_InGap_head x :
  squeeze InGap x = [] ∨ ∃ t, squeeze InGap x = space :: t.
Proof.
  induction x as [|c x IH]; [by left|]. cbn [squeeze]. unfold wsEmit, wsNext.
  destruct (isSpace c); [exact IH|]. right. by eexists.
Qed.

Lemma matchWord_squeeze ls x :
  Forall (fun l => 97 ≤ l ≤ 122) ls →
  matchWord ls (squeeze InWord x) = matchWord ls x.
Proof.
  intros Hls. revert x. induction Hls as [|l ls Hl _ IH]; intros x.
  - destruct x as [|c x]; [done|]. cbn [squeeze matchWord]. unfold wsEmit, wsNext.
    destruct (isSpace c) eqn:Hc; [|done]. cbn [app].
    assert (isWord c = false) as ->.
    { destruct (isWord c) eqn:Hw; [|done]. exfalso. revert Hw Hc.
      unfold isWord. rewrite !orb_true_iff, !andb_true_iff, !N.leb_le, N.eqb_eq.
      intros Hw Hc. rewrite isSpace_printable in Hc by lia. done. }
    by destruct (squeeze_InGap_head x) as [-> | [t ->]].
  - destruct x as [|c x]; [done|]. cbn [squeeze matchWord]. unfold wsEmit, wsNext.
    destruct (isSpace c) eqn:Hc; cbn [app matchWord].
    + rewrite (lowerChar_blank c l Hc Hl).
      destruct (squeeze_InGap_head x) as [-> | [t ->]]; [done|].
      cbn [matchWord]. by rewrite (lowerChar_blank space l) by done.
    + by rewrite IH.
Qed.

Lemma matchWord_blank_head w x :
  isSpace w = true → matchWord cuspLetters (w :: x) = false.
Proof.
  intros Hw. cbn [matchWord cuspLetters].
  by rewrite (lowerChar_blank w 99 Hw) by lia.
Qed.

Lemma matchWord_cons_squeeze c x :
  matchWord cuspLetters (c :: squeeze InWord x) = matchWord cuspLetters (c :: x).
Proof.
  cbn [matchWord cuspLetters]. f_equal.
  apply (matchWord_squeeze [117; 115; 112]). repeat constructor; lia.
Qed.

Lemma cuspWordFrom_squeeze x :
  (∀ prev, cuspWordFrom prev (squeeze InWord x) = cuspWordFrom prev x)
  ∧ cuspWordFrom false (squeeze AtStart x) = cuspWordFrom false x
  ∧ (∀ prev, cuspWordFrom prev (squeeze InGap x) = cuspWordFrom false x).
Proof.
  induction x as [|c x (IH1 & IH2 & IH3)].
  { split; [done|]. split; [done|]. by intros []. }
  assert (Hword : ∀ prev, isSpace c = false →
            cuspWordFrom prev (c :: squeeze InWord x) = cuspWordFrom prev (c :: x)).
  { intros prev _. rewrite (cuspWordFrom_unfold prev (c :: x)), cuspWordFrom_unfold.
    by rewrite matchWord_cons_squeeze, IH1. }
  cbn [squeeze]. unfold wsEmit, wsNext.
  destruct (isSpace c) eqn:Hc; cbn [app].
  - assert (Hskip : ∀ prev, cuspWordFrom prev (c :: x) = cuspWordFrom false x).
    { intros prev. rewrite cuspWordFrom_unfold, matchWord_blank_head by done.
      rewrite andb_false_r. cbn [orb].
      destruct (isWord c) eqn:Hw; [|done]. exfalso. revert Hw Hc.
      unfold isWord. rewrite !orb_true_iff, !andb_true_iff, !N.leb_le, N.eqb_eq.
      intros Hw Hc. rewrite isSpace_printable in Hc by lia. done. }
    split; [intros; by rewrite Hskip, IH3|].
    split; [by rewrite Hskip, IH2|]. intros; by rewrite Hskip, IH3.
  - split; [intros; by apply Hword|]. split; [by apply Hword|].
    intros prev. rewrite cuspWordFrom_unfold.
    assert (matchWord cuspLetters (space :: c :: squeeze InWord x) = false) as ->
      by (by apply matchWord_blank_head).
    rewrite andb_false_r. cbn [orb]. change (isWord space) with false.
    by apply Hword.
Qed.

Lemma trimStart_squeeze x : trimStart (squeeze AtStart x) = squeeze AtStart x.
Proof.
  induction x as [|c x IH]; [done|]. cbn [squeeze]. unfold wsEmit, wsNext.
  destruct (isSpace c) eqn:Hc; [exact IH|]. cbn [app trimStart]. by rewrite Hc.
Qed.

(** The whitespace normalisation at the head of [normalizeSignForDaily]. *)
Lemma trim_collapse_trim x : trim (collapseSpaces (trim x)) = squeeze AtStart x.
Proof.
  rewrite collapse_trim. unfold trim. by rewrite trimEnd_squeeze, trimStart_squeeze.
Qed.

Lemma isCusp_is_word_test label :
  isCusp (normalizeSignForDaily label) = hasCuspWord label.
Proof.
  unfold normalizeSignForDaily. destruct label as [|c label]; [done|].
  cbn [truthy isCusp]. rewrite trim_collapse_trim. unfold hasCuspWord.
  apply cuspWordFrom_squeeze.
Qed.

(** *** The normaliser does not see spelling *)

Section CharMap.
Variable f : N → N.
Hypothesis f_word : ∀ c, isWord (f c) = isWord c.
Hypothesis f_letter : ∀ c l, 97 ≤ l ≤ 122 → (lowerChar (f c) =? l) = (lowerChar c =? l).

Lemma matchWord_map ls s :
  Forall (fun l => 97 ≤ l ≤ 122) ls → matchWord ls (map f s) = matchWord ls s.
Proof.
  intros Hls. revert s. induction Hls as [|l ls Hl _ IH]; intros [|c s];
    cbn [map matchWord]; try done.
  - by rewrite f_word.
  - by rewrite f_letter, IH.
Qed.

Lemma cuspWordFrom_map prev s : cuspWordFrom prev (map f s) = cuspWordFrom prev s.
Proof.
  revert prev. induction s as [|c s IH]; intros prev; [done|].
  rewrite (cuspWordFrom_unfold prev (c :: s)), cuspWordFrom_unfold.
  change (map f (c :: s)) with (f c :: map f s) at 2.
  rewrite matchWord_map, IH, f_word; [done|]. repeat constructor; lia.
Qed.
End CharMap.

Lemma isWord_lowerChar c : isWord (lowerChar c) = isWord c.
Proof.
  unfold lowerChar. destruct ((65 <=? c) && (c <=? 90)) eqn:E; [|done].
  apply andb_true_iff in E as [E1%N.leb_le E2%N.leb_le].
  unfold isWord.
  assert ((65 <=? c) && (c <=? 90) = true) as -> by
    (apply andb_true_iff; split; by apply N.leb_le).
  assert ((97 <=? c + 32) && (c + 32 <=? 122) = true) as -> by
    (apply andb_true_iff; split; apply N.leb_le; lia).
  by rewrite !orb_true_r.
Qed.

Lemma isWord_dashChar c : isWord (dashChar c) = isWord c.
Proof.
  unfold dashChar, enDash, emDash, hyphen.
  destruct ((c =? 8211) || (c =? 8212)) eqn:E; [|done].
  apply orb_true_iff in E as [->%N.eqb_eq | ->%N.eqb_eq]; reflexivity.
Qed.

Lemma letter_dashChar c l : 97 ≤ l ≤ 122 → (lowerChar (dashChar c) =? l) = (lowerChar c =? l).
Proof.
  intros Hl. unfold dashChar, enDash, emDash, hyphen.
  destruct ((c =? 8211) || (c =? 8212)) eqn:E; [|done].
  apply orb_true_iff in E as [->%N.eqb_eq | ->%N.eqb_eq];
    change (lowerChar 45) with 45; [change (lowerChar 8211) with 8211
                                   |change (lowerChar 8212) with 8212];
    symmetry; rewrite !N.eqb_neq || (etrans; [apply N.eqb_neq|symmetry; apply N.eqb_neq]); lia.
Qed.

Lemma split_map (f : N → N) sep s :
  (∀ c, (f c =? sep) = (c =? sep)) →
  split sep (map f s) = map (map f) (split sep s).
Proof.
  intros Hf. induction s as [|c s IH]; [done|].
  cbn [map split]. rewrite Hf, IH. destruct (c =? sep); [done|].
  by destruct (split sep s).
Qed.

Lemma trim_map (f : N → N) s :
  (∀ c, isSpace (f c) = isSpace c) → trim (map f s) = map f (trim s).
Proof. intros Hf. unfold trim. by rewrite trimEnd_map, trimStart_map. Qed.

Lemma upperCp_lowerChar c : upperCp (lowerChar c) = upperCp c.
Proof.
  unfold upperCp. rewrite lowerChar_ascii.
  destruct (N.ltb_spec c 128); [by rewrite upperChar_lowerChar|].
  assert (lowerChar c = c) as -> by (unfold lowerChar; char_cases). done.
Qed.

Lemma dashChar_idemp c : dashChar (dashChar c) = dashChar c.
Proof. unfold dashChar, enDash, emDash, hyphen. char_cases. Qed.

Lemma toTitleCaseWord_lower w : toTitleCaseWord (map lowerChar w) = toTitleCaseWord w.
Proof.
  destruct w as [|c w]; [done|]. cbn [map toTitleCaseWord].
  rewrite !toUpperCase_single, upperCp_lowerChar. f_equal.
  apply toLowerCase_asciiLower.
Qed.

Lemma lowerChar_sep sep c :
  lowerChar sep = sep → ¬ (97 ≤ sep ≤ 122) → (lowerChar c =? sep) = (c =? sep).
Proof.
  intros Hs Hn. unfold lowerChar in *. char_cases.
Qed.

(** The normaliser as a function of the squeezed label. *)
Lemma normalize_squeezed a b :
  squeeze AtStart a = squeeze AtStart b →
  normalizeSignForDaily a = normalizeSignForDaily b.
Proof.
  intros H. unfold normalizeSignForDaily.
  destruct a as [|x a], b as [|y b]; cbn [truthy]; rewrite ?trim_collapse_trim.
  - done.
  - by rewrite <- H.
  - by rewrite H.
  - by rewrite H.
Qed.

Lemma normalize_asciiLower a :
  normalizeSignForDaily (asciiLower a) = normalizeSignForDaily a.
Proof.
  unfold normalizeSignForDaily, asciiLower.
  destruct a as [|x a]; [done|]. cbn [map truthy]. rewrite !trim_collapse_trim.
  change (lowerChar x :: map lowerChar a) with (map lowerChar (x :: a)).
  generalize (x :: a). clear x a. intros a.
  rewrite (squeeze_map lowerChar) by (intros; rewrite ?isSpace_lowerChar; done).
  unfold hasCuspWord.
  rewrite (cuspWordFrom_map lowerChar)
    by (intros; rewrite ?isWord_lowerChar, ?lowerChar_idemp; done).
  assert (filterTruthy
            (map (λ part, join [space] (map toTitleCaseWord (split space (trim part))))
               (split hyphen (trim (stripCusp
                  (dashesToHyphen (map lowerChar (squeeze AtStart a)))))))
          = filterTruthy
              (map (λ part, join [space] (map toTitleCaseWord (split space (trim part))))
                 (split hyphen (trim (stripCusp (dashesToHyphen (squeeze AtStart a))))))) as ->;
    [|done].
  f_equal. unfold dashesToHyphen. rewrite map_map.
  rewrite (map_ext (λ c, dashChar (lowerChar c)) (λ c, lowerChar (dashChar c)))
    by (intros; apply dashChar_lowerChar).
  rewrite <- (map_map dashChar lowerChar).
  rewrite stripCusp_map by (intros; rewrite ?isSpace_lowerChar, ?lowerChar_idemp; done).
  rewrite trim_map by apply isSpace_lowerChar.
  rewrite split_map by (intros; by apply lowerChar_sep; [|unfold hyphen; lia]).
  rewrite map_map. apply map_ext. intros part.
  rewrite trim_map by apply isSpace_lowerChar.
  rewrite split_map by (intros; by apply lowerChar_sep; [|unfold space; lia]).
  rewrite map_map. f_equal. apply map_ext, toTitleCaseWord_lower.
Qed.

Lemma normalize_dashesToHyphen a :
  normalizeSignForDaily (dashesToHyphen a) = normalizeSignForDaily a.
Proof.
  unfold normalizeSignForDaily.
  destruct a as [|x a]; [done|].
  change (truthy (dashesToHyphen (x :: a))) with true. cbn [truthy].
  rewrite !trim_collapse_trim. generalize (x :: a). clear x a. intros a.
  assert (squeeze AtStart (dashesToHyphen a) = map dashChar (squeeze AtStart a)) as ->
    by (apply squeeze_map; intros; rewrite ?isSpace_dashChar; done).
  assert (dashesToHyphen (map dashChar (squeeze AtStart a))
          = dashesToHyphen (squeeze AtStart a)) as ->
    by (unfold dashesToHyphen; rewrite map_map; apply map_ext, dashChar_idemp).
  unfold hasCuspWord.
  by rewrite (cuspWordFrom_map dashChar)
    by (intros; rewrite ?isWord_dashChar, ?letter_dashChar; done).
Qed.

Lemma SpellingVariant_normalize a b :
  SpellingVariant a b → normalizeSignForDaily a = normalizeSignForDaily b.
Proof.
  induction 1 as [a b H|a b H|a pre post H1 H2|x y ws1 ws2 Hn1 Hn2 H1 H2
                 |a b _ IH|a b c _ IH1 _ IH2].
  - apply CaseVariant_asciiLower in H.
    by rewrite <- (normalize_asciiLower a), H, normalize_asciiLower.
  - apply DashVariant_dashesToHyphen in H.
    by rewrite <- (normalize_dashesToHyphen a), H, normalize_dashesToHyphen.
  - apply normalize_squeezed. symmetry. by apply squeeze_pad.
  - apply normalize_squeezed. by apply squeeze_run.
  - done.
  - congruence.
Qed.

(** *** What the parts are made of *)

Lemma elem_of_trimStart c s : c ∈ trimStart s → c ∈ s.
Proof.
  induction s as [|x s IH]; [done|]. cbn [trimStart].
  destruct (isSpace x); [|done]. intros ?. right. by apply IH.
Qed.

Lemma elem_of_trimEnd c s : c ∈ trimEnd s → c ∈ s.
Proof.
  induction s as [|x s IH]; [done|]. cbn [trimEnd].
  destruct (trimEnd s) as [|y t].
  - destruct (isSpace x); [by intros ?%not_elem_of_nil|].
    intros ->%list_elem_of_singleton. by left.
  - intros [->|H]%elem_of_cons; [by left|right; by apply IH].
Qed.

Lemma elem_of_trim c s : c ∈ trim s → c ∈ s.
Proof. unfold trim. intros ?%elem_of_trimStart. by apply elem_of_trimEnd. Qed.

Lemma elem_of_stripCusp c s : c ∈ stripCusp s → c ∈ s.
Proof.
  induction s as [|x s IH]; cbn [stripCusp].
  - by destruct (cuspTail []).
  - destruct (cuspTail (x :: s)); [by intros ?%not_elem_of_nil|].
    intros [->|H]%elem_of_cons; [by left|right; by apply IH].
Qed.

Lemma elem_of_split sep s p c : p ∈ split sep s → c ∈ p → c ∈ s ∧ c ≠ sep.
Proof.
  revert p. induction s as [|x s IH]; intros p; cbn [split].
  - intros ->%list_elem_of_singleton ?%not_elem_of_nil. done.
  - destruct (N.eqb_spec x sep) as [->|Hx].
    + intros [->|H]%elem_of_cons; [by intros ?%not_elem_of_nil|].
      intros Hc. destruct (IH p H Hc). split; [by right|done].
    + destruct (split sep s) as [|w ws] eqn:E.
      * intros ->%list_elem_of_singleton ->%list_elem_of_singleton.
        split; [by left|done].
      * intros [->|H]%elem_of_cons.
        -- intros [->|Hc]%elem_of_cons; [split; [by left|done]|].
           destruct (IH w) as [? ?]; [by left|done|]. split; [by right|done].
        -- intros Hc. destruct (IH p) as [? ?]; [by right|done|].
           split; [by right|done].
Qed.

Lemma elem_of_join c sep l : c ∈ join sep l → c ∈ sep ∨ ∃ p, p ∈ l ∧ c ∈ p.
Proof.
  induction l as [|p [|q l] IH]; cbn [join].
  - by intros ?%not_elem_of_nil.
  - intros ?. right. exists p. split; [by left|done].
  - rewrite !elem_of_app. intros [H|[H|H]].
    + right. exists p. split; [by left|done].
    + by left.
    + destruct (IH H) as [?|(p' & ? & ?)]; [by left|].
      right. exists p'. split; [by right|done].
Qed.

Lemma elem_of_toTitleCaseWord c w :
  c ∈ toTitleCaseWord w → isDash c → c ∈ w.
Proof.
  destruct w as [|x w]; [done|]. cbn [toTitleCaseWord].
  intros [H|H]%elem_of_app Hc.
  - apply elem_of_toUpperCase_dash in H; [|done]. subst. by left.
  - right. by apply elem_of_toLowerCase_dash.
Qed.

(** No part holds a dash of any style. *)
Lemma parts_no_dash label p c :
  p ∈ parts (normalizeSignForDaily label) → c ∈ p → ¬ isDash c.
Proof.
  unfold normalizeSignForDaily. destruct (truthy label); cbn [parts];
    [|by intros ?%not_elem_of_nil].
  rewrite elem_of_filterTruthy. intros [Hp _] Hc Hd.
  apply list_elem_of_fmap in Hp as (part & -> & Hpart).
  assert (isWord c = false ∧ c ≠ space) as [Hw Hsp]
    by (destruct Hd as [->|[->| ->]]; done).
  apply elem_of_join in Hc as [Hc%list_elem_of_singleton|(w & Hw' & Hc)]; [done|].
  apply list_elem_of_fmap in Hw' as (w0 & -> & Hw0).
  apply elem_of_toTitleCaseWord in Hc; [|done].
  destruct (elem_of_split _ _ _ _ Hw0 Hc) as [Hc1%elem_of_trim _].
  destruct (elem_of_split _ _ _ _ Hpart Hc1) as [Hc2%elem_of_trim%elem_of_stripCusp Hh].
  unfold dashesToHyphen in Hc2. apply list_elem_of_fmap in Hc2 as (c0 & -> & _).
  unfold dashChar, isDash, hyphen, enDash, emDash in *. char_cases.
Qed.

Lemma map_join (f : N → N) sep l :
  map f (join sep l) = join (map f sep) (map (map f) l).
Proof.
  induction l as [|p [|q l] IH]; [done..|].
  cbn [join map] in *. by rewrite !map_app, IH.
Qed.

Lemma map_id_on (f : N → N) (s : str) : (∀ c, c ∈ s → f c = c) → map f s = s.
Proof.
  induction s as [|x s IH]; [done|]. intros H. cbn [map].
  rewrite H by (by left). f_equal. apply IH. intros. apply H. by right.
Qed.

Lemma map_map_id_on (f : N → N) (l : list str) :
  (∀ p c, p ∈ l → c ∈ p → f c = c) → map (map f) l = l.
Proof.
  induction l as [|p l IH]; [done|]. intros H. cbn [map].
  rewrite (map_id_on f p) by (intros; by eapply H; [left|]).
  f_equal. apply IH. intros. eapply H; [by right|done].
Qed.

Lemma split_join sep (l : list str) :
  l ≠ [] → (∀ p c, p ∈ l → c ∈ p → c ≠ sep) → split sep (join [sep] l) = l.
Proof.
  assert (Hone : ∀ p rest, (∀ c, c ∈ p → c ≠ sep) →
             split sep (p ++ sep :: rest) = p :: split sep rest).
  { induction p as [|x p IHp]; intros rest Hp; cbn [app split].
    - by rewrite N.eqb_refl.
    - destruct (N.eqb_spec x sep) as [->|_]; [by destruct (Hp sep); [left|]|].
      rewrite IHp by (intros; apply Hp; by right). done. }
  assert (Hlast : ∀ p, (∀ c, c ∈ p → c ≠ sep) → split sep p = [p]).
  { induction p as [|x p IHp]; intros Hp; cbn [split]; [done|].
    destruct (N.eqb_spec x sep) as [->|_]; [by destruct (Hp sep); [left|]|].
    rewrite IHp by (intros; apply Hp; by right). done. }
  induction l as [|p [|q l] IH]; intros Hne H; [done|..].
  - cbn [join]. apply Hlast. intros. by eapply H; [left|].
  - cbn [join app] in *. rewrite Hone by (intros; by eapply H; [left|]).
    f_equal. apply IH; [done|]. intros. eapply H; [by right|done].
Qed.

Lemma primaryNoCusp_join label :
  primaryNoCusp (normalizeSignForDaily label)
  = join [enDash] (parts (normalizeSignForDaily label)).
Proof. unfold normalizeSignForDaily. by destruct (truthy label). Qed.

Lemma primaryWithCusp_cases label :
  primaryWithCusp (normalizeSignForDaily label)
  = if isCusp (normalizeSignForDaily label)
    then Some (primaryNoCusp (normalizeSignForDaily label) ++ lit " Cusp") else None.
Proof. unfold normalizeSignForDaily. by destruct (truthy label). Qed.

Lemma enDashToHyphen_join (l : list str) :
  (∀ p c, p ∈ l → c ∈ p → ¬ isDash c) →
  enDashToHyphen (join [enDash] l) = join [hyphen] l.
Proof.
  intros H. unfold enDashToHyphen. rewrite map_join. f_equal.
  apply map_map_id_on. intros p c Hp Hc.
  destruct (N.eqb_spec c enDash) as [->|]; [|done].
  destruct (H p enDash Hp Hc). right. by left.
Qed.

Lemma primaryNoCusp_nil label :
  primaryNoCusp (normalizeSignForDaily label) = [] →
  parts (normalizeSignForDaily label) = [].
Proof.
  rewrite primaryNoCusp_join.
  destruct (parts (normalizeSignForDaily label)) as [|p l] eqn:E; [done|]. intros Hj.
  assert (p ≠ []) by (eapply (parts_nonempty label); rewrite E; by left).
  destruct l, p; done.
Qed.

(** X1.  The record of a normalised label.  The cusp flag, computed on
    the whitespace-normalised label, is the word test [/\bcusp\b/i] on the
    label as given.  The parts are non-empty and free of dashes of any
    style, so the en-dash label is the parts joined by en dashes and can be
    split back into them, and its hyphen spelling is the parts joined by
    hyphens. *)
Theorem normalizeSignForDaily_record label :
  let n := normalizeSignForDaily label in
  isCusp n = hasCuspWord label
  ∧ primaryWithCusp n
    = (if hasCuspWord label then Some (primaryNoCusp n ++ lit " Cusp") else None)
  ∧ (∀ p, p ∈ parts n → p ≠ [] ∧ ∀ c, c ∈ p → ¬ isDash c)
  ∧ primaryNoCusp n = join [enDash] (parts n)
  ∧ enDashToHyphen (primaryNoCusp n) = join [hyphen] (parts n)
  ∧ (parts n ≠ [] → split enDash (primaryNoCusp n) = parts n)
  ∧ (primaryNoCusp n = [] ↔ parts n = []).
Proof.
  cbn zeta. set (n := normalizeSignForDaily label).
  assert (Hd : ∀ p c, p ∈ parts n → c ∈ p → ¬ isDash c)
    by (intros; by eapply parts_no_dash).
  split; [apply isCusp_is_word_test|].
  split; [unfold n; by rewrite primaryWithCusp_cases, isCusp_is_word_test|].
  split; [|split; [|split; [|split]]].
  - intros p Hp. split; [by eapply parts_nonempty|]. intros c. by apply Hd.
  - apply primaryNoCusp_join.
  - unfold n. rewrite primaryNoCusp_join. by apply enDashToHyphen_join.
  - intros Hne. unfold n. rewrite primaryNoCusp_join. apply split_join; [done|].
    intros p c Hp Hc ->. destruct (Hd p enDash Hp Hc). right. by left.
  - split; [apply primaryNoCusp_nil|].
    unfold n. rewrite primaryNoCusp_join. by intros ->.
Qed.

Lemma length_filterTruthy (l : list str) : (length (filterTruthy l) ≤ length l)%nat.
Proof. apply length_filter. Qed.

Lemma length_uniq (l : list str) : (length (uniq l) ≤ length l)%nat.
Proof. apply sublist_length, sublist_uniq. Qed.

Lemma head_filterTruthy_uniq x (l : list str) :
  x ≠ [] → head (filterTruthy (uniq (x :: l))) = Some x.
Proof.
  intros Hx. cbn [uniq]. unfold filterTruthy.
  rewrite filter_cons_True by (by destruct x). done.
Qed.

Lemma elem_of_attempts label allow a :
  let n := normalizeSignForDaily label in
  a ∈ buildSignAttemptsForDaily label allow ↔
  a ≠ [] ∧
  (Some a = primaryWithCusp n ∨ Some a = enDashToHyphen <$> primaryWithCusp n
   ∨ a = primaryNoCusp n ∨ a = enDashToHyphen (primaryNoCusp n)
   ∨ (a ∈ parts n ∧ (isCusp n = false ∨ allow = true))).
Proof.
  unfold buildSignAttemptsForDaily. cbn zeta.
  set (n := normalizeSignForDaily label).
  rewrite elem_of_filterTruthy, elem_of_uniq, !elem_of_app.
  assert (Hnil : ∀ s : str, truthy s = false → s = []) by (by intros []).
  split.
  - intros [Ha Hne]. split; [done|]. destruct Ha as [Ha|[Ha|Ha]].
    + destruct (primaryWithCusp n) as [p|]; [|by apply not_elem_of_nil in Ha].
      destruct (truthy p); [|by apply not_elem_of_nil in Ha].
      apply elem_of_cons in Ha as [Ha|Ha%list_elem_of_singleton]; subst a; [by left|].
      right. by left.
    + destruct (truthy (primaryNoCusp n)); [|by apply not_elem_of_nil in Ha].
      apply elem_of_cons in Ha as [Ha|Ha%list_elem_of_singleton]; subst a; tauto.
    + do 4 right. destruct (isCusp n), allow; simpl in Ha;
        try (by apply not_elem_of_nil in Ha);
        apply elem_of_filterTruthy in Ha as [? _]; tauto.
  - intros [Hne H]. split; [|done]. destruct H as [H|[H|[H|[H|[H1 H2]]]]].
    + left. rewrite <- H. destruct a; [done|]. by left.
    + left. destruct (primaryWithCusp n) as [p|]; [|done].
      injection H as ->. destruct p; [done|]. right. by left.
    + right. left. subst a. destruct (primaryNoCusp n); [done|]. by left.
    + right. left. subst a. destruct (primaryNoCusp n); [done|]. right. by left.
    + right. right.
      assert (negb (isCusp n) || allow = true) as ->
        by (destruct H2 as [-> | ->]; [done|apply orb_true_r]).
      by apply elem_of_filterTruthy.
Qed.

(** X2.  The attempt list has no duplicates and no empty label, and at
    most four labels besides the parts.  Its members are exactly the
    non-empty ones among the cusp label and the label without "Cusp", each
    in its en-dash and hyphen spelling, and, for a label that names no cusp
    or with the fallback allowed, the parts.  It starts with the cusp label
    whenever the input names a cusp, else with the en-dash label. *)
Theorem buildSignAttemptsForDaily_shape label allow :
  let n := normalizeSignForDaily label in
  let l := buildSignAttemptsForDaily label allow in
  NoDup l
  ∧ (length l ≤ 4 + length (parts n))%nat
  ∧ (∀ a, a ∈ l ↔
       a ≠ [] ∧
       (Some a = primaryWithCusp n ∨ Some a = enDashToHyphen <$> primaryWithCusp n
        ∨ a = primaryNoCusp n ∨ a = enDashToHyphen (primaryNoCusp n)
        ∨ (a ∈ parts n ∧ (isCusp n = false ∨ allow = true))))
  ∧ (isCusp n = true → head l = primaryWithCusp n ∧ is_Some (head l))
  ∧ (isCusp n = false → head l = head (filterTruthy [primaryNoCusp n])).
Proof.
  cbn zeta. split; [|split; [|split; [apply elem_of_attempts|]]].
  { unfold buildSignAttemptsForDaily, filterTruthy. apply NoDup_filter, NoDup_uniq. }
  all: unfold buildSignAttemptsForDaily; cbn zeta;
    set (n := normalizeSignForDaily label);
    pose proof (primaryWithCusp_cases label) as Hwc; fold n in Hwc.
  - etrans; [apply length_filterTruthy|]. etrans; [apply length_uniq|].
    rewrite !length_app.
    assert (length (if negb (isCusp n) || allow then filterTruthy (parts n) else [])
            ≤ length (parts n))%nat
      by (destruct (_ || _); [apply length_filterTruthy|simpl; lia]).
    destruct (primaryWithCusp n) as [p|]; [destruct (truthy p)|];
      destruct (truthy (primaryNoCusp n)); simpl; lia.
  - split.
    + intros Hc. rewrite Hc in Hwc. rewrite Hwc. cbn [truthy].
      assert (primaryNoCusp n ++ lit " Cusp" ≠ []) as Hne
        by (by destruct (primaryNoCusp n)).
      destruct (primaryNoCusp n ++ lit " Cusp") as [|c t] eqn:E; [done|].
      cbn [truthy app]. rewrite head_filterTruthy_uniq by done.
      split; [done|by eexists].
    + intros Hc. rewrite Hc in Hwc. rewrite Hwc, Hc. cbn [app negb orb].
      destruct (primaryNoCusp n) as [|c t] eqn:E.
      * cbn [truthy app filterTruthy].
        assert (parts n = []) as -> by exact (primaryNoCusp_nil label E). done.
      * cbn [truthy app]. rewrite head_filterTruthy_uniq by done.
        unfold filterTruthy. by rewrite filter_cons_True.
Qed.

(** *** Hyphen spellings and the components of a cusp label *)

Lemma elem_of_join_sep sep (p q : str) (l : list str) : sep ∈ join [sep] (p :: q :: l).
Proof. cbn [join]. rewrite !elem_of_app. right. left. by left. Qed.

Lemma not_dash_join_parts label c :
  c ∈ primaryNoCusp (normalizeSignForDaily label) ++ lit " Cusp" → isDash c → c = enDash.
Proof.
  rewrite elem_of_app, primaryNoCusp_join.
  intros [H|H] Hd.
  - apply elem_of_join in H as [H%list_elem_of_singleton|(p & Hp & Hc)]; [done|].
    by destruct (parts_no_dash label p c).
  - exfalso. vm_compute in H.
    repeat (apply elem_of_cons in H as [->|H];
            [destruct Hd as [?|[?|?]]; discriminate|]).
    by apply not_elem_of_nil in H.
Qed.

Lemma enDashToHyphen_hyphen s : enDash ∈ s → hyphen ∈ enDashToHyphen s.
Proof.
  intros H. unfold enDashToHyphen. apply list_elem_of_fmap.
  exists enDash. by rewrite N.eqb_refl.
Qed.

(** X3.  For a cusp label resolved without true-sign fallback, the
    attempts are the cusp label and the label without "Cusp", each in its
    en-dash and hyphen spelling.  A component sign is attempted exactly
    when it is the only one: "Aries Cusp" does try "Aries", while
    "Aries-Taurus Cusp" tries neither "Aries" nor "Taurus". *)
Theorem cusp_attempts_without_fallback label :
  let n := normalizeSignForDaily label in
  let l := buildSignAttemptsForDaily label false in
  isCusp n = true →
  (length l ≤ 4)%nat
  ∧ (∀ a, a ∈ l →
       a = primaryNoCusp n ++ lit " Cusp"
       ∨ a = enDashToHyphen (primaryNoCusp n ++ lit " Cusp")
       ∨ a = primaryNoCusp n ∨ a = enDashToHyphen (primaryNoCusp n))
  ∧ (∀ p, p ∈ parts n → p ∈ l ↔ parts n = [p]).
Proof.
  cbn zeta. intros Hc.
  set (n := normalizeSignForDaily label) in *.
  pose proof (primaryWithCusp_cases label) as Hwc. fold n in Hwc. rewrite Hc in Hwc.
  assert (Hin : ∀ a, a ∈ buildSignAttemptsForDaily label false →
       a = primaryNoCusp n ++ lit " Cusp"
       ∨ a = enDashToHyphen (primaryNoCusp n ++ lit " Cusp")
       ∨ a = primaryNoCusp n ∨ a = enDashToHyphen (primaryNoCusp n)).
  { intros a [_ Ha]%elem_of_attempts. fold n in Ha. rewrite Hwc, Hc in Ha.
    destruct Ha as [[= ->]|[[= ->]|[->|[->|[_ [?|?]]]]]]; try done; tauto. }
  split; [|split; [exact Hin|]].
  - unfold buildSignAttemptsForDaily. cbn zeta. fold n. rewrite Hwc, Hc.
    etrans; [apply length_filterTruthy|]. etrans; [apply length_uniq|].
    cbn [negb orb]. rewrite app_nil_r.
    destruct (truthy _), (truthy _); simpl; lia.
  - intros p Hp.
    assert (Hnd : ∀ c, c ∈ p → ¬ isDash c) by (intros c; by apply (parts_no_dash label)).
    assert (Hpne : p ≠ []) by (by eapply parts_nonempty).
    split.
    + intros Ha. destruct (parts n) as [|q [|q' t]] eqn:E.
      * by apply not_elem_of_nil in Hp.
      * apply list_elem_of_singleton in Hp. by subst.
      * exfalso.
        assert (He : enDash ∈ primaryNoCusp n)
          by (unfold n; rewrite primaryNoCusp_join; fold n; rewrite E;
              apply elem_of_join_sep).
        destruct (Hin p Ha) as [->|[->|[->| ->]]].
        -- apply (Hnd enDash); [apply elem_of_app; by left|right; by left].
        -- apply (Hnd hyphen); [|by left].
           apply enDashToHyphen_hyphen, elem_of_app. by left.
        -- apply (Hnd enDash); [done|right; by left].
        -- apply (Hnd hyphen); [|by left]. by apply enDashToHyphen_hyphen.
    + intros E. apply elem_of_attempts. fold n. split; [done|].
      do 2 right. left. unfold n. rewrite primaryNoCusp_join. fold n. by rewrite E.
Qed.

(** *** Title case *)

Lemma lowerChar_upperChar c : lowerChar (upperChar c) = lowerChar c.
Proof. unfold upperChar, lowerChar. char_cases. Qed.

Lemma upperChar_idemp c : upperChar (upperChar c) = upperChar c.
Proof. unfold upperChar. char_cases. Qed.

(** On an ASCII word: the capital of the first letter, then the small
    letters of the others. *)
Lemma toTitleCaseWord_ascii c w :
  asciiWord (c :: w) → toTitleCaseWord (c :: w) = upperChar c :: asciiLower w.
Proof.
  intros [Hc Hw]%Forall_cons. cbn [toTitleCaseWord].
  rewrite (toUpperCase_ascii [c]), (toLowerCase_ascii w); [done..|].
  by constructor.
Qed.

Lemma asciiWord_toTitleCaseWord w : asciiWord w → asciiWord (toTitleCaseWord w).
Proof.
  destruct w as [|c w]; [done|]. intros H. rewrite (toTitleCaseWord_ascii c w H).
  apply Forall_cons in H as [Hc Hw]. constructor.
  - apply upperChar_lt; [lia|done].
  - apply Forall_fmap. eapply Forall_impl; [exact Hw|].
    intros x Hx. cbv beta in Hx. apply lowerChar_lt; [lia|done].
Qed.

Lemma asciiLower_toTitleCaseWord w :
  asciiWord w → asciiLower (toTitleCaseWord w) = asciiLower w.
Proof.
  destruct w as [|c w]; [done|]. intros H. rewrite (toTitleCaseWord_ascii c w H).
  unfold asciiLower. cbn [map]. rewrite lowerChar_upperChar, map_map. f_equal.
  apply map_ext, lowerChar_idemp.
Qed.

(** X4.  Title-casing does not see the case of the ASCII letters of a
    word.  On ASCII words it sees nothing else: two of them get the same
    title-cased form exactly when they are case variants of one another,
    the form is the capital of the first letter followed by the small
    letters of the others, a case variant of the word, and title-casing
    it again changes nothing.  Beyond ASCII the last fails: "ßeta" becomes
    "SSeta", and that "Sseta". *)
Theorem toTitleCaseWord_canonical w w' :
  (CaseVariant w w' → toTitleCaseWord w = toTitleCaseWord w')
  ∧ (asciiWord w → asciiWord w' →
     toTitleCaseWord w = toTitleCaseWord w' → CaseVariant w w')
  ∧ (asciiWord w →
     toTitleCaseWord w
     = match w with [] => [] | c :: r => upperChar c :: asciiLower r end
     ∧ CaseVariant w (toTitleCaseWord w)
     ∧ toTitleCaseWord (toTitleCaseWord w) = toTitleCaseWord w)
  ∧ toTitleCaseWord eszettWord = lit "SSeta"
  ∧ toTitleCaseWord (toTitleCaseWord eszettWord) = lit "Sseta".
Proof.
  split; [|split; [|split]].
  - intros H%CaseVariant_asciiLower. unfold asciiLower in H.
    by rewrite <- (toTitleCaseWord_lower w), H, toTitleCaseWord_lower.
  - intros Hw Hw' H. apply CaseVariant_asciiLower.
    by rewrite <- (asciiLower_toTitleCaseWord w), H, asciiLower_toTitleCaseWord.
  - intros Hw. split; [|split].
    + destruct w as [|c r]; [done|]. by apply toTitleCaseWord_ascii.
    + apply CaseVariant_asciiLower. by rewrite asciiLower_toTitleCaseWord.
    + pose proof (asciiWord_toTitleCaseWord w Hw) as Ht.
      destruct w as [|c r]; [done|].
      rewrite (toTitleCaseWord_ascii c r Hw) in *.
      rewrite (toTitleCaseWord_ascii _ _ Ht).
      rewrite upperChar_idemp. f_equal. unfold asciiLower. rewrite map_map.
      apply map_ext, lowerChar_idemp.
  - split; vm_compute; reflexivity.
Qed.

Lemma toTitleCaseWord_canonical_witness :
  toTitleCaseWord (lit "gEMINI") = toTitleCaseWord (lit "Gemini")
  ∧ toTitleCaseWord (lit "gEMINI") = lit "Gemini".
Proof.
  split.
  - apply (proj1 (toTitleCaseWord_canonical (lit "gEMINI") (lit "Gemini"))).
    apply CaseVariant_asciiLower. reflexivity.
  - apply (proj1 (proj2 (proj2 (toTitleCaseWord_canonical (lit "gEMINI") [])))).
    apply (bool_decide_unpack _). vm_compute. reflexivity.
Defined.

Local Open Scope Z_scope.

(** ** Rows, cache and engine *)

(** *** Matching rows against attempts *)

Lemma rowMatchesSign_enDashToHyphen d p :
  rowMatchesSign d (Some (enDashToHyphen p)) = rowMatchesSign d (Some p).
Proof.
  unfold rowMatchesSign.
  assert (present (Some (enDashToHyphen p)) = present (Some p)) as -> by (by destruct p).
  destruct (_ || _); [done|]. cbn [orEmpty].
  assert (norm (enDashToHyphen p) = norm p) as ->; [|done].
  rewrite !norm_dashes. do 3 f_equal. unfold dashesToHyphen, enDashToHyphen.
  rewrite map_map. apply map_ext. intros c. cbn beta.
  destruct (N.eqb_spec c enDash) as [->|Hc]; [done|].
  done.
Qed.

Lemma findMatch_filter rows (P : str → Prop) `{∀ x, Decision (P x)} atts :
  (∀ c, c ∈ atts → ¬ P c →
        List.find (fun r => rowMatchesSign (sign r) (Some c)) rows = None) →
  findMatch rows (filter P atts) = findMatch rows atts.
Proof.
  induction atts as [|c atts IH]; intros Hno; [done|].
  destruct (decide (P c)) as [Hc|Hc].
  - rewrite filter_cons_True by done. cbn [findMatch].
    rewrite IH by (intros; apply Hno; [by right|done]). done.
  - rewrite filter_cons_False by done. cbn [findMatch].
    rewrite (Hno c) by (done || by left).
    apply IH. intros. apply Hno; [by right|done].
Qed.

Lemma findMatch_uniq rows atts : findMatch rows (uniq atts) = findMatch rows atts.
Proof.
  induction atts as [|c atts IH]; [done|]. cbn [uniq findMatch].
  destruct (List.find _ rows) eqn:E; [done|].
  rewrite findMatch_filter; [exact IH|].
  intros c' _ Hc'. destruct (decide (c' = c)) as [->|]; [exact E|done].
Qed.

Lemma find_empty_attempt rows :
  List.find (fun r => rowMatchesSign (sign r) (Some [])) rows = None.
Proof.
  induction rows as [|r rows IH]; [done|]. cbn [List.find].
  assert (rowMatchesSign (sign r) (Some []) = false) as ->; [|done].
  unfold rowMatchesSign. cbn [present truthy negb]. by rewrite orb_true_r.
Qed.

Lemma findMatch_filterTruthy rows atts :
  findMatch rows (filterTruthy atts) = findMatch rows atts.
Proof.
  unfold filterTruthy. apply findMatch_filter.
  intros [|x c] _ Hc; [apply find_empty_attempt|done].
Qed.

Lemma findMatch_app rows l1 l2 :
  findMatch rows (l1 ++ l2)
  = match findMatch rows l1 with Some m => Some m | None => findMatch rows l2 end.
Proof.
  induction l1 as [|c l1 IH]; [done|]. cbn [app findMatch].
  by destruct (List.find _ rows).
Qed.

Lemma find_pointwise {A} (f g : A → bool) l :
  (∀ x, f x = g x) → List.find f l = List.find g l.
Proof.
  intros H. induction l as [|x l IH]; [done|]. cbn [List.find]. by rewrite H, IH.
Qed.

Lemma findMatch_hyphen_pair rows p :
  findMatch rows [p; enDashToHyphen p] = findMatch rows [p].
Proof.
  cbn [findMatch]. destruct (List.find _ rows) eqn:E; [done|].
  rewrite (find_pointwise _ (fun r => rowMatchesSign (sign r) (Some p)))
    by (intros; apply rowMatchesSign_enDashToHyphen).
  by rewrite E.
Qed.

(** X5.  A row found for a label is never matched through the hyphen
    spelling of an attempt: the matched attempt is free of hyphens (it is
    the en-dash cusp label, the en-dash label without "Cusp", or a
    component), so the cache key written after a match never holds a
    hyphen-spelled label. *)
Theorem matched_attempt_has_no_hyphen rows label allow cand hit :
  findMatch rows (buildSignAttemptsForDaily label allow) = Some (cand, hit) →
  (hyphen ∉ cand)
  ∧ cand ∈ buildSignAttemptsForDaily label allow
  ∧ hit ∈ rows
  ∧ rowMatchesSign (sign hit) (Some cand) = true.
Proof.
  intros H. pose proof (findMatch_spec _ _ _ _ H) as (Hin & Hhit & Hm).
  split; [|done].
  unfold buildSignAttemptsForDaily in H. cbn zeta in H.
  rewrite findMatch_filterTruthy, findMatch_uniq, !findMatch_app in H.
  set (n := normalizeSignForDaily label) in *.
  assert (Hp : ∀ c, c ∈ primaryNoCusp n ++ lit " Cusp" → c ≠ hyphen).
  { intros c Hc ->. by pose proof (not_dash_join_parts label _ Hc (or_introl eq_refl)). }
  assert (Hw : ∀ m, findMatch rows
                 match primaryWithCusp n with
                 | Some p => if truthy p then [p; enDashToHyphen p] else []
                 | None => []
                 end = Some m → hyphen ∉ m.1).
  { intros [c h]. pose proof (primaryWithCusp_cases label) as Hwc. fold n in Hwc.
    rewrite Hwc. destruct (isCusp n); [|done].
    destruct (truthy (primaryNoCusp n ++ lit " Cusp")); [|done].
    rewrite findMatch_hyphen_pair.
    intros (->%list_elem_of_singleton & _)%findMatch_spec Hc. by apply (Hp hyphen). }
  assert (Hn : ∀ m, findMatch rows
                 (if truthy (primaryNoCusp n)
                  then [primaryNoCusp n; enDashToHyphen (primaryNoCusp n)] else [])
                 = Some m → hyphen ∉ m.1).
  { intros [c h]. destruct (truthy (primaryNoCusp n)); [|done].
    rewrite findMatch_hyphen_pair.
    intros (->%list_elem_of_singleton & _)%findMatch_spec Hc.
    apply (Hp hyphen); [|done]. apply elem_of_app. by left. }
  destruct (findMatch rows match primaryWithCusp n with _ => _ end) as [m|] eqn:E1.
  { injection H as ->. by apply (Hw _ eq_refl). }
  destruct (findMatch rows (if truthy (primaryNoCusp n) then _ else _)) as [m|] eqn:E2.
  { injection H as ->. by apply (Hn _ eq_refl). }
  destruct (_ || _); [|done].
  rewrite findMatch_filterTruthy in H.
  apply findMatch_spec in H as (Hc & _). intros Hh.
  by apply (parts_no_dash label cand hyphen Hc Hh); left.
Qed.

Lemma find_first {A} (f : A → bool) l x :
  List.find f l = Some x →
  ∃ before after, l = before ++ x :: after ∧ f x = true
                  ∧ ∀ y, y ∈ before → f y = false.
Proof.
  induction l as [|y l IH]; [done|]. cbn [List.find].
  destruct (f y) eqn:E.
  - intros [= ->]. exists [], l. split; [done|]. split; [done|].
    by intros ? ?%not_elem_of_nil.
  - intros (before & after & -> & Hx & Hb)%IH.
    exists (y :: before), after. split; [done|]. split; [done|].
    intros z [->|?]%elem_of_cons; [done|by apply Hb].
Qed.

Lemma find_nothing {A} (f : A → bool) l :
  List.find f l = None ↔ ∀ y, y ∈ l → f y = false.
Proof.
  induction l as [|y l IH]; cbn [List.find].
  - split; [by intros _ ? ?%not_elem_of_nil|done].
  - destruct (f y) eqn:E.
    + split; [done|]. intros H. specialize (H y (list_elem_of_here _ _)). congruence.
    + rewrite IH. split.
      * intros H z [->|?]%elem_of_cons; [done|by apply H].
      * intros H z ?. apply H. by right.
Qed.

Lemma findMatch_first rows atts cand hit :
  findMatch rows atts = Some (cand, hit) →
  ∃ pre post before after,
    atts = pre ++ cand :: post ∧ rows = before ++ hit :: after
    ∧ (∀ c x, c ∈ pre → x ∈ rows → rowMatchesSign (sign x) (Some c) = false)
    ∧ (∀ x, x ∈ before → rowMatchesSign (sign x) (Some cand) = false)
    ∧ rowMatchesSign (sign hit) (Some cand) = true.
Proof.
  induction atts as [|c atts IH]; [done|]. cbn [findMatch].
  destruct (List.find _ rows) as [h|] eqn:E.
  - intros [= -> ->]. apply find_first in E as (before & after & -> & Hh & Hb).
    exists [], atts, before, after. split; [done|]. split; [done|].
    split; [by intros ? ? ?%not_elem_of_nil|done].
  - intros (pre & post & before & after & -> & -> & Hpre & Hb & Hh)%IH.
    exists (c :: pre), post, before, after. split; [done|]. split; [done|].
    split; [|done]. intros c' x [->|?]%elem_of_cons Hx; [|by apply Hpre].
    by apply (proj1 (find_nothing _ _) E).
Qed.

Lemma findMatch_nothing rows atts :
  findMatch rows atts = None ↔
  ∀ c x, c ∈ atts → x ∈ rows → rowMatchesSign (sign x) (Some c) = false.
Proof.
  induction atts as [|c atts IH]; cbn [findMatch].
  - split; [by intros _ ? ? ?%not_elem_of_nil|done].
  - destruct (List.find _ rows) as [h|] eqn:E.
    + split; [done|]. intros H.
      apply find_first in E as (before & after & -> & Hh & _).
      rewrite H in Hh; [done|by left|]. apply elem_of_app. right. by left.
    + rewrite IH. split.
      * intros H c' x [->|?]%elem_of_cons Hx; [|by apply H].
        by apply (proj1 (find_nothing _ _) E).
      * intros H c' x ? ?. apply H; [by right|done].
Qed.

Section EngineExtras.

Variable remote : Query → Response.
Variable isoNextDay : str → option str.

Local Ltac eff :=
  unfold mbind, eff_bind, mret, eff_ret, throw, ask in *; simpl in *.

(** X6.  The latest-row fallback makes exactly one remote call, never
    throws and never touches the storage.  It answers with a record
    exactly when the store answered without error with rows of which one
    matches an attempt; the record is then the cleaned first row matching
    the earliest attempt that matches any row, so the order of the
    attempts is decided before the recency of the rows. *)
Theorem fetchLatestForSignAndHemi_result atts hemi w :
  let q := QLatest (buildHemisphereVariants hemi) in
  ∃ found,
    fetchLatestForSignAndHemi remote atts hemi w
    = (Returned found, {| storage := storage w; calls := calls w ++ [logged remote q] |})
    ∧ match found with
      | Some r =>
          ∃ rows pre cand post before raw after,
            error (remote q) = None ∧ data (remote q) = Some rows
            ∧ atts = pre ++ cand :: post ∧ rows = before ++ raw :: after
            ∧ r = cleanRow raw
            ∧ rowMatchesSign (sign raw) (Some cand) = true
            ∧ (∀ x, x ∈ before → rowMatchesSign (sign x) (Some cand) = false)
            ∧ (∀ c x, c ∈ pre → x ∈ rows → rowMatchesSign (sign x) (Some c) = false)
      | None =>
          is_Some (error (remote q))
          ∨ ∀ c x, c ∈ atts → x ∈ default [] (data (remote q)) →
                   rowMatchesSign (sign x) (Some c) = false
      end.
Proof.
  cbn zeta. unfold fetchLatestForSignAndHemi. eff.
  destruct (error (remote _)) as [e|] eqn:He.
  { exists None. split; [done|]. left. by eexists. }
  destruct (data (remote _)) as [[|r rows]|] eqn:Hd.
  1,3: exists None; split; [done|]; right; by intros ? ? _ ?%not_elem_of_nil.
  destruct (findMatch (r :: rows) atts) as [[cand hit]|] eqn:Hm; eff.
  - exists (Some (cleanRow hit)). split; [done|].
    apply findMatch_first in Hm as (pre & post & before & after & -> & Hr & Hpre & Hb & Hh).
    exists (r :: rows), pre, cand, post, before, hit, after. done.
  - exists None. split; [done|]. right. simpl. by apply findMatch_nothing.
Qed.

Lemma CoercedFrom_rows raws : Forall2 CoercedFrom raws (map cleanRow raws).
Proof.
  induction raws as [|raw raws IH]; constructor; [|exact IH].
  unfold CoercedFrom, cleanRow. simpl.
  by destruct (daily_horoscope raw), (affirmation raw), (deeper_insight raw).
Qed.

(** X7.  The date query of one anchor leaves the storage alone.  It
    throws exactly when the anchor is not a valid date, and then before
    any remote call.  Otherwise its first call is the query of the day,
    and the error it hands back is the error of the answer; it makes a
    second call exactly when in debug mode the answer is an empty list
    without error, and that call is the probe.  An answer with an error
    hands back no row; one without hands back its rows, in their order,
    each with its sign, hemisphere and date, its three content fields as
    strings (the empty one where the row has none) and the source tag. *)
Theorem fetchRowsForDate_result dateStr hemi debug w :
  let '(out, w') := fetchRowsForDate remote isoNextDay dateStr hemi debug w in
  storage w' = storage w
  ∧ (∃ issued, calls w' = calls w ++ issued
       ∧ match out with
         | Threw => issued = [] ∧ isoNextDay dateStr = None
         | Returned (rows, err) =>
             ∃ endIso,
               isoNextDay dateStr = Some endIso
               ∧ err = error (remote (dayQuery hemi dateStr endIso))
               ∧ (1 ≤ length issued ≤ 2)%nat
               ∧ (length issued = 2%nat ↔ debug = true ∧ rows = [] ∧ err = None)
               ∧ issued
                 = logged remote (dayQuery hemi dateStr endIso)
                   :: match debug, rows, err with
                      | true, [], None =>
                          [logged remote (QProbe (buildHemisphereVariants hemi))]
                      | _, _, _ => []
                      end
               ∧ (is_Some err → rows = [])
               ∧ (err = None →
                  Forall2 CoercedFrom
                    (default [] (data (remote (dayQuery hemi dateStr endIso)))) rows)
               ∧ Forall (fun r => hasContent r ∧ source_table r = sourceTag) rows
         end).
Proof.
  unfold fetchRowsForDate. fold (dayQuery hemi dateStr).
  destruct (isoNextDay dateStr) as [endIso|]; eff.
  2:{ split; [done|]. exists []. by rewrite app_nil_r. }
  change (QByDate (dateStr ++ lit "T00:00:00.000Z") endIso (buildHemisphereVariants hemi))
    with (dayQuery hemi dateStr endIso).
  destruct (error (remote (dayQuery hemi dateStr endIso))) as [e|] eqn:He; eff.
  { split; [done|]. eexists. split; [done|]. exists endIso.
    split; [done|]. split; [done|]. simpl. split; [lia|].
    split; [split; [lia|by intros (_ & _ & [=])]|].
    split; [by destruct debug|]. split; [done|]. split; [done|]. constructor. }
  pose proof (CoercedFrom_rows (default [] (data (remote (dayQuery hemi dateStr endIso)))))
    as Hco.
  destruct (default [] (data (remote (dayQuery hemi dateStr endIso))))
    as [|r rows] eqn:Hd; eff.
  - destruct debug; eff; (split; [done|]); eexists;
      (split; [by rewrite <- ?app_assoc|]); exists endIso;
      (split; [done|]); (split; [done|]); simpl; (split; [lia|]);
      (split; [split; [done || lia|by intros ([=] & _) || done]|]);
      (split; [done|]); (split; [by intros [? [=]]|]);
      (split; [by rewrite ?Hd|constructor]).
  - split; [done|]. eexists. split; [done|]. exists endIso.
    split; [done|]. split; [done|]. simpl. split; [lia|].
    split; [split; [lia|by intros (_ & [=] & _)]|].
    split; [by destruct debug|].
    split; [by intros [? [=]]|]. split; [by rewrite ?Hd|].
    constructor; [split; [apply hasContent_cleanRow|done]|].
    apply Forall_forall. intros x (y & -> & _)%list_elem_of_fmap.
    split; [apply hasContent_cleanRow|done].
Qed.


Variable clk : Clock.

Lemma cachePass_no_attempts w uid hemi anchors : cachePass w uid hemi anchors [] = None.
Proof. induction anchors as [|a anchors IH]; [done|]. exact IH. Qed.

Lemma squeeze_Blank st s : Blank s → squeeze st s = [].
Proof.
  intros H. revert st. induction H as [|c s Hc _ IH]; intros st; [done|].
  cbn [squeeze]. unfold wsEmit. rewrite Hc. apply IH.
Qed.

Lemma attempts_blank label allow : Blank label → buildSignAttemptsForDaily label allow = [].
Proof.
  intros H. unfold buildSignAttemptsForDaily.
  rewrite (normalize_squeezed label []) by (by rewrite squeeze_Blank).
  by destruct allow.
Qed.

(** X8.  What one call can change.  The remote calls of a call are
    appended to those made before, and there are at most one per anchor
    (two in debug mode) plus the fallback query.  The storage after the
    call is the storage before it, unless the call returns a record found
    by the list-by-date pass: then the only change is the write of that
    record under the key of one attempt and one anchor of this call. *)
Theorem getDailyForecast_footprint signIn hemiIn opts w :
  let '(out, w') := getDailyForecast remote isoNextDay clk signIn hemiIn opts w in
  (∃ issued, calls w' = calls w ++ issued
     ∧ (length issued
        ≤ (if debug opts then 2 else 1) * length (anchorsFor clk opts) + 1)%nat)
  ∧ (storage w' = storage w
     ∨ ∃ r cand d,
         out = Returned (Some r)
         ∧ cand ∈ attemptsFor signIn opts ∧ d ∈ anchorsFor clk opts
         ∧ storage w'
           = storage (setInCache (cacheKeyDaily (userId opts) cand (hemiToDB hemiIn) d)
                                 r w).2).
Proof.
  rewrite getDailyForecast_stages.
  destruct (stage1 _ _ _ _ _) as [cached|].
  { split; [|by left]. exists []. rewrite app_nil_r. split; [done|simpl; lia]. }
  unfold stage2, stage3.
  destruct (remotePass _ _ _ _ _ _ _ w) as [out w1] eqn:H2.
  apply remotePass_spec in H2 as (tried & rest & Ha & Hcalls & Hout).
  pose proof (flat_map_dayCalls_length remote isoNextDay (hemiToDB hemiIn) (debug opts) tried)
    as Hlen.
  assert (length tried ≤ length (anchorsFor clk opts))%nat as Htried
    by (rewrite Ha, length_app; lia).
  assert (∀ k, (k * length tried ≤ k * length (anchorsFor clk opts))%nat) as Hk
    by (intros; by apply Nat.mul_le_mono_l).
  destruct out as [[clean|]|].
  - destruct Hout as (pre & d & cand & hit & wmid & -> & Hcand & _ & _ & _ & Hs & _ & Hset).
    split.
    + eexists. split; [exact Hcalls|]. specialize (Hk (if debug opts then 2 else 1)%nat). lia.
    + right. exists clean, cand, d. split; [done|]. split; [done|]. split.
      * rewrite Ha, !elem_of_app. left. right. by left.
      * rewrite <- (setInCache_storage _ _ wmid w Hs). by rewrite Hset.
  - destruct Hout as (-> & Hs & _).
    destruct (fetchLatestForSignAndHemi _ _ _ w1) as [out3 w3] eqn:H3.
    apply fetchLatest_spec in H3 as (Hs3 & Hc3 & _).
    split; [|left; congruence].
    eexists. split; [by rewrite Hc3, Hcalls, <- app_assoc|].
    rewrite length_app. simpl. specialize (Hk (if debug opts then 2 else 1)%nat). lia.
  - destruct Hout as (Hs & _). split; [|by left].
    eexists. split; [exact Hcalls|]. specialize (Hk (if debug opts then 2 else 1)%nat). lia.
Qed.

(** X9.  A call throws only from the list-by-date pass, on an anchor that
    is not a valid date: the cache pass had found nothing, the storage is
    left as it was, and no fallback query is made.  When every anchor is a
    valid date the call does not throw.  When the cache pass finds nothing
    and the first anchor is not a valid date (a malformed day override),
    the call throws at once, before any remote call. *)
Theorem getDailyForecast_throws signIn hemiIn opts w :
  let '(out, w') := getDailyForecast remote isoNextDay clk signIn hemiIn opts w in
  (out = Threw →
     stage1 clk signIn hemiIn opts w = None
     ∧ storage w' = storage w
     ∧ (∃ bad, bad ∈ anchorsFor clk opts ∧ isoNextDay bad = None)
     ∧ logged remote (QLatest (buildHemisphereVariants (hemiToDB hemiIn)))
       ∉ issuedSince w w')
  ∧ (Forall (fun a => is_Some (isoNextDay a)) (anchorsFor clk opts) → out ≠ Threw)
  ∧ (stage1 clk signIn hemiIn opts w = None →
     (∃ bad, head (anchorsFor clk opts) = Some bad ∧ isoNextDay bad = None) →
     out = Threw ∧ w' = w).
Proof.
  rewrite getDailyForecast_stages.
  destruct (stage1 _ _ _ _ _) as [cached|];
    [split; [done|]; split; [done|]; done|].
  unfold stage2, stage3.
  destruct (remotePass _ _ _ _ _ _ _ w) as [out w1] eqn:H2.
  assert (Hhead : (∃ bad, head (anchorsFor clk opts) = Some bad ∧ isoNextDay bad = None) →
                  out = Threw ∧ w1 = w).
  { intros (bad & Hh & Hbad). destruct (anchorsFor clk opts) as [|a rest]; [done|].
    injection Hh as ->. cbn [remotePass] in H2. unfold fetchRowsForDate in H2.
    rewrite Hbad in H2. eff. by injection H2 as <- <-. }
  apply remotePass_spec in H2 as (tried & rest & Ha & Hcalls & Hout).
  destruct out as [[clean|]|].
  - split; [done|]. split; [done|]. intros _ H. by destruct (Hhead H).
  - destruct (fetchLatestForSignAndHemi _ _ _ w1) as [out3 w3] eqn:H3.
    apply fetchLatest_spec in H3 as (_ & _ & found & -> & _).
    split; [done|]. split; [done|]. intros _ H. by destruct (Hhead H).
  - destruct Hout as (Hs & bad & Hbad & Hnone). split; [|split].
    + intros _. split; [done|]. split; [done|]. split; [by exists bad|].
      rewrite (issuedSince_app _ _ _ Hcalls).
      intros Hin. apply list_elem_of_In, in_flat_map in Hin as (d & _ & Hd).
      apply list_elem_of_In, elem_of_dayCalls in Hd
        as [(endIso & _ & [=] & _)|[=]].
    + intros Hall _. rewrite Forall_forall in Hall.
      destruct (Hall bad Hbad) as [? ?]. congruence.
    + intros _ H. by destruct (Hhead H) as [_ ->].
Qed.

(** X10.  A record that comes from the remote stages answers the label
    asked for: its sign matches one of the attempts, and it carries the
    source tag.  (A record served from the cache is only checked for having
    a sign.) *)
Theorem remote_result_matches_attempt signIn hemiIn opts w r w' :
  stage1 clk signIn hemiIn opts w = None →
  getDailyForecast remote isoNextDay clk signIn hemiIn opts w = (Returned (Some r), w') →
  (∃ cand, cand ∈ attemptsFor signIn opts
           ∧ rowMatchesSign (sign r) (Some cand) = true)
  ∧ source_table r = sourceTag.
Proof.
  intros H1. rewrite getDailyForecast_stages, H1. unfold stage2, stage3.
  destruct (remotePass _ _ _ _ _ _ _ w) as [out w1] eqn:H2.
  apply remotePass_spec in H2 as (tried & rest & Ha & Hcalls & Hout).
  destruct out as [[clean|]|]; [| |done].
  - intros [= -> ->].
    destruct Hout as (pre & d & cand & hit & wmid & _ & Hcand & _ & Hm & -> & _).
    split; [by exists cand|done].
  - unfold fetchLatestForSignAndHemi. eff.
    destruct (error (remote _)); [done|].
    destruct (data (remote _)) as [[|x rows]|]; [done| |done].
    destruct (findMatch _ _) as [[cand hit]|] eqn:Hm; [|done].
    intros [= <- <-]. apply findMatch_spec in Hm as (? & _ & ?).
    split; [by exists cand|done].
Qed.

(** X11.  A blank label (empty, or whitespace only) has no attempts, and
    a call for it never yields a record and never writes the cache, yet
    it still queries the store: when every anchor is a valid date it
    returns null after the calls of every anchor and the fallback query. *)
Theorem blank_label_resolves_to_null signIn hemiIn opts w :
  Blank signIn →
  let '(out, w') := getDailyForecast remote isoNextDay clk signIn hemiIn opts w in
  attemptsFor signIn opts = []
  ∧ storage w' = storage w
  ∧ (out = Returned None ∨ out = Threw)
  ∧ (Forall (fun a => is_Some (isoNextDay a)) (anchorsFor clk opts) →
       out = Returned None
       ∧ issuedSince w w'
         = flat_map (dayCalls remote isoNextDay (hemiToDB hemiIn) (debug opts))
                    (anchorsFor clk opts)
           ++ [logged remote (QLatest (buildHemisphereVariants (hemiToDB hemiIn)))]).
Proof.
  intros Hb. rewrite getDailyForecast_stages.
  assert (Hatt : attemptsFor signIn opts = []) by (by apply attempts_blank).
  unfold stage1, stage2, stage3. rewrite Hatt.
  assert (cachePass w (userId opts) (hemiToDB hemiIn) (anchorsFor clk opts) [] = None)
    as -> by apply cachePass_no_attempts.
  assert ((if cacheEnabled opts then None else None) = @None DailyRow) as ->
    by (by destruct (cacheEnabled opts)).
  destruct (remotePass _ _ _ _ _ _ _ w) as [out w1] eqn:H2.
  apply remotePass_spec in H2 as (tried & rest & Ha & Hcalls & Hout).
  destruct out as [[clean|]|].
  - destruct Hout as (_ & _ & cand & _ & _ & _ & Hcand & _).
    by apply not_elem_of_nil in Hcand.
  - destruct Hout as (-> & Hs & _). rewrite app_nil_r in Ha. subst tried.
    unfold fetchLatestForSignAndHemi. eff.
    assert (∀ rows, findMatch rows [] = None) as Hf by done.
    destruct (error (remote _)); [|destruct (data (remote _)) as [[|x rows]|]];
      simpl; (split; [done|]); (split; [done|]); (split; [by left|]);
      intros _; (split; [done|]);
      apply issuedSince_app; simpl; by rewrite Hcalls, <- app_assoc.
  - destruct Hout as (Hs & bad & Hbad & Hnone).
    split; [done|]. split; [done|]. split; [by right|].
    intros Hall. rewrite Forall_forall in Hall.
    destruct (Hall bad Hbad) as [? ?]. congruence.
Qed.

End EngineExtras.

(** *** The cache helpers *)

(** X12.  What a write to the cache does.  [setInCache] never throws and
    makes no remote call.  In a storage that takes writes, the value
    written is the value read back under the same key, whatever was there
    before (also a corrupt entry), and every other key reads as before.
    Without a window, or when the storage refuses the write, nothing
    changes. *)
Theorem setInCache_getFromCache key value w :
  let w' := (setInCache key value w).2 in
  (setInCache key value w).1 = Returned tt
  ∧ calls w' = calls w
  ∧ (∀ k, k ≠ key → getFromCache k w' = getFromCache k w)
  ∧ (cacheWritable w → getFromCache key w' = Some value ∧ cacheWritable w')
  ∧ (¬ cacheWritable w → w' = w).
Proof.
  unfold setInCache, getFromCache, cacheWritable. cbn zeta.
  destruct (storage w) as [ls|] eqn:Hs.
  - destruct (writable ls) eqn:Hw; simpl.
    + split; [done|]. split; [done|]. split; [|split].
      * intros k Hk. by rewrite lookup_insert_ne.
      * intros _. rewrite lookup_insert_eq. split; [done|]. by eexists.
      * intros []. by exists ls.
    + rewrite Hs. split; [done|]. split; [done|]. split; [done|]. split; [|done].
      intros (ls' & [= <-] & ?). congruence.
  - simpl. rewrite Hs. split; [done|]. split; [done|]. split; [done|]. split; [|done].
    by intros (ls' & [=] & _).
Qed.

Lemma app_colon_inj (a b x y : str) :
  colon ∉ a → colon ∉ b → a ++ colon :: x = b ++ colon :: y → a = b ∧ x = y.
Proof.
  revert b. induction a as [|c a IH]; intros [|d b] Ha Hb; cbn [app].
  - by intros [= ->].
  - intros [= <- _]. destruct Hb. by left.
  - intros [= -> _]. destruct Ha. by left.
  - intros [= -> H]. destruct (IH b) as [-> ->]; [| |done|done].
    + intros ?. apply Ha. by right.
    + intros ?. apply Hb. by right.
Qed.

(** X13.  Cache keys tell calls apart: when the user ids and the signs
    hold no colon, two keys are equal only for the same user component
    (a missing id counts as "anon"), the same sign, the same hemisphere
    and the same day. *)
Theorem cacheKeyDaily_injective u1 s1 h1 d1 u2 s2 h2 d2 :
  colon ∉ default (lit "anon") u1 → colon ∉ default (lit "anon") u2 →
  colon ∉ s1 → colon ∉ s2 →
  cacheKeyDaily u1 s1 h1 d1 = cacheKeyDaily u2 s2 h2 d2 →
  default (lit "anon") u1 = default (lit "anon") u2
  ∧ s1 = s2 ∧ h1 = h2 ∧ d1 = d2.
Proof.
  intros Hu1 Hu2 Hs1 Hs2. unfold cacheKeyDaily.
  change (match u1 with Some u => u | None => lit "anon" end) with (default (lit "anon") u1).
  change (match u2 with Some u => u | None => lit "anon" end) with (default (lit "anon") u2).
  change (lit ":") with [colon]. cbn [app].
  intros H. apply app_inv_head in H.
  apply app_colon_inj in H as [-> H]; [|done..].
  apply app_colon_inj in H as [-> H]; [|done..].
  assert (Hh : ∀ h, colon ∉ hemiName h).
  { intros [] Hc; vm_compute in Hc;
      repeat (apply elem_of_cons in Hc as [[=]|Hc]); by apply not_elem_of_nil in Hc. }
  apply app_colon_inj in H as [Hn ->]; [|apply Hh..].
  split; [done|]. split; [done|]. split; [|done].
  by destruct h1, h2.
Qed.

(** *** Hemisphere variants *)

(** X14.  The hemisphere spellings sent to the store are four distinct
    strings, the canonical name among them, and [hemiToDB] maps each of
    them back to the hemisphere they were built for; so no spelling serves
    both hemispheres. *)
Theorem buildHemisphereVariants_hemiToDB h :
  Forall (fun v => hemiToDB (Some v) = h) (buildHemisphereVariants h)
  ∧ hemiName h ∈ buildHemisphereVariants h
  ∧ NoDup (buildHemisphereVariants h)
  ∧ length (buildHemisphereVariants h) = 4%nat
  ∧ (∀ h' v, v ∈ buildHemisphereVariants h → v ∈ buildHemisphereVariants h' → h' = h).
Proof.
  assert (Hall : ∀ h, Forall (fun v => hemiToDB (Some v) = h) (buildHemisphereVariants h))
    by (intros []; repeat constructor).
  split; [apply Hall|]. split; [destruct h; by left|].
  split; [apply NoDup_uniq|]. split; [by destruct h|].
  intros h' v Hv Hv'.
  pose proof (proj1 (Forall_forall _ _) (Hall h) v Hv).
  pose proof (proj1 (Forall_forall _ _) (Hall h') v Hv'). congruence.
Qed.

(** *** Labels, hemispheres and the wrapper *)

Lemma attempts_flag_from_label label :
  buildSignAttemptsForDaily label (if negb (hasCuspWord label) then true else false)
  = buildSignAttemptsForDaily label false.
Proof.
  unfold buildSignAttemptsForDaily. rewrite isCusp_is_word_test.
  by destruct (hasCuspWord label).
Qed.

Lemma hemiToDB_screenHemisphere user :
  hemiToDB (screenHemisphere user) = hemiToDB (user ≫= User.hemisphere).
Proof.
  unfold screenHemisphere.
  destruct (_ || _); [done|].
  unfold hemiToDB. by destruct (user ≫= User.hemisphere) as [[|c s]|].
Qed.

Section ScreenProperties.

Variable remote : Query → Response.
Variable isoNextDay : str → option str.
Variable clk : Clock.

(** A call depends on the label and the fallback flag through the
    attempts only, and on the hemisphere through [hemiToDB] only. *)
Lemma getDailyForecast_ext s1 h1 o1 s2 h2 o2 w :
  attemptsFor s1 o1 = attemptsFor s2 o2 →
  hemiToDB h1 = hemiToDB h2 →
  userId o1 = userId o2 → forceDate o1 = forceDate o2 →
  useCache o1 = useCache o2 → debug o1 = debug o2 →
  getDailyForecast remote isoNextDay clk s1 h1 o1 w
  = getDailyForecast remote isoNextDay clk s2 h2 o2 w.
Proof.
  intros Ha Hh Hu Hf Hc Hd.
  unfold getDailyForecast, stage1, stage2, stage3, cacheEnabled, anchorsFor.
  by rewrite Ha, Hh, Hu, Hf, Hc, Hd.
Qed.

(** X15.  The spelling of a label does not matter: labels that differ in
    letter case, in the style of their dashes, in surrounding whitespace
    or in the length of whitespace runs normalise to the same record, give
    the same attempts (hence the same cache keys) and make every call
    behave the same. *)
Theorem label_spelling_is_irrelevant a b :
  SpellingVariant a b →
  normalizeSignForDaily a = normalizeSignForDaily b
  ∧ (∀ allow, buildSignAttemptsForDaily a allow = buildSignAttemptsForDaily b allow)
  ∧ (∀ hemiIn opts w,
       getDailyForecast remote isoNextDay clk a hemiIn opts w
       = getDailyForecast remote isoNextDay clk b hemiIn opts w).
Proof.
  intros H%SpellingVariant_normalize.
  assert (Ha : ∀ allow, buildSignAttemptsForDaily a allow = buildSignAttemptsForDaily b allow)
    by (intros; unfold buildSignAttemptsForDaily; by rewrite H).
  split; [done|]. split; [done|].
  intros. apply getDailyForecast_ext; try done. apply Ha.
Qed.

(** X16.  The wrapper is the engine called on the profile's label and raw
    hemisphere with true-sign fallback off.  The flag it computes from the
    label and its "Southern" default change nothing: for a cusp label the
    flag is off, and for any other label the components are attempted
    whatever the flag is.  The result is the resolved row with its content
    fields read through [|| ''].  A missing user resolves the empty
    label. *)
Theorem getAccessibleHoroscope_is_engine_call user opts w :
  let label := screenSignLabel user in
  let call :=
    getDailyForecast remote isoNextDay clk label (user ≫= User.hemisphere)
      {| userId := orElse (user ≫= User.id) (user ≫= User.email);
         forceDate := Screen.forceDate opts;
         useCache := Screen.useCache opts;
         debug := Screen.debug opts;
         allowTrueSignFallback := false |} w in
  getAccessibleHoroscope remote isoNextDay clk user opts w
  = (match call.1 with
     | Returned row => Returned (toHoroscope <$> row)
     | Threw => Threw
     end, call.2)
  ∧ (user = None → label = [])
  ∧ (∀ row, Horoscope.raw (toHoroscope row) = row
            ∧ (hasContent row →
               Some (Horoscope.daily (toHoroscope row)) = daily_horoscope row
               ∧ Some (Horoscope.affirmation (toHoroscope row)) = affirmation row
               ∧ Some (Horoscope.deeper (toHoroscope row)) = deeper_insight row)).
Proof.
  cbn zeta. split; [|split].
  - unfold getAccessibleHoroscope, mbind, eff_bind.
    rewrite (getDailyForecast_ext _ _ _ (screenSignLabel user) (user ≫= User.hemisphere)
               {| userId := orElse (user ≫= User.id) (user ≫= User.email);
                  forceDate := Screen.forceDate opts;
                  useCache := Screen.useCache opts;
                  debug := Screen.debug opts;
                  allowTrueSignFallback := false |});
      [|apply attempts_flag_from_label|apply hemiToDB_screenHemisphere|done..].
    destruct (getDailyForecast _ _ _ _ _ _ w) as [[[row|]|] w']; done.
  - by intros ->.
  - intros row. split; [done|].
    intros ([? H1] & [? H2] & [? H3]). simpl. by rewrite H1, H2, H3.
Qed.

End ScreenProperties.

Example accessible_cusp_user :
  (getAccessibleHoroscope (storeOf [cuspRow]) isoNextDayStd sydneyMorning
     (Some cuspUser)
     {| Screen.forceDate := None; Screen.useCache := None; Screen.debug := false |}
     freshWorld).1
  = Returned (Some (toHoroscope (cleanRow cuspRow))).
Proof. vm_compute. reflexivity. Qed.

(** *** Day strings *)

Lemma digitsFrom_read fuel n acc :
  (n < 2 ^ (N.of_nat fuel + 1))%N →
  numOf (digitsFrom fuel n acc)
  = fold_left (fun a c => (10 * a + (c - 48))%N) acc n.
Proof.
  unfold numOf. revert n acc. induction fuel as [|f IH]; intros n acc Hn.
  - cbn [digitsFrom fold_left]. f_equal.
    change (2 ^ (N.of_nat 0 + 1))%N with 2%N in Hn.
    rewrite N.mod_small by lia. lia.
  - cbn [digitsFrom]. destruct (N.eqb_spec (n / 10) 0) as [E|E].
    + cbn [fold_left]. f_equal.
      assert (n < 10)%N by (apply N.div_small_iff in E; lia).
      rewrite N.mod_small by lia. lia.
    + rewrite IH.
      * cbn [fold_left]. f_equal. rewrite (N.add_comm 48), N.add_sub.
        symmetry. apply N.Div0.div_mod.
      * apply N.Div0.div_lt_upper_bound.
        replace (N.of_nat (S f) + 1)%N with (N.succ (N.of_nat f + 1)) in Hn by lia.
        rewrite N.pow_succ_r' in Hn. lia.
Qed.

Lemma numOf_decimal y : 0 ≤ y → numOf (decimal y) = Z.to_N y.
Proof.
  intros Hy. unfold decimal.
  destruct (Z.ltb_spec y 0); [lia|].
  rewrite Z.abs_eq by done. rewrite digitsFrom_read; [done|].
  rewrite N2Nat.id. destruct (N.eq_dec (Z.to_N y) 0%N) as [->|Hne]; [done|].
  rewrite N.add_1_r. apply N.log2_spec. lia.
Qed.

Lemma decimal_inj y y' : 0 ≤ y → 0 ≤ y' → decimal y = decimal y' → y = y'.
Proof.
  intros Hy Hy' H. apply (f_equal numOf) in H.
  rewrite !numOf_decimal in H by done. lia.
Qed.

Lemma civilFromDays_year n y m d : 0 ≤ n → civilFromDays n = (y, m, d) → 1970 ≤ y.
Proof.
  unfold civilFromDays. intros Hn [= <- _ _].
  destruct (_ <? 10) eqn:E; [apply Z.ltb_lt in E|apply Z.ltb_ge in E];
    (destruct (_ <=? 2) eqn:E2; [apply Z.leb_le in E2|apply Z.leb_gt in E2]);
    Z.div_mod_to_equations; lia.
Qed.

Lemma ymdOfLocal_inj t t' :
  0 ≤ t → 0 ≤ t' → ymdOfLocal t = ymdOfLocal t' → t / msPerDay = t' / msPerDay.
Proof.
  intros Ht Ht'. unfold ymdOfLocal.
  assert (0 ≤ t / msPerDay) as Hn by (apply Z.div_pos; [done|by vm_compute]).
  assert (0 ≤ t' / msPerDay) as Hn' by (apply Z.div_pos; [done|by vm_compute]).
  pose proof (daysFromCivil_civilFromDays (t / msPerDay)) as R1.
  pose proof (daysFromCivil_civilFromDays (t' / msPerDay)) as R2.
  destruct (civilFromDays (t / msPerDay)) as [[y m] d] eqn:E1.
  destruct (civilFromDays (t' / msPerDay)) as [[y' m'] d'] eqn:E2.
  pose proof (civilFromDays_range _ _ _ _ E1) as [Hm Hd].
  pose proof (civilFromDays_range _ _ _ _ E2) as [Hm' Hd'].
  pose proof (civilFromDays_year _ _ _ _ Hn E1) as Hy.
  pose proof (civilFromDays_year _ _ _ _ Hn' E2) as Hy'.
  intros Heq. rewrite !pad2_twoDigits in Heq by lia.
  apply app_inj_2 in Heq as [Hdec Heq]; [|done].
  apply decimal_inj in Hdec; [|lia..]. subst y'.
  assert (m = m' ∧ d = d') as [-> ->]; [|congruence].
  injection Heq as H1 H2 H3 H4.
  split; apply pad2_inj; try lia; rewrite !pad2_twoDigits by lia;
    unfold twoDigits; congruence.
Qed.

(** X17.  A day string names one calendar day: from 1970 on, two instants,
    each read in its own zone, get the same [YYYY-MM-DD] exactly when they
    fall on the same local calendar day. *)
Theorem ymdInTZ_same_day d tz d' tz' :
  0 ≤ d + tz d → 0 ≤ d' + tz' d' →
  ymdInTZ d tz = ymdInTZ d' tz' ↔ (d + tz d) / msPerDay = (d' + tz' d') / msPerDay.
Proof.
  intros H H'. unfold ymdInTZ. split; [by apply ymdOfLocal_inj|].
  intros E. unfold ymdOfLocal. by rewrite E.
Qed.

Lemma anchorCandidates_times clk d :
  anchorCandidates clk d = map ymdOfLocal (anchorTimes clk d).
Proof. done. Qed.

Lemma civilFromDays_year_upper n y m d :
  n ≤ 2932896 → civilFromDays n = (y, m, d) → y ≤ 9999.
Proof.
  unfold civilFromDays. intros Hn [= <- _ _].
  destruct (_ <? 10) eqn:E; [apply Z.ltb_lt in E|apply Z.ltb_ge in E];
    (destruct (_ <=? 2) eqn:E2; [apply Z.leb_le in E2|apply Z.leb_gt in E2]);
    Z.div_mod_to_equations; lia.
Qed.

Lemma decimal_four y :
  1000 ≤ y ≤ 9999 →
  decimal y = [ (48 + Z.to_N (y / 1000))%N; (48 + Z.to_N (y / 100 mod 10))%N;
                (48 + Z.to_N (y / 10 mod 10))%N; (48 + Z.to_N (y mod 10))%N ].
Proof.
  intros Hy.
  assert (Hall : forallb (fun i =>
             let y := 1000 + Z.of_nat i in
             bool_decide (decimal y
               = [ (48 + Z.to_N (y / 1000))%N; (48 + Z.to_N (y / 100 mod 10))%N;
                   (48 + Z.to_N (y / 10 mod 10))%N; (48 + Z.to_N (y mod 10))%N ]))
            (seq 0 (Z.to_nat 9000)) = true) by (vm_compute; reflexivity).
  rewrite forallb_forall in Hall.
  specialize (Hall (Z.to_nat (y - 1000))). cbn zeta in Hall.
  replace (1000 + Z.of_nat (Z.to_nat (y - 1000))) with y in Hall by lia.
  eapply bool_decide_eq_true_1, Hall, in_seq. lia.
Qed.

Lemma digitVal_digit x : 0 ≤ x ≤ 9 → digitVal (48 + Z.to_N x)%N = Some x.
Proof.
  intros Hx. unfold digitVal.
  assert ((48 <=? 48 + Z.to_N x)%N && (48 + Z.to_N x <=? 57)%N = true) as ->
    by (apply andb_true_iff; split; apply N.leb_le; lia).
  f_equal. lia.
Qed.

(** The day string of a local time is read back as its day number. *)
Lemma parseYmd_ymdOfLocal t :
  0 ≤ t ≤ endOfYear9999 → parseYmd (ymdOfLocal t) = Some (t / msPerDay).
Proof.
  intros [Ht Hmax]. unfold ymdOfLocal.
  assert (0 ≤ t / msPerDay) as Hn by (apply Z.div_pos; [done|by vm_compute]).
  assert (t / msPerDay ≤ 2932896) as Hn'
    by (unfold endOfYear9999, msPerDay in *; Z.div_mod_to_equations; lia).
  pose proof (daysFromCivil_civilFromDays (t / msPerDay)) as R.
  destruct (civilFromDays (t / msPerDay)) as [[y m] d] eqn:E.
  pose proof (civilFromDays_range _ _ _ _ E) as [Hm Hd].
  pose proof (civilFromDays_year _ _ _ _ Hn E) as Hy.
  pose proof (civilFromDays_year_upper _ _ _ _ Hn' E) as Hy'.
  rewrite decimal_four, !pad2_twoDigits by lia.
  unfold twoDigits. cbn [app]. unfold parseYmd.
  rewrite !digitVal_digit by (Z.div_mod_to_equations; lia).
  cbn [mbind option_bind].
  replace (1000 * (y / 1000) + 100 * (y / 100 mod 10) + 10 * (y / 10 mod 10) + y mod 10)
    with y by (Z.div_mod_to_equations; lia).
  replace (10 * (m / 10) + m mod 10) with m by (Z.div_mod_to_equations; lia).
  replace (10 * (d / 10) + d mod 10) with d by (Z.div_mod_to_equations; lia).
  rewrite R. rewrite bool_decide_eq_true_2; [done|]. by rewrite E.
Qed.

Section ClockAnchors.

Variable remote : Query → Response.
Variable clk : Clock.

Lemma getDailyForecast_returns isoNextDay signIn hemiIn opts w :
  Forall (fun a => is_Some (isoNextDay a)) (anchorsFor clk opts) →
  ∃ r w', getDailyForecast remote isoNextDay clk signIn hemiIn opts w = (Returned r, w').
Proof.
  intros Hall. rewrite getDailyForecast_stages.
  destruct (stage1 _ _ _ _ _) as [cached|]; [by eexists _, _|].
  unfold stage2, stage3.
  destruct (remotePass _ _ _ _ _ _ _ w) as [out w1] eqn:H2.
  apply remotePass_spec in H2 as (tried & rest & Ha & Hcalls & Hout).
  destruct out as [[clean|]|].
  - by eexists _, _.
  - destruct (fetchLatestForSignAndHemi _ _ _ w1) as [out3 w3] eqn:H3.
    apply fetchLatest_spec in H3 as (_ & _ & found & -> & _). by eexists _, _.
  - destruct Hout as (_ & bad & Hbad & Hnone). rewrite Forall_forall in Hall.
    destruct (Hall bad Hbad) as [? ?]. congruence.
Qed.

(** X18.  Without a day override a call does not throw: as long as the
    local times behind the anchors lie between 1970 and the last day but
    one of the year 9999, every anchor built from the clock is a day
    string that the date query reads back as a valid date, the end of its
    range being the next day, so the call returns. *)
Theorem clock_anchors_never_throw signIn hemiIn opts w :
  present (forceDate opts) = false →
  Forall (fun t => 0 ≤ t ∧ t + msPerDay ≤ endOfYear9999) (anchorTimes clk (now clk)) →
  Forall (fun a => ∃ t, a = ymdOfLocal t
                        ∧ isoNextDayStd a
                          = Some (ymdOfLocal (t + msPerDay) ++ lit "T00:00:00.000Z"))
         (anchorsFor clk opts)
  ∧ ∃ r w', getDailyForecast remote isoNextDayStd clk signIn hemiIn opts w
            = (Returned r, w').
Proof.
  intros Hf Ht.
  assert (Ha : anchorsFor clk opts = buildDailyAnchors clk (now clk)).
  { unfold anchorsFor. destruct (forceDate opts) as [[|c s]|]; done. }
  assert (Hall : Forall (fun a => ∃ t, a = ymdOfLocal t
                        ∧ isoNextDayStd a
                          = Some (ymdOfLocal (t + msPerDay) ++ lit "T00:00:00.000Z"))
                   (anchorsFor clk opts)).
  { rewrite Ha. apply Forall_forall. intros a Hin.
    destruct (buildDailyAnchors_shape clk (now clk)) as (_ & _ & Hiff & _).
    apply Hiff in Hin. rewrite anchorCandidates_times in Hin.
    apply list_elem_of_fmap in Hin as (t & -> & Hin).
    rewrite Forall_forall in Ht. specialize (Ht t Hin).
    exists t. split; [done|]. unfold isoNextDayStd.
    rewrite parseYmd_ymdOfLocal by (unfold msPerDay in Ht; lia). cbn [mbind option_bind]. do 2 f_equal.
    unfold ymdOfLocal.
    rewrite Z.div_mul by (by vm_compute).
    replace (t + msPerDay) with (t + 1 * msPerDay) by lia.
    by rewrite Z.div_add by (by vm_compute). }
  split; [exact Hall|].
  apply getDailyForecast_returns.
  eapply Forall_impl; [exact Hall|]. intros a (t & _ & ->). by eexists.
Qed.

End ClockAnchors.

Section CacheOrder.

Variable remote : Query → Response.
Variable isoNextDay : str → option str.
Variable clk : Clock.

Local Ltac eff :=
  unfold mbind, eff_bind, mret, eff_ret, throw, ask in *; simpl in *.

Lemma cacheAttempts_first w uid hemi d atts r :
  cacheAttempts w uid hemi d atts = Some r →
  ∃ s1 s s2,
    atts = s1 ++ s :: s2
    ∧ getFromCache (cacheKeyDaily uid s hemi d) w = Some r ∧ wellFormed r = true
    ∧ ∀ s' r', s' ∈ s1 → getFromCache (cacheKeyDaily uid s' hemi d) w = Some r' →
               wellFormed r' = false.
Proof.
  induction atts as [|s atts IH]; [done|]. cbn [cacheAttempts].
  destruct (getFromCache (cacheKeyDaily uid s hemi d) w) as [c|] eqn:Hg.
  - destruct (wellFormed c) eqn:Hwf.
    + intros [= <-]. exists [], s, atts. split; [done|]. split; [done|].
      split; [done|]. by intros ? ? ?%not_elem_of_nil.
    + intros (s1 & s0 & s2 & -> & ? & ? & Hpre)%IH.
      exists (s :: s1), s0, s2. split; [done|]. split; [done|]. split; [done|].
      intros s' r' [->|?]%elem_of_cons Hr; [congruence|by eapply Hpre].
  - intros (s1 & s0 & s2 & -> & ? & ? & Hpre)%IH.
    exists (s :: s1), s0, s2. split; [done|]. split; [done|]. split; [done|].
    intros s' r' [->|?]%elem_of_cons Hr; [congruence|by eapply Hpre].
Qed.

(** X19.  The order of the cache pass.  A record served from the cache is
    the well-formed entry under the first key in the order "anchors
    outside, attempts inside": no attempt has a well-formed entry for an
    earlier anchor, and no earlier attempt has one for the anchor of the
    hit.  So an entry of today's anchor is served before an entry of
    yesterday's, whichever attempt it was stored for.  The call then
    returns that record and leaves the world as it is. *)
Theorem cache_pass_order signIn hemiIn opts w r :
  stage1 clk signIn hemiIn opts w = Some r →
  cacheEnabled opts = true
  ∧ getDailyForecast remote isoNextDay clk signIn hemiIn opts w = (Returned (Some r), w)
  ∧ ∃ a1 d a2 s1 s s2,
      anchorsFor clk opts = a1 ++ d :: a2
      ∧ attemptsFor signIn opts = s1 ++ s :: s2
      ∧ getFromCache (cacheKeyDaily (userId opts) s (hemiToDB hemiIn) d) w = Some r
      ∧ wellFormed r = true
      ∧ (∀ d' s' r', d' ∈ a1 → s' ∈ attemptsFor signIn opts →
           getFromCache (cacheKeyDaily (userId opts) s' (hemiToDB hemiIn) d') w = Some r' →
           wellFormed r' = false)
      ∧ (∀ s' r', s' ∈ s1 →
           getFromCache (cacheKeyDaily (userId opts) s' (hemiToDB hemiIn) d) w = Some r' →
           wellFormed r' = false).
Proof.
  intros H1. split; [|split].
  - unfold stage1 in H1. by destruct (cacheEnabled opts).
  - unfold getDailyForecast. by rewrite H1.
  - unfold stage1 in H1. destruct (cacheEnabled opts); [|done].
    generalize dependent (anchorsFor clk opts). intros anchors.
    induction anchors as [|d anchors IH]; [done|]. cbn [cachePass].
    destruct (cacheAttempts w _ _ d _) as [c|] eqn:Ha.
    + intros [= ->]. apply cacheAttempts_first in Ha as (s1 & s & s2 & Hs & Hg & Hwf & Hpre).
      exists [], d, anchors, s1, s, s2. split; [done|]. split; [done|].
      split; [done|]. split; [done|]. split; [|done].
      by intros ? ? ? ?%not_elem_of_nil.
    + intros (a1 & d0 & a2 & s1 & s & s2 & -> & Hs & Hg & Hwf & Hpre & Hpre')%IH.
      exists (d :: a1), d0, a2, s1, s, s2. split; [done|]. split; [done|].
      split; [done|]. split; [done|]. split; [|done].
      intros d' s' r' [->|?]%elem_of_cons Hs' Hr; [|by eapply Hpre].
      by eapply cacheAttempts_None.
Qed.

(** The list-by-date pass does not read the storage: from two worlds it
    gives the same outcome and makes the same remote calls. *)
Lemma remotePass_any_storage uid hemi debug atts anchors w w0 :
  ∃ out l w' w0',
    remotePass remote isoNextDay uid hemi debug atts anchors w = (out, w')
    ∧ remotePass remote isoNextDay uid hemi debug atts anchors w0 = (out, w0')
    ∧ calls w' = calls w ++ l ∧ calls w0' = calls w0 ++ l.
Proof.
  revert w w0. induction anchors as [|a anchors IH]; intros w w0.
  { exists (Returned None), [], w, w0. by rewrite !app_nil_r. }
  cbn [remotePass]. unfold mbind at 1 3, eff_bind at 1 3.
  destruct (fetchRowsForDate _ _ a hemi debug w) as [o w1] eqn:Hf.
  destruct (fetchRowsForDate _ _ a hemi debug w0) as [o0 w01] eqn:Hf0.
  apply fetchRowsForDate_spec in Hf as (_ & Hc & Ho).
  apply fetchRowsForDate_spec in Hf0 as (_ & Hc0 & Ho0).
  assert (o0 = o) as -> by (destruct (isoNextDay a); congruence).
  clear Ho0.
  assert (Hnext : ∃ out l w' w0',
    remotePass remote isoNextDay uid hemi debug atts anchors w1 = (out, w')
    ∧ remotePass remote isoNextDay uid hemi debug atts anchors w01 = (out, w0')
    ∧ calls w' = calls w ++ l ∧ calls w0' = calls w0 ++ l).
  { destruct (IH w1 w01) as (out & l & w' & w0' & H & H0 & Hl & Hl0).
    exists out, (dayCalls remote isoNextDay hemi debug a ++ l), w', w0'.
    rewrite H, H0, Hl, Hl0, Hc, Hc0, <- !app_assoc. done. }
  destruct o as [[rows err]|].
  2:{ exists Threw, (dayCalls remote isoNextDay hemi debug a), w1, w01. done. }
  destruct err as [e|]; [exact Hnext|].
  destruct rows as [|x rows]; [exact Hnext|].
  destruct (findMatch (x :: rows) atts) as [[cand hit]|]; [|exact Hnext].
  cbn beta iota zeta. unfold mbind, eff_bind.
  destruct (setInCache_spec (cacheKeyDaily uid cand hemi a) (cleanRow hit) w1)
    as (w2 & -> & Hcalls2 & _).
  destruct (setInCache_spec (cacheKeyDaily uid cand hemi a) (cleanRow hit) w01)
    as (w02 & -> & Hcalls02 & _).
  eff. eexists _, (dayCalls remote isoNextDay hemi debug a), _, _.
  split; [done|]. split; [done|]. by rewrite Hcalls2, Hcalls02.
Qed.

Lemma fetchLatest_any_storage atts hemi w w0 :
  ∃ found,
    fetchLatestForSignAndHemi remote atts hemi w
    = (Returned found,
       {| storage := storage w;
          calls := calls w ++ [logged remote (QLatest (buildHemisphereVariants hemi))] |})
    ∧ fetchLatestForSignAndHemi remote atts hemi w0
      = (Returned found,
         {| storage := storage w0;
            calls := calls w0 ++ [logged remote (QLatest (buildHemisphereVariants hemi))] |}).
Proof.
  unfold fetchLatestForSignAndHemi. eff.
  destruct (error (remote _)); [by eexists|].
  destruct (data (remote _)) as [[|x rows]|]; [by eexists| |by eexists].
  destruct (findMatch _ _) as [[cand hit]|]; by eexists.
Qed.

(** X20.  The storage bears on a call through the cache pass only: two
    calls with the same arguments that both miss the cache (as do all
    calls with [useCache: false]) give the same outcome and make the same
    remote calls, whatever their storages hold. *)
Theorem storage_matters_in_cache_pass_only signIn hemiIn opts w w0 :
  stage1 clk signIn hemiIn opts w = None →
  stage1 clk signIn hemiIn opts w0 = None →
  (getDailyForecast remote isoNextDay clk signIn hemiIn opts w).1
  = (getDailyForecast remote isoNextDay clk signIn hemiIn opts w0).1
  ∧ issuedSince w (getDailyForecast remote isoNextDay clk signIn hemiIn opts w).2
    = issuedSince w0 (getDailyForecast remote isoNextDay clk signIn hemiIn opts w0).2.
Proof.
  intros H1 H0. rewrite !getDailyForecast_stages, H1, H0. unfold stage2, stage3.
  destruct (remotePass_any_storage (userId opts) (hemiToDB hemiIn) (debug opts)
              (attemptsFor signIn opts) (anchorsFor clk opts) w w0)
    as (out & l & w' & w0' & -> & -> & Hl & Hl0).
  destruct out as [[clean|]|]; cbn [fst snd].
  - by rewrite (issuedSince_app _ _ _ Hl), (issuedSince_app _ _ _ Hl0).
  - destruct (fetchLatest_any_storage (attemptsFor signIn opts) (hemiToDB hemiIn) w' w0')
      as (found & -> & ->). cbn [fst snd]. split; [done|].
    rewrite (issuedSince_app w _ (l ++ [logged remote
               (QLatest (buildHemisphereVariants (hemiToDB hemiIn)))]))
      by (cbn [calls]; by rewrite Hl, <- app_assoc).
    rewrite (issuedSince_app w0 _ (l ++ [logged remote
               (QLatest (buildHemisphereVariants (hemiToDB hemiIn)))]))
      by (cbn [calls]; by rewrite Hl0, <- app_assoc).
    done.
  - by rewrite (issuedSince_app _ _ _ Hl), (issuedSince_app _ _ _ Hl0).
Qed.

End CacheOrder.

(** ** Anchors, matching and the passes *)

(** X21.  In a zone that keeps its UTC offset from a day before to a day
    after the instant, the anchors are three to five distinct day strings:
    today in the user's zone first, yesterday and tomorrow in that zone,
    which differ from today and from one another, and the UTC and device
    days; nothing else is an anchor. *)
Theorem buildDailyAnchors_steady_anchors clk d :
  let tz := getUserTimeZone clk in
  let l := buildDailyAnchors clk d in
  tz (d - msPerDay) = tz d → tz (d + msPerDay) = tz d →
  NoDup l
  ∧ head l = Some (ymdInTZ d tz)
  ∧ (3 ≤ length l ≤ 5)%nat
  ∧ (∀ a, a ∈ l ↔ a ∈ [ymdInTZ d tz; anchorUTC d; anchorLocal clk d;
                        ymdInTZ (d - msPerDay) tz; ymdInTZ (d + msPerDay) tz])
  ∧ ymdInTZ (d - msPerDay) tz ≠ ymdInTZ d tz
  ∧ ymdInTZ (d + msPerDay) tz ≠ ymdInTZ d tz
  ∧ ymdInTZ (d - msPerDay) tz ≠ ymdInTZ (d + msPerDay) tz.
Proof.
  intros tz l Hy Ht.
  destruct (buildDailyAnchors_shape clk d) as (Hnd & _ & Hin & Hhead & [_ H5] & H3).
  fold tz in Hin, Hhead, H3. fold l in Hnd, Hin, Hhead, H5, H3.
  set (L := d + tz d).
  assert (Hyes : ymdInTZ (d - msPerDay) tz = ymdOfLocal (L - msPerDay))
    by (unfold ymdInTZ, L; rewrite Hy; f_equal; lia).
  assert (Htom : ymdInTZ (d + msPerDay) tz = ymdOfLocal (L + msPerDay))
    by (unfold ymdInTZ, L; rewrite Ht; f_equal; lia).
  assert (Htod : ymdInTZ d tz = ymdOfLocal L) by done.
  assert (D1 : ymdInTZ (d - msPerDay) tz ≠ ymdInTZ d tz).
  { rewrite Hyes, Htod. intros H. apply (ymdOfLocal_near (L - msPerDay) 1); [lia|].
    rewrite H. f_equal; lia. }
  assert (D2 : ymdInTZ (d + msPerDay) tz ≠ ymdInTZ d tz).
  { rewrite Htom, Htod. intros H. apply (ymdOfLocal_near L 1); [lia|].
    rewrite <- H. f_equal; lia. }
  assert (D3 : ymdInTZ (d - msPerDay) tz ≠ ymdInTZ (d + msPerDay) tz).
  { rewrite Hyes, Htom. intros H. apply (ymdOfLocal_near (L - msPerDay) 2); [lia|].
    rewrite H. f_equal; lia. }
  split; [done|]. split; [done|]. split; [split; [by apply H3|done]|].
  split; [exact Hin|]. done.
Qed.

(** X22.  Matching is transitive: a row label that matches an attempt
    which matches a third label matches that label too.  With symmetry
    and reflexivity on non-empty labels, [rowMatchesSign] sorts the
    non-empty labels into classes. *)
Theorem rowMatchesSign_transitive a b c :
  rowMatchesSign a b = true → rowMatchesSign b c = true →
  rowMatchesSign a c = true
  ∧ (∀ d, rowMatchesSign a d = rowMatchesSign b d).
Proof.
  unfold rowMatchesSign.
  destruct (present a) eqn:Ha, (present b) eqn:Hb; cbn [negb orb]; try done.
  intros Hab%bool_decide_eq_true. split.
  - destruct (present c); cbn [negb orb] in *; [|done].
    apply bool_decide_eq_true in H. apply bool_decide_eq_true. congruence.
  - intros d. destruct (negb (present d)); [done|].
    apply bool_decide_ext. by rewrite Hab.
Qed.

Lemma findMatch_no_rows atts : findMatch [] atts = None.
Proof. induction atts as [|c atts IH]; [done|]. exact IH. Qed.

Lemma isProbe_dayCalls remote isoNextDay hemi d :
  List.filter (fun c => negb (isProbe c)) (dayCalls remote isoNextDay hemi true d)
  = dayCalls remote isoNextDay hemi false d.
Proof.
  unfold dayCalls. destruct (isoNextDay d) as [endIso|]; [|done].
  cbn [List.filter isProbe logged query dayQuery negb].
  destruct (error _); [done|]. by destruct (default [] _).
Qed.

Section Passes.

Variable remote : Query → Response.
Variable isoNextDay : str → option str.

Local Ltac eff :=
  unfold mbind, eff_bind, mret, eff_ret, throw, ask in *; simpl in *.

Lemma fetchRowsForDate_dayRows dateStr hemi debug w out w' :
  fetchRowsForDate remote isoNextDay dateStr hemi debug w = (out, w') →
  match isoNextDay dateStr with
  | None => out = Threw
  | Some _ =>
      ∃ err, out = Returned (dayRows remote isoNextDay hemi dateStr, err)
             ∧ (is_Some err → dayRows remote isoNextDay hemi dateStr = [])
  end.
Proof.
  intros (_ & _ & H)%fetchRowsForDate_spec. unfold dayRows.
  destruct (isoNextDay dateStr) as [endIso|]; [|done].
  cbn zeta in *. destruct (error (remote _)) as [e|].
  - by exists (Some e).
  - exists None. split; [done|]. by intros [? [=]].
Qed.

Lemma remotePass_debug uid hemi atts anchors w w0 :
  storage w = storage w0 →
  ∃ out l w' w0',
    remotePass remote isoNextDay uid hemi true atts anchors w = (out, w')
    ∧ remotePass remote isoNextDay uid hemi false atts anchors w0 = (out, w0')
    ∧ calls w' = calls w ++ l
    ∧ calls w0' = calls w0 ++ List.filter (fun c => negb (isProbe c)) l
    ∧ storage w' = storage w0'.
Proof.
  revert w w0. induction anchors as [|a anchors IH]; intros w w0 Hst.
  { exists (Returned None), [], w, w0. by rewrite !app_nil_r. }
  cbn [remotePass]. unfold mbind at 1 3, eff_bind at 1 3.
  destruct (fetchRowsForDate _ _ a hemi true w) as [o w1] eqn:Hf.
  destruct (fetchRowsForDate _ _ a hemi false w0) as [o0 w01] eqn:Hf0.
  apply fetchRowsForDate_spec in Hf as (Hs & Hc & Ho).
  apply fetchRowsForDate_spec in Hf0 as (Hs0 & Hc0 & Ho0).
  assert (o0 = o) as -> by (destruct (isoNextDay a); congruence).
  clear Ho0. rewrite <- isProbe_dayCalls in Hc0.
  assert (Hst1 : storage w1 = storage w01) by congruence.
  assert (Hnext : ∃ out l w' w0',
    remotePass remote isoNextDay uid hemi true atts anchors w1 = (out, w')
    ∧ remotePass remote isoNextDay uid hemi false atts anchors w01 = (out, w0')
    ∧ calls w' = calls w ++ l
    ∧ calls w0' = calls w0 ++ List.filter (fun c => negb (isProbe c)) l
    ∧ storage w' = storage w0').
  { destruct (IH w1 w01 Hst1) as (out & l & w' & w0' & H & H0 & Hl & Hl0 & Hs').
    exists out, (dayCalls remote isoNextDay hemi true a ++ l), w', w0'.
    rewrite H, H0, Hl, Hl0, Hc, Hc0, List.filter_app, <- !app_assoc. done. }
  destruct o as [[rows err]|].
  2:{ exists Threw, (dayCalls remote isoNextDay hemi true a), w1, w01. done. }
  destruct err as [e|]; [exact Hnext|].
  destruct rows as [|x rows]; [exact Hnext|].
  destruct (findMatch (x :: rows) atts) as [[cand hit]|]; [|exact Hnext].
  cbn beta iota zeta. unfold mbind, eff_bind.
  pose proof (setInCache_storage (cacheKeyDaily uid cand hemi a) (cleanRow hit)
                w1 w01 Hst1) as Hset.
  destruct (setInCache_spec (cacheKeyDaily uid cand hemi a) (cleanRow hit) w1)
    as (w2 & E & Hcalls2 & _).
  destruct (setInCache_spec (cacheKeyDaily uid cand hemi a) (cleanRow hit) w01)
    as (w02 & E0 & Hcalls02 & _).
  rewrite E, E0 in Hset |- *. eff.
  eexists _, (dayCalls remote isoNextDay hemi true a), _, _.
  split; [done|]. split; [done|]. by rewrite Hcalls2, Hcalls02.
Qed.

Variable clk : Clock.

(** X23.  The order of the list-by-date pass.  The record it returns
    comes from the first anchor, in anchor order, whose rows hold a match
    for some attempt; every earlier anchor was a valid date whose rows
    (none, if its query failed) matched no attempt.  The record is the
    cleaned row the attempt loop finds among that anchor's rows, and the
    storage afterwards is the storage before with that record written
    under the key of the matched attempt and that anchor.  The pass
    returns null only when every anchor is a valid date without a match,
    and it throws at the first anchor that is not a valid date, provided
    no earlier anchor had a match. *)
Theorem list_by_date_pass_order signIn hemiIn opts w :
  let rowsOf := dayRows remote isoNextDay (hemiToDB hemiIn) in
  let atts := attemptsFor signIn opts in
  let '(out, w1) := stage2 remote isoNextDay clk signIn hemiIn opts w in
  match out with
  | Returned (Some clean) =>
      ∃ pre d rest cand hit,
        anchorsFor clk opts = pre ++ d :: rest
        ∧ (∀ a, a ∈ pre → is_Some (isoNextDay a) ∧ findMatch (rowsOf a) atts = None)
        ∧ is_Some (isoNextDay d)
        ∧ findMatch (rowsOf d) atts = Some (cand, hit)
        ∧ clean = cleanRow hit
        ∧ storage w1
          = storage (setInCache (cacheKeyDaily (userId opts) cand (hemiToDB hemiIn) d)
                                clean w).2
  | Returned None =>
      storage w1 = storage w
      ∧ ∀ a, a ∈ anchorsFor clk opts →
             is_Some (isoNextDay a) ∧ findMatch (rowsOf a) atts = None
  | Threw =>
      storage w1 = storage w
      ∧ ∃ pre bad rest,
          anchorsFor clk opts = pre ++ bad :: rest ∧ isoNextDay bad = None
          ∧ ∀ a, a ∈ pre → is_Some (isoNextDay a) ∧ findMatch (rowsOf a) atts = None
  end.
Proof.
  cbn zeta. unfold stage2.
  generalize (userId opts) (hemiToDB hemiIn) (debug opts) (attemptsFor signIn opts)
             (anchorsFor clk opts).
  intros uid hemi debug atts anchors.
  revert w. induction anchors as [|a anchors IH]; intros w.
  { eff. split; [done|]. by intros ? ?%not_elem_of_nil. }
  cbn [remotePass]. unfold mbind at 1, eff_bind at 1.
  destruct (fetchRowsForDate _ _ a hemi debug w) as [o w'] eqn:Hf.
  pose proof (fetchRowsForDate_dayRows _ _ _ _ _ _ Hf) as Ho.
  apply fetchRowsForDate_spec in Hf as (Hs & _ & _).
  destruct (isoNextDay a) as [endIso|] eqn:Hiso.
  2:{ subst o. split; [done|]. exists [], a, anchors. split; [done|].
      split; [done|]. by intros ? ?%not_elem_of_nil. }
  destruct Ho as (err & -> & Herr).
  assert (Hnext : findMatch (dayRows remote isoNextDay hemi a) atts = None →
    let '(out, w1) := remotePass remote isoNextDay uid hemi debug atts anchors w' in
    match out with
    | Returned (Some clean) =>
        ∃ pre d rest cand hit,
          a :: anchors = pre ++ d :: rest
          ∧ (∀ a, a ∈ pre → is_Some (isoNextDay a)
                            ∧ findMatch (dayRows remote isoNextDay hemi a) atts = None)
          ∧ is_Some (isoNextDay d)
          ∧ findMatch (dayRows remote isoNextDay hemi d) atts = Some (cand, hit)
          ∧ clean = cleanRow hit
          ∧ storage w1 = storage (setInCache (cacheKeyDaily uid cand hemi d) clean w).2
    | Returned None =>
        storage w1 = storage w
        ∧ ∀ a0, a0 ∈ a :: anchors → is_Some (isoNextDay a0)
                             ∧ findMatch (dayRows remote isoNextDay hemi a0) atts = None
    | Threw =>
        storage w1 = storage w
        ∧ ∃ pre bad rest,
            a :: anchors = pre ++ bad :: rest ∧ isoNextDay bad = None
            ∧ ∀ a, a ∈ pre → is_Some (isoNextDay a)
                             ∧ findMatch (dayRows remote isoNextDay hemi a) atts = None
    end).
  { intros Hnone. specialize (IH w').
    destruct (remotePass _ _ _ _ _ _ anchors w') as [[[clean|]|] w1].
    - destruct IH as (pre & d & rest & cand & hit & -> & Hpre & Hd & Hm & Hc & Hst).
      exists (a :: pre), d, rest, cand, hit. split; [done|]. split.
      { intros x [->|Hx]%elem_of_cons; [by rewrite Hiso|by apply Hpre]. }
      split; [done|]. split; [done|]. split; [done|].
      rewrite Hst. by apply setInCache_storage.
    - destruct IH as (Hst & Hall). split; [congruence|].
      intros x [->|Hx]%elem_of_cons; [by rewrite Hiso|by apply Hall].
    - destruct IH as (Hst & pre & bad & rest & -> & Hbad & Hpre). split; [congruence|].
      exists (a :: pre), bad, rest. split; [done|]. split; [done|].
      intros x [->|Hx]%elem_of_cons; [by rewrite Hiso|by apply Hpre]. }
  destruct err as [e|].
  { apply Hnext. rewrite Herr by (by eexists). apply findMatch_no_rows. }
  destruct (dayRows remote isoNextDay hemi a) as [|x rows] eqn:Hrows.
  { apply Hnext. apply findMatch_no_rows. }
  destruct (findMatch (x :: rows) atts) as [[cand hit]|] eqn:Hm; [|by apply Hnext].
  cbn beta iota zeta. unfold mbind, eff_bind.
  destruct (setInCache_spec (cacheKeyDaily uid cand hemi a) (cleanRow hit) w')
    as (w2 & Hset & _). rewrite Hset. eff.
  exists [], a, anchors, cand, hit. split; [done|].
  split; [by intros ? ?%not_elem_of_nil|]. rewrite Hiso, Hrows.
  split; [by eexists|]. split; [done|]. split; [done|].
  rewrite <- (setInCache_storage _ _ w' w Hs). by rewrite Hset.
Qed.

Lemma cacheAttempts_frame w w' uid hemi d atts :
  (∀ s, getFromCache (cacheKeyDaily uid s hemi d) w'
        = getFromCache (cacheKeyDaily uid s hemi d) w) →
  cacheAttempts w' uid hemi d atts = cacheAttempts w uid hemi d atts.
Proof.
  intros H. induction atts as [|s atts IH]; [done|]. cbn [cacheAttempts].
  by rewrite H, IH.
Qed.

Lemma cachePass_frame w w' uid hemi anchors atts :
  (∀ d s, getFromCache (cacheKeyDaily uid s hemi d) w'
          = getFromCache (cacheKeyDaily uid s hemi d) w) →
  cachePass w' uid hemi anchors atts = cachePass w uid hemi anchors atts.
Proof.
  intros H. induction anchors as [|d anchors IH]; [done|]. cbn [cachePass].
  by rewrite IH, (cacheAttempts_frame w w') by (intros; apply H).
Qed.

(** X24.  The cache is kept per user.  When two user-id components (the
    id, or "anon" for a missing id) hold no colon and differ, a write
    under a key of the first user changes nothing in what the cache pass
    of the second user finds, whatever label, hemisphere and options that
    pass is run for. *)
Theorem cache_is_per_user u1 s1 h1 d1 value signIn hemiIn opts w :
  colon ∉ default (lit "anon") u1 →
  colon ∉ default (lit "anon") (userId opts) →
  default (lit "anon") u1 ≠ default (lit "anon") (userId opts) →
  stage1 clk signIn hemiIn opts (setInCache (cacheKeyDaily u1 s1 h1 d1) value w).2
  = stage1 clk signIn hemiIn opts w.
Proof.
  intros H1 H2 Hne. unfold stage1. destruct (cacheEnabled opts); [|done].
  apply cachePass_frame. intros d s.
  assert (Hk : cacheKeyDaily (userId opts) s (hemiToDB hemiIn) d
               ≠ cacheKeyDaily u1 s1 h1 d1).
  { unfold cacheKeyDaily.
    change (match userId opts with Some u => u | None => lit "anon" end)
      with (default (lit "anon") (userId opts)).
    change (match u1 with Some u => u | None => lit "anon" end)
      with (default (lit "anon") u1).
    change (lit ":") with [colon]. cbn [app]. intros H.
    apply app_inv_head in H. apply app_colon_inj in H as [H _]; [|done..].
    by apply Hne. }
  unfold setInCache, getFromCache.
  destruct (storage w) as [ls|] eqn:Hs; cbn [snd]; [|by rewrite Hs].
  destruct (writable ls); cbn [snd storage items]; [|by rewrite Hs].
  by rewrite lookup_insert_ne.
Qed.

(** X25.  Debug mode does not change what a call does: with [debug] on or
    off a call gives the same outcome and leaves the same storage, and
    its remote calls are those of the call without [debug] with the
    visibility probes added. *)
Theorem debug_only_adds_probes signIn hemiIn opts w :
  let on := getDailyForecast remote isoNextDay clk signIn hemiIn (withDebug true opts) w in
  let off := getDailyForecast remote isoNextDay clk signIn hemiIn (withDebug false opts) w in
  on.1 = off.1
  ∧ storage on.2 = storage off.2
  ∧ List.filter (fun c => negb (isProbe c)) (issuedSince w on.2) = issuedSince w off.2.
Proof.
  cbn zeta. rewrite !getDailyForecast_stages.
  change (stage1 clk signIn hemiIn (withDebug true opts) w)
    with (stage1 clk signIn hemiIn (withDebug false opts) w).
  destruct (stage1 _ _ _ _ w) as [cached|].
  { cbn [fst snd]. by rewrite issuedSince_refl. }
  unfold stage2, stage3. cbn [withDebug debug userId].
  change (attemptsFor signIn (withDebug true opts)) with (attemptsFor signIn opts).
  change (attemptsFor signIn (withDebug false opts)) with (attemptsFor signIn opts).
  change (anchorsFor clk (withDebug true opts)) with (anchorsFor clk opts).
  change (anchorsFor clk (withDebug false opts)) with (anchorsFor clk opts).
  destruct (remotePass_debug (userId opts) (hemiToDB hemiIn) (attemptsFor signIn opts)
              (anchorsFor clk opts) w w eq_refl)
    as (out & l & w' & w0' & -> & -> & Hl & Hl0 & Hs).
  destruct out as [[clean|]|]; cbn [fst snd].
  - by rewrite (issuedSince_app _ _ _ Hl), (issuedSince_app _ _ _ Hl0).
  - destruct (fetchLatest_any_storage remote (attemptsFor signIn opts) (hemiToDB hemiIn)
                w' w0') as (found & -> & ->). cbn [fst snd storage].
    split; [done|]. split; [done|].
    rewrite (issuedSince_app w _ (l ++ [logged remote
               (QLatest (buildHemisphereVariants (hemiToDB hemiIn)))]))
      by (cbn [calls]; by rewrite Hl, <- app_assoc).
    rewrite (issuedSince_app w _ (List.filter (fun c => negb (isProbe c)) l
               ++ [logged remote (QLatest (buildHemisphereVariants (hemiToDB hemiIn)))]))
      by (cbn [calls]; by rewrite Hl0, <- app_assoc).
    by rewrite List.filter_app.
  - by rewrite (issuedSince_app _ _ _ Hl), (issuedSince_app _ _ _ Hl0).
Qed.

End Passes.

(** ** Further properties on concrete scenarios *)

Lemma cusp_attempts_without_fallback_witness :
  (lit "Aries" ∉ buildSignAttemptsForDaily (lit "aries-taurus cusp") false)
  ∧ lit "Aries" ∈ buildSignAttemptsForDaily (lit "aries cusp") false.
Proof.
  split.
  - destruct (cusp_attempts_without_fallback (lit "aries-taurus cusp"))
      as (_ & _ & H); [reflexivity|].
    intros Hin. apply (H (lit "Aries")) in Hin.
    + vm_compute in Hin. discriminate.
    + vm_compute. apply list_elem_of_here.
  - destruct (cusp_attempts_without_fallback (lit "aries cusp"))
      as (_ & _ & H); [reflexivity|].
    apply (H (lit "Aries")).
    + vm_compute. apply list_elem_of_here.
    + reflexivity.
Defined.

Lemma matched_attempt_has_no_hyphen_witness :
  (hyphen ∉ lit "Aries" ++ [enDash] ++ lit "Taurus Cusp")
  ∧ lit "Aries" ++ [enDash] ++ lit "Taurus Cusp"
    ∈ buildSignAttemptsForDaily (lit "aries-taurus cusp") false
  ∧ cuspRow ∈ [cuspRow]
  ∧ rowMatchesSign (sign cuspRow) (Some (lit "Aries" ++ [enDash] ++ lit "Taurus Cusp"))
    = true.
Proof.
  apply (matched_attempt_has_no_hyphen [cuspRow] (lit "aries-taurus cusp") false).
  vm_compute. reflexivity.
Defined.

Lemma remote_result_matches_attempt_witness :
  (∃ cand, cand ∈ attemptsFor (lit "aries") plainOptions
           ∧ rowMatchesSign
               (sign (cleanRow (tableRow "Aries" "Northern" "2024-11-02"
                                         "Today brings focus.")))
               (Some cand) = true)
  ∧ source_table (cleanRow (tableRow "Aries" "Northern" "2024-11-02"
                                     "Today brings focus."))
    = sourceTag.
Proof.
  apply (remote_result_matches_attempt utcDayStore isoNextDayStd sydneyMorning
           (lit "aries") (Some (lit "NH")) plainOptions freshWorld
           _ afterFirstSydneyCall).
  - vm_compute. reflexivity.
  - vm_compute. reflexivity.
Defined.

Lemma blank_label_resolves_to_null_witness :
  (blankCall freshWorld).1 = Returned None
  ∧ storage (blankCall freshWorld).2 = storage freshWorld
  ∧ length (issuedSince freshWorld (blankCall freshWorld).2) = 4%nat.
Proof.
  assert (Hb : Blank (lit "   ")) by (repeat constructor).
  pose proof (blank_label_resolves_to_null utcDayStore isoNextDayStd sydneyMorning
                (lit "   ") (Some (lit "NH")) plainOptions freshWorld Hb) as H.
  (change (getDailyForecast utcDayStore isoNextDayStd sydneyMorning
                   (lit "   ") (Some (lit "NH")) plainOptions) with blankCall in H).
  (destruct (blankCall freshWorld) as [out w']).
  destruct H as (_ & Hs & _ & Hall). cbn [fst snd].
  assert (Hv : Forall (λ a : str, is_Some (isoNextDayStd a)) (anchorsFor sydneyMorning plainOptions)).
  { (apply (bool_decide_unpack _); vm_compute; reflexivity). }
  destruct (Hall Hv) as [-> ->].
  split; [done|]. split; [done|]. (vm_compute). reflexivity.
Defined.

Lemma cacheKeyDaily_injective_witness :
  default (lit "anon") None = default (lit "anon") (Some (lit "anon"))
  ∧ lit "Aries" = lit "Aries" ∧ Northern = Northern
  ∧ lit "2024-11-03" = lit "2024-11-03".
Proof.
  apply (cacheKeyDaily_injective None (lit "Aries") Northern (lit "2024-11-03")
           (Some (lit "anon")) (lit "Aries") Northern (lit "2024-11-03"));
    try (vm_compute; intros H;
         repeat (apply elem_of_cons in H as [H|H]; [discriminate H|]);
         by apply not_elem_of_nil in H).
  vm_compute. reflexivity.
Defined.

Lemma label_spelling_is_irrelevant_witness :
  normalizeSignForDaily cuspLabel = normalizeSignForDaily cuspLabelRespelled
  ∧ buildSignAttemptsForDaily cuspLabel false
    = buildSignAttemptsForDaily cuspLabelRespelled false.
Proof.
  assert (H : SpellingVariant cuspLabel cuspLabelRespelled).
  { unfold cuspLabel, cuspLabelRespelled.
    apply (sv_trans _ (lit "gemini" ++ [enDash] ++ lit "cancer cusp"));
      [|apply sv_pad; repeat constructor].
    apply (sv_trans _ (lit "gemini-cancer cusp")).
    - apply sv_case, CaseVariant_asciiLower. reflexivity.
    - apply sv_dash. unfold DashVariant. vm_compute.
      repeat (constructor;
              [first [left; reflexivity
                     | right; split; [left; reflexivity | right; left; reflexivity]]|]).
      constructor. }
  destruct (label_spelling_is_irrelevant utcDayStore isoNextDayStd sydneyMorning
              cuspLabel cuspLabelRespelled H) as (Hn & Ha & _).
  split; [exact Hn|apply Ha].
Defined.

Lemma ymdInTZ_same_day_witness :
  ymdInTZ (now sydneyMorning) sydneyZone ≠ ymdInTZ (now sydneyMorning) utc
  ∧ ymdInTZ (now sydneyMorning) sydneyZone
    = ymdInTZ (now sydneyMorning + 3600000) sydneyZone.
Proof.
  split.
  - intros H.
    apply (ymdInTZ_same_day (now sydneyMorning) sydneyZone (now sydneyMorning) utc) in H.
    + vm_compute in H. discriminate.
    + vm_compute. discriminate.
    + vm_compute. discriminate.
  - apply (ymdInTZ_same_day (now sydneyMorning) sydneyZone
             (now sydneyMorning + 3600000) sydneyZone).
    + vm_compute. discriminate.
    + vm_compute. discriminate.
    + vm_compute. reflexivity.
Defined.

Lemma clock_anchors_never_throw_witness :
  ∃ r w', sydneyCall freshWorld = (Returned r, w').
Proof.
  pose proof (clock_anchors_never_throw utcDayStore sydneyMorning
              (lit "aries") (Some (lit "NH")) plainOptions freshWorld) as H.
  assert (H1 : present (forceDate plainOptions) = false) by reflexivity.
  assert (H2 : Forall (fun t => 0 ≤ t ∧ t + msPerDay ≤ endOfYear9999) (anchorTimes sydneyMorning (now sydneyMorning))).
  { (unfold anchorTimes, sydneyMorning, endOfYear9999, msPerDay; cbn [now getUserTimeZone intlTimeZone deviceTimeZone]).
    (repeat constructor; lia). }
  (specialize (H H1 H2)).
  (destruct H as [_ H]).
  (exact H).
Defined.

Lemma cache_pass_order_witness :
  sydneyCall afterFirstSydneyCall
  = (Returned (Some (cleanRow (tableRow "Aries" "Northern" "2024-11-02"
                                        "Today brings focus."))),
     afterFirstSydneyCall).
Proof.
  destruct (cache_pass_order utcDayStore isoNextDayStd sydneyMorning
              (lit "aries") (Some (lit "NH")) plainOptions afterFirstSydneyCall
              (cleanRow (tableRow "Aries" "Northern" "2024-11-02" "Today brings focus.")))
    as (_ & H & _).
  - vm_compute. reflexivity.
  - exact H.
Defined.

Lemma storage_matters_in_cache_pass_only_witness :
  (sydneyCall freshWorld).1 = (sydneyCall windowless).1
  ∧ issuedSince freshWorld (sydneyCall freshWorld).2
    = issuedSince windowless (sydneyCall windowless).2.
Proof.
  apply (storage_matters_in_cache_pass_only utcDayStore isoNextDayStd sydneyMorning
           (lit "aries") (Some (lit "NH")) plainOptions freshWorld windowless).
  - vm_compute. reflexivity.
  - vm_compute. reflexivity.
Defined.

Lemma buildDailyAnchors_steady_anchors_witness :
  (3 ≤ length (buildDailyAnchors sydneyMorning (now sydneyMorning)) ≤ 5)%nat
  ∧ head (buildDailyAnchors sydneyMorning (now sydneyMorning)) = Some (lit "2024-11-03").
Proof.
  destruct (buildDailyAnchors_steady_anchors sydneyMorning (now sydneyMorning))
    as (_ & Hh & Hlen & _); [reflexivity..|].
  split; [exact Hlen|]. rewrite Hh. vm_compute. reflexivity.
Defined.

Lemma rowMatchesSign_transitive_witness :
  rowMatchesSign (Some (lit "Aries-Taurus Cusp")) (Some (lit "aries" ++ [emDash] ++ lit "taurus"))
  = true.
Proof.
  destruct (rowMatchesSign_transitive
              (Some (lit "Aries-Taurus Cusp"))
              (Some (lit "Aries" ++ [enDash] ++ lit "Taurus"))
              (Some (lit "aries" ++ [emDash] ++ lit "taurus"))) as [H _].
  - vm_compute. reflexivity.
  - vm_compute. reflexivity.
  - exact H.
Defined.

Lemma cache_is_per_user_witness :
  stage1 sydneyMorning (lit "aries") (Some (lit "NH")) plainOptions
         (setInCache (cacheKeyDaily (Some (lit "u-17")) (lit "Aries") Northern
                                    (lit "2024-11-03"))
                     bareEntry freshWorld).2
  = stage1 sydneyMorning (lit "aries") (Some (lit "NH")) plainOptions freshWorld.
Proof.
  apply (cache_is_per_user sydneyMorning (Some (lit "u-17")) (lit "Aries") Northern
           (lit "2024-11-03") bareEntry (lit "aries") (Some (lit "NH")) plainOptions
           freshWorld).
  - vm_compute. intros H.
    repeat (apply elem_of_cons in H as [H|H]; [discriminate H|]).
    by apply not_elem_of_nil in H.
  - vm_compute. intros H.
    repeat (apply elem_of_cons in H as [H|H]; [discriminate H|]).
    by apply not_elem_of_nil in H.
  - vm_compute. discriminate.
Defined.
